(** * Vibe Creation Studio: the multi-provider orchestration layer

    A shallow embedding of [services/modelRegistry.ts] (provider registry,
    task router, [generateWithBestModel]) and of the agent orchestrator
    ([safeParseJSON], [generateWithFallback], [runMultiAgentWorkflow]),
    followed by the properties proved about them.  The embedding also
    covers the editor ([refineContent]), the folder context
    ([shouldIgnore], [isIndexable], [calculateStats], [findFile],
    [findFilesByPattern], [getAllIndexedContent]) and the start-up of the
    vendor modules ([services/providers]).

    Conventions of the embedding.
    - A JavaScript string is a [string] whose characters are UTF-16 code
      units below 256 (the Latin-1 range); [toLowerCase], [trim] and the
      regular expressions are exact on that range.
    - A value produced by [JSON.parse] is a [JSON] term; a property read
      yields a [JSValue], where [None] is [undefined].
    - Asynchronous code is written in a state-and-exception monad [M] over
      the run state: the outside world consulted by the vendors, the list
      of [generateText] calls and back-off sleeps performed so far, and the
      log entries handed to the [onLog] callback.  [console.log] output is
      not part of the state. *)

From Stdlib Require Import List String Ascii Bool ZArith NArith Arith Lia.
From Stdlib Require Import DecimalString.
Import ListNotations.
Open Scope string_scope.

(* ================================================================== *)
(** * Part I: definitions                                              *)
(* ================================================================== *)

(** ** JavaScript strings *)

Module JsString.

(** The double quote, for building literals that contain it. *)
Definition dq : string := String (ascii_of_nat 34) EmptyString.
Definition nl : string := String (ascii_of_nat 10) EmptyString.
Definition backtick : ascii := ascii_of_nat 96.
Definition fence : string :=
  String backtick (String backtick (String backtick EmptyString)).

(** [WhiteSpace] and [LineTerminator] code units below 256: what [trim]
    removes and what [\s] matches. *)
Definition isSpace (c : ascii) : bool :=
  let n := nat_of_ascii c in
  (((9 <=? n) && (n <=? 13)) || (n =? 32) || (n =? 160))%nat.

Fixpoint startsWith (p s : string) : bool :=
  match p, s with
  | EmptyString, _ => true
  | String a p', String b s' => Ascii.eqb a b && startsWith p' s'
  | String _ _, EmptyString => false
  end.

(** [s.includes(needle)] *)
Fixpoint includes (needle s : string) : bool :=
  startsWith needle s ||
  match s with
  | EmptyString => false
  | String _ s' => includes needle s'
  end.

Fixpoint dropWhile (f : ascii -> bool) (s : string) : string :=
  match s with
  | EmptyString => EmptyString
  | String c s' => if f c then dropWhile f s' else s
  end.

Fixpoint rev_append (s acc : string) : string :=
  match s with
  | EmptyString => acc
  | String c s' => rev_append s' (String c acc)
  end.

Definition rev (s : string) : string := rev_append s EmptyString.

Definition trimStart (s : string) : string := dropWhile isSpace s.
Definition trimEnd (s : string) : string := rev (dropWhile isSpace (rev s)).

(** [s.trim()] *)
Definition trim (s : string) : string := trimEnd (trimStart s).

Fixpoint drop (n : nat) (s : string) : string :=
  match n, s with
  | O, _ => s
  | S n', String _ s' => drop n' s'
  | S _, EmptyString => EmptyString
  end.

(** [s.substring(0, n)] *)
Fixpoint take (n : nat) (s : string) : string :=
  match n, s with
  | S n', String c s' => String c (take n' s')
  | _, _ => EmptyString
  end.

Definition lowerChar (c : ascii) : ascii :=
  let n := nat_of_ascii c in
  if (((65 <=? n) && (n <=? 90)) ||
      ((192 <=? n) && (n <=? 222) && negb (n =? 215)))%nat
  then ascii_of_nat (n + 32) else c.

(** [s.toLowerCase()] *)
Fixpoint toLowerCase (s : string) : string :=
  match s with
  | EmptyString => EmptyString
  | String c s' => String (lowerChar c) (toLowerCase s')
  end.

(** [parts.join(sep)] on an array of strings. *)
Fixpoint join (sep : string) (parts : list string) : string :=
  match parts with
  | [] => EmptyString
  | [x] => x
  | x :: rest => x ++ sep ++ join sep rest
  end.

(** [s.replace(/^<prefix>\s*/, '')]: an anchored prefix followed by a
    greedy run of white space. *)
Definition stripPrefixSpace (prefix s : string) : string :=
  if startsWith prefix s
  then dropWhile isSpace (drop (String.length prefix) s)
  else s.

(** [s.replace(/\s*<suffix>$/, '')]: the left-most match starts at the
    beginning of the white-space run that precedes the final suffix. *)
Definition stripSpaceSuffix (suffix s : string) : string :=
  let r := rev s in
  if startsWith (rev suffix) r
  then rev (dropWhile isSpace (drop (String.length suffix) r))
  else s.

(** First occurrence of [needle] in [s]: the text before it and the text
    after it. *)
Fixpoint splitFirst (needle s : string) : option (string * string) :=
  if startsWith needle s then Some (EmptyString, drop (String.length needle) s)
  else match s with
       | EmptyString => None
       | String c s' =>
           match splitFirst needle s' with
           | Some (before, after) => Some (String c before, after)
           | None => None
           end
       end.

(** [GetSubstitution] for a string pattern: in the replacement text [$$]
    is a dollar, [$&] the match, [$`] the text before the match and [$']
    the text after it; any other dollar stands for itself. *)
Fixpoint getSubstitution (matched before after repl : string) : string :=
  match repl with
  | EmptyString => EmptyString
  | String c rest =>
      if Ascii.eqb c "$"%char then
        match rest with
        | String d rest' =>
            if Ascii.eqb d "$"%char then
              String "$"%char (getSubstitution matched before after rest')
            else if Ascii.eqb d "&"%char then
              matched ++ getSubstitution matched before after rest'
            else if Ascii.eqb d backtick then
              before ++ getSubstitution matched before after rest'
            else if Ascii.eqb d "'"%char then
              after ++ getSubstitution matched before after rest'
            else String c (getSubstitution matched before after rest)
        | EmptyString => String c EmptyString
        end
      else String c (getSubstitution matched before after rest)
  end.

(** [s.replace(pattern, repl)] with a string pattern: the first
    occurrence only. *)
Definition replaceFirst (pattern repl s : string) : string :=
  match splitFirst pattern s with
  | Some (before, after) =>
      before ++ getSubstitution pattern before after repl ++ after
  | None => s
  end.

(** Truthiness of a string. *)
Definition nonEmpty (s : string) : bool :=
  match s with EmptyString => false | String _ _ => true end.

End JsString.

(** ** Vendors, model descriptors and the static tables *)

Inductive ModelProvider : Type :=
  | GEMINI | GROQ | DEEPSEEK | MISTRAL | OPENROUTER | HUGGINGFACE.

Definition ModelProvider_value (p : ModelProvider) : string :=
  match p with
  | GEMINI => "gemini" | GROQ => "groq" | DEEPSEEK => "deepseek"
  | MISTRAL => "mistral" | OPENROUTER => "openrouter"
  | HUGGINGFACE => "huggingface"
  end.

Definition ModelProvider_eq_dec (a b : ModelProvider) : {a = b} + {a <> b}.
Proof. decide equality. Defined.

Definition ModelProvider_eqb (a b : ModelProvider) : bool :=
  if ModelProvider_eq_dec a b then true else false.

(** [list.includes(p)] on an array of vendors. *)
Definition includesProvider (l : list ModelProvider) (p : ModelProvider) : bool :=
  existsb (ModelProvider_eqb p) l.

Record ModelConfig : Type := mkModelConfig {
  provider : ModelProvider;
  modelId : string;
  displayName : string;
  description : string;
  strengths : list string;
  isAvailable : bool
}.

Inductive TaskType : Type :=
  | planning | writing | editing | critique | synthesis
  | image_generation | quick_response.

Definition TaskType_value (t : TaskType) : string :=
  match t with
  | planning => "planning" | writing => "writing" | editing => "editing"
  | critique => "critique" | synthesis => "synthesis"
  | image_generation => "image_generation"
  | quick_response => "quick_response"
  end.

(** The table as the module declares it, before any vendor is constructed. *)
Definition MODEL_REGISTRY : list ModelConfig :=
  [ mkModelConfig GEMINI "gemini-2.5-flash" "Gemini 2.5 Flash"
      "Balanced speed and quality, supports image generation"
      ["images"; "balanced"; "multimodal"] true;
    mkModelConfig GEMINI "gemini-1.5-pro" "Gemini 1.5 Pro"
      "Long context (1M tokens), best for complex documents"
      ["long_context"; "reasoning"; "analysis"] true;
    mkModelConfig GROQ "llama-3.3-70b-versatile" "Llama 3.3 70B (Groq)"
      "Ultra-fast inference, strong general capabilities"
      ["speed"; "reasoning"; "general"] false;
    mkModelConfig GROQ "mixtral-8x7b-32768" "Mixtral 8x7B (Groq)"
      "Fast, multilingual, 32k context"
      ["speed"; "multilingual"; "balanced"] false;
    mkModelConfig DEEPSEEK "deepseek-chat" "DeepSeek V3"
      "Excellent reasoning and coding capabilities"
      ["reasoning"; "coding"; "analysis"; "planning"] false;
    mkModelConfig MISTRAL "mistral-large-latest" "Mistral Large"
      "High quality text generation, excellent for prose"
      ["writing"; "prose"; "creative"; "quality"] false;
    mkModelConfig MISTRAL "mistral-small-latest" "Mistral Small"
      "Efficient, good for quick tasks"
      ["speed"; "efficiency"; "quick_tasks"] false ].

Definition TASK_MODEL_PRIORITY (t : TaskType) : list ModelProvider :=
  match t with
  | planning => [DEEPSEEK; GEMINI; MISTRAL]
  | writing => [MISTRAL; DEEPSEEK; GEMINI]
  | editing => [GROQ; MISTRAL; GEMINI]
  | critique => [DEEPSEEK; GEMINI; MISTRAL]
  | synthesis => [DEEPSEEK; GEMINI; MISTRAL]
  | image_generation => [GEMINI]
  | quick_response => [GROQ; GEMINI; MISTRAL]
  end.

(** [MODEL_REGISTRY.find(m => m.provider === p && m.isAvailable)] *)
Definition findAvailableModel (models : list ModelConfig) (p : ModelProvider)
  : option ModelConfig :=
  find (fun m => ModelProvider_eqb (provider m) p && isAvailable m) models.

(** The two loops of [selectBestModel]: each returns from the function at
    the first vendor that has an available model. *)
Fixpoint firstPreferredModel (models : list ModelConfig)
    (availableProviders priorityList : list ModelProvider) : option ModelConfig :=
  match priorityList with
  | [] => None
  | preferredProvider :: rest =>
      if includesProvider availableProviders preferredProvider then
        match findAvailableModel models preferredProvider with
        | Some model => Some model
        | None => firstPreferredModel models availableProviders rest
        end
      else firstPreferredModel models availableProviders rest
  end.

Fixpoint firstAvailableModel (models : list ModelConfig)
    (providers : list ModelProvider) : option ModelConfig :=
  match providers with
  | [] => None
  | p :: rest =>
      match findAvailableModel models p with
      | Some model => Some model
      | None => firstAvailableModel models rest
      end
  end.

(** [selectBestModel(taskType, availableProviders)], reading the current
    contents [models] of the mutable table; [None] is [null]. *)
Definition selectBestModel (models : list ModelConfig) (taskType : TaskType)
    (availableProviders : list ModelProvider) : option ModelConfig :=
  match firstPreferredModel models availableProviders
          (TASK_MODEL_PRIORITY taskType) with
  | Some model => Some model
  | None => firstAvailableModel models availableProviders
  end.

(** ** JSON values and [JSON.parse] *)

(** A JSON number literal, kept exactly: it denotes
    [(-1)^neg * mant * 10^exp10]; JavaScript holds the nearest double. *)
Record Decimal : Type := mkDecimal {
  neg : bool;
  mant : N;
  exp10 : Z
}.

#[warnings="-register-all"] Inductive JSON : Type :=
  | JNull
  | JBool (b : bool)
  | JNumber (d : Decimal)
  | JString (s : string)
  | JArray (items : list JSON)
  | JObject (members : list (string * JSON)).

(** A JavaScript value as the orchestrator meets them: a JSON value or
    [undefined]. *)
Definition JSValue : Type := option JSON.
Definition undefined : JSValue := None.

Module Json.
Import JsString.

(** A literal is the number zero when no digit is set or when it rounds
    to zero: at or below half the smallest subnormal, [2^-1075]. *)
Definition isZero (d : Decimal) : bool :=
  (N.eqb (mant d) 0 ||
   (Z.ltb (exp10 d) 0 &&
    Z.leb (Z.of_N (mant d) * 2 ^ 1075) (10 ^ (- exp10 d))))%bool.

(** [ToBoolean] *)
Definition truthy (v : JSValue) : bool :=
  match v with
  | None => false
  | Some JNull => false
  | Some (JBool b) => b
  | Some (JNumber d) => negb (isZero d)
  | Some (JString s) => nonEmpty s
  | Some (JArray _) => true
  | Some (JObject _) => true
  end.

Definition isArray (v : JSValue) : bool :=
  match v with Some (JArray _) => true | _ => false end.

(** The last member named [key]: [JSON.parse] lets a later duplicate
    overwrite an earlier one. *)
Fixpoint lookup (key : string) (members : list (string * JSON)) : JSValue :=
  match members with
  | [] => None
  | (k, v) :: rest =>
      match lookup key rest with
      | Some v' => Some v'
      | None => if String.eqb k key then Some v else None
      end
  end.

(** Lexical analysis, one code unit at a time. *)
Inductive token : Type :=
  | TLBrace | TRBrace | TLBracket | TRBracket | TComma | TColon
  | TTrue | TFalse | TNull
  | TNum (d : Decimal)
  | TStr (s : string).

Inductive NumPhase : Type :=
  | PMinus      (* after the sign: a digit must follow *)
  | PZero       (* after a leading zero *)
  | PInt        (* inside the integer digits *)
  | PDot        (* after the point: a digit must follow *)
  | PFrac       (* inside the fraction digits *)
  | PExp        (* after e or E: a sign or a digit must follow *)
  | PExpSign    (* after the exponent sign: a digit must follow *)
  | PExpDigits. (* inside the exponent digits *)

Record NumState : Type := mkNumState {
  phase : NumPhase;
  nNeg : bool;
  nMant : N;
  nFrac : N;
  nExpNeg : bool;
  nExp : N
}.

Inductive LexState : Type :=
  | LStart
  | LLit (remaining : string) (tok : token)
  | LStr (acc : string)
  | LEsc (acc : string)
  | LUni (acc : string) (remain : nat) (val : N)
  | LNum (ns : NumState).

(** JSON white space: tab, line feed, carriage return, space. *)
Definition isJsonSpace (c : ascii) : bool :=
  let n := nat_of_ascii c in
  ((n =? 9) || (n =? 10) || (n =? 13) || (n =? 32))%nat.

Definition digitVal (c : ascii) : option N :=
  let n := N_of_ascii c in
  if ((48 <=? n) && (n <=? 57))%N then Some (n - 48)%N else None.

Definition hexVal (c : ascii) : option N :=
  let n := N_of_ascii c in
  if ((48 <=? n) && (n <=? 57))%N then Some (n - 48)%N
  else if ((65 <=? n) && (n <=? 70))%N then Some (n - 55)%N
  else if ((97 <=? n) && (n <=? 102))%N then Some (n - 87)%N
  else None.

Definition accepting (ns : NumState) : bool :=
  match phase ns with
  | PZero | PInt | PFrac | PExpDigits => true
  | PMinus | PDot | PExp | PExpSign => false
  end.

Definition numValue (ns : NumState) : Decimal :=
  mkDecimal (nNeg ns) (nMant ns)
    ((if nExpNeg ns then - Z.of_N (nExp ns) else Z.of_N (nExp ns))
     - Z.of_N (nFrac ns))%Z.

Definition isExpChar (c : ascii) : bool :=
  Ascii.eqb c "e"%char || Ascii.eqb c "E"%char.

(** The next state when [c] continues the number, [None] when it does
    not. *)
Definition numStep (ns : NumState) (c : ascii) : option NumState :=
  let set ph := mkNumState ph (nNeg ns) (nMant ns) (nFrac ns)
                  (nExpNeg ns) (nExp ns) in
  match phase ns with
  | PMinus =>
      match digitVal c with
      | Some d =>
          Some (mkNumState (if N.eqb d 0 then PZero else PInt)
                  (nNeg ns) d 0 false 0)
      | None => None
      end
  | PZero =>
      if Ascii.eqb c "."%char then Some (set PDot)
      else if isExpChar c then Some (set PExp)
      else None
  | PInt =>
      match digitVal c with
      | Some d =>
          Some (mkNumState PInt (nNeg ns) (nMant ns * 10 + d) 0 false 0)
      | None =>
          if Ascii.eqb c "."%char then Some (set PDot)
          else if isExpChar c then Some (set PExp)
          else None
      end
  | PDot | PFrac =>
      match digitVal c with
      | Some d =>
          Some (mkNumState PFrac (nNeg ns) (nMant ns * 10 + d)
                  (nFrac ns + 1) false 0)
      | None =>
          match phase ns with
          | PFrac => if isExpChar c then Some (set PExp) else None
          | _ => None
          end
      end
  | PExp =>
      match digitVal c with
      | Some d =>
          Some (mkNumState PExpDigits (nNeg ns) (nMant ns) (nFrac ns) false d)
      | None =>
          if Ascii.eqb c "+"%char then Some (set PExpSign)
          else if Ascii.eqb c "-"%char then
            Some (mkNumState PExpSign (nNeg ns) (nMant ns) (nFrac ns) true 0)
          else None
      end
  | PExpSign | PExpDigits =>
      match digitVal c with
      | Some d =>
          Some (mkNumState PExpDigits (nNeg ns) (nMant ns) (nFrac ns)
                  (nExpNeg ns) (nExp ns * 10 + d))
      | None => None
      end
  end%N.

(** A code unit met between tokens. *)
Definition startStep (c : ascii) : option (list token * LexState) :=
  if isJsonSpace c then Some ([], LStart)
  else if Ascii.eqb c "{"%char then Some ([TLBrace], LStart)
  else if Ascii.eqb c "}"%char then Some ([TRBrace], LStart)
  else if Ascii.eqb c "["%char then Some ([TLBracket], LStart)
  else if Ascii.eqb c "]"%char then Some ([TRBracket], LStart)
  else if Ascii.eqb c ","%char then Some ([TComma], LStart)
  else if Ascii.eqb c ":"%char then Some ([TColon], LStart)
  else if Ascii.eqb c (ascii_of_nat 34) then Some ([], LStr EmptyString)
  else if Ascii.eqb c "t"%char then Some ([], LLit "rue" TTrue)
  else if Ascii.eqb c "f"%char then Some ([], LLit "alse" TFalse)
  else if Ascii.eqb c "n"%char then Some ([], LLit "ull" TNull)
  else if Ascii.eqb c "-"%char then
    Some ([], LNum (mkNumState PMinus true 0 0 false 0))
  else match digitVal c with
       | Some d =>
           Some ([], LNum (mkNumState (if N.eqb d 0 then PZero else PInt)
                             false d 0 false 0))
       | None => None
       end.

(** A code unit after a backslash inside a string. *)
Definition escapeStep (acc : string) (c : ascii) : option LexState :=
  let put n := Some (LStr (String (ascii_of_nat n) acc)) in
  if Ascii.eqb c (ascii_of_nat 34) then put 34
  else if Ascii.eqb c (ascii_of_nat 92) then put 92
  else if Ascii.eqb c "/"%char then put 47
  else if Ascii.eqb c "b"%char then put 8
  else if Ascii.eqb c "f"%char then put 12
  else if Ascii.eqb c "n"%char then put 10
  else if Ascii.eqb c "r"%char then put 13
  else if Ascii.eqb c "t"%char then put 9
  else if Ascii.eqb c "u"%char then Some (LUni acc 4 0%N)
  else None.

(** One step of the lexer: the tokens completed by [c] and the next
    state.  A [\u] escape above code unit 255 lies outside the
    modelled strings and is refused. *)
Definition step (st : LexState) (c : ascii) : option (list token * LexState) :=
  match st with
  | LStart => startStep c
  | LLit remaining tok =>
      match remaining with
      | String r rest =>
          if Ascii.eqb c r then
            match rest with
            | EmptyString => Some ([tok], LStart)
            | String _ _ => Some ([], LLit rest tok)
            end
          else None
      | EmptyString => None
      end
  | LStr acc =>
      if Ascii.eqb c (ascii_of_nat 34) then Some ([TStr (rev acc)], LStart)
      else if Ascii.eqb c (ascii_of_nat 92) then Some ([], LEsc acc)
      else if (nat_of_ascii c <? 32)%nat then None
      else Some ([], LStr (String c acc))
  | LEsc acc =>
      match escapeStep acc c with
      | Some st' => Some ([], st')
      | None => None
      end
  | LUni acc remain val =>
      match hexVal c with
      | Some h =>
          let val' := (val * 16 + h)%N in
          match remain with
          | 1%nat =>
              if (val' <? 256)%N
              then Some ([], LStr (String (ascii_of_N val') acc))
              else None
          | _ => Some ([], LUni acc (pred remain) val')
          end
      | None => None
      end
  | LNum ns =>
      match numStep ns c with
      | Some ns' => Some ([], LNum ns')
      | None =>
          if accepting ns then
            match startStep c with
            | Some (emitted, st') => Some (TNum (numValue ns) :: emitted, st')
            | None => None
            end
          else None
      end
  end.

(** At the end of the text. *)
Definition finish (st : LexState) : option (list token) :=
  match st with
  | LStart => Some []
  | LNum ns => if accepting ns then Some [TNum (numValue ns)] else None
  | _ => None
  end.

Fixpoint lex (st : LexState) (s : string) : option (list token) :=
  match s with
  | EmptyString => finish st
  | String c rest =>
      match step st c with
      | Some (emitted, st') =>
          match lex st' rest with
          | Some toks => Some (emitted ++ toks)%list
          | None => None
          end
      | None => None
      end
  end.

(** Syntax analysis: a push-down automaton over the tokens. *)
Inductive Frame : Type :=
  | FArr (revItems : list JSON)
  | FObj (revMembers : list (string * JSON)) (key : string).

Inductive Expect : Type :=
  | EValue        (* a value *)
  | EValueOrEnd   (* just after [: a value or ] *)
  | EKeyOrEnd     (* just after { : a key or } *)
  | EKey          (* after a comma in an object: a key *)
  | EColon        (* after a key *)
  | ECommaOrEnd   (* after a value inside an array or object *)
  | EDone (v : JSON).

(** A completed value goes to the enclosing frame, or ends the text. *)
Definition deliver (v : JSON) (stack : list Frame) : Expect * list Frame :=
  match stack with
  | [] => (EDone v, [])
  | FArr items :: below => (ECommaOrEnd, FArr (v :: items) :: below)
  | FObj ms key :: below => (ECommaOrEnd, FObj ((key, v) :: ms) key :: below)
  end.

Definition scalarOf (t : token) : option JSON :=
  match t with
  | TTrue => Some (JBool true)
  | TFalse => Some (JBool false)
  | TNull => Some JNull
  | TNum d => Some (JNumber d)
  | TStr s => Some (JString s)
  | _ => None
  end.

Definition parseStep (e : Expect) (stack : list Frame) (t : token)
  : option (Expect * list Frame) :=
  match e with
  | EValue | EValueOrEnd =>
      match t with
      | TLBracket => Some (EValueOrEnd, FArr [] :: stack)
      | TLBrace => Some (EKeyOrEnd, FObj [] EmptyString :: stack)
      | TRBracket =>
          match e, stack with
          | EValueOrEnd, FArr items :: below =>
              Some (deliver (JArray (List.rev items)) below)
          | _, _ => None
          end
      | _ =>
          match scalarOf t with
          | Some v => Some (deliver v stack)
          | None => None
          end
      end
  | EKeyOrEnd | EKey =>
      match t, stack with
      | TStr k, FObj ms _ :: below => Some (EColon, FObj ms k :: below)
      | TRBrace, FObj ms _ :: below =>
          match e with
          | EKeyOrEnd => Some (deliver (JObject (List.rev ms)) below)
          | _ => None
          end
      | _, _ => None
      end
  | EColon =>
      match t with
      | TColon => Some (EValue, stack)
      | _ => None
      end
  | ECommaOrEnd =>
      match t, stack with
      | TComma, FArr _ :: _ => Some (EValue, stack)
      | TComma, FObj _ _ :: _ => Some (EKey, stack)
      | TRBracket, FArr items :: below =>
          Some (deliver (JArray (List.rev items)) below)
      | TRBrace, FObj ms _ :: below =>
          Some (deliver (JObject (List.rev ms)) below)
      | _, _ => None
      end
  | EDone _ => None
  end.

Fixpoint parseTokens (e : Expect) (stack : list Frame) (toks : list token)
  : option JSON :=
  match toks with
  | [] => match e with EDone v => Some v | _ => None end
  | t :: rest =>
      match parseStep e stack t with
      | Some (e', stack') => parseTokens e' stack' rest
      | None => None
      end
  end.

(** [JSON.parse(text)]; [None] stands for the [SyntaxError]. *)
Definition parse (text : string) : option JSON :=
  match lex LStart text with
  | Some toks => parseTokens EValue [] toks
  | None => None
  end.

End Json.

(** ** The JavaScript host and the run monad *)

(** What the embedding takes from the host: the outside world the vendors
    answer from, [Number::toString], [JSON.stringify(v, null, 2)], the
    identifier [Math.random().toString(36).substr(2, 9)] and [Date.now()]. *)
Class Host : Type := {
  World : Type;
  NumberToString : Decimal -> string;
  JSON_stringify : JSON -> string;
  randomId : World -> string * World;
  dateNow : World -> Z * World
}.

(** A thrown value: an [Error] instance with its [name] and [message], or
    any other value, kept as [String(value)]. *)
Inductive JSError : Type :=
  | ErrorObject (name message : string)
  | ThrownValue (text : string).

Definition newError (message : string) : JSError := ErrorObject "Error" message.
Definition newTypeError (message : string) : JSError :=
  ErrorObject "TypeError" message.

(** [error instanceof Error ? error.message : String(error)] *)
Definition errorMessage (e : JSError) : string :=
  match e with
  | ErrorObject _ message => message
  | ThrownValue text => text
  end.

(** [String(error)], through [Error.prototype.toString] for an instance. *)
Definition errorToString (e : JSError) : string :=
  match e with
  | ErrorObject name message =>
      if JsString.nonEmpty name then
        if JsString.nonEmpty message then name ++ ": " ++ message else name
      else message
  | ThrownValue text => text
  end.

Inductive Outcome (A : Type) : Type :=
  | Ok (a : A)
  | Throw (e : JSError).
Arguments Ok {A} a.
Arguments Throw {A} e.

Inductive ResponseFormat : Type := FormatText | FormatJson.

Record GenerateOptions : Type := mkGenerateOptions {
  systemPrompt : option string;
  temperature : option Decimal;
  maxTokens : option Z;
  responseFormat : option ResponseFormat
}.

Inductive ContentPart : Type :=
  | TextPart (text : string)
  | InlineDataPart (mimeType data : string)
  | FileDataPart (mimeType fileUri : string).

(** [string | ContentPart[]] *)
Inductive Prompt : Type :=
  | PromptText (text : string)
  | PromptParts (parts : list ContentPart).

(** What a run does to the outside: a [generateText] call on a vendor, or
    the back-off [setTimeout]. *)
Inductive Event : Type :=
  | EvGenerate (vendor : ModelProvider) (prompt : Prompt)
      (options : option GenerateOptions)
  | EvSleep (ms : Z).

Definition isGenerate (e : Event) : bool :=
  match e with EvGenerate _ _ _ => true | EvSleep _ => false end.

(** The number of [generateText] attempts in a list of events. *)
Definition attempts (evs : list Event) : nat :=
  List.length (filter isGenerate evs).

(** The vendors called, in order. *)
Fixpoint vendorsCalled (evs : list Event) : list ModelProvider :=
  match evs with
  | [] => []
  | EvGenerate p _ _ :: rest => p :: vendorsCalled rest
  | EvSleep _ :: rest => vendorsCalled rest
  end.

Inductive AgentRole : Type :=
  | ARCHITECT | WRITER | VISIONARY | CRITIC | INTEGRATOR | PROJECT_MANAGER
  | SYNTHESIZER | EDITOR | CONSISTENCY_CHECKER.

Definition AgentRole_value (r : AgentRole) : string :=
  match r with
  | ARCHITECT => "ARCHITECT" | WRITER => "WRITER"
  | VISIONARY => "VISIONARY" | CRITIC => "CRITIC"
  | INTEGRATOR => "INTEGRATOR" | PROJECT_MANAGER => "PROJECT_MANAGER"
  | SYNTHESIZER => "SYNTHESIZER" | EDITOR => "EDITOR"
  | CONSISTENCY_CHECKER => "CONSISTENCY_CHECKER"
  end.

Inductive LogStatus : Type :=
  | thinking | working | success | failed | warning.

Definition LogStatus_eqb (a b : LogStatus) : bool :=
  match a, b with
  | thinking, thinking | working, working | success, success
  | failed, failed | warning, warning => true
  | _, _ => false
  end.

(** [AgentLog].  The [agent] and [metadata] fields hold whatever value the
    workflow passes, which for a generated plan is not always of the
    declared type. *)
Record AgentLog : Type := mkAgentLog {
  logId : string;
  timestamp : Z;
  agent : JSValue;
  message : string;
  metadata : JSValue;
  status : LogStatus;
  logModelUsed : option string
}.

Section Run.
Context `{H : Host}.

Record RunState : Type := mkRunState {
  world : World;
  events : list Event;
  logs : list AgentLog
}.

(** Computations that read and change the run state and may throw. *)
Definition M (A : Type) : Type := RunState -> Outcome A * RunState.

Definition ret {A} (a : A) : M A := fun st => (Ok a, st).

Definition throw {A} (e : JSError) : M A := fun st => (Throw e, st).

Definition bind {A B} (m : M A) (k : A -> M B) : M B :=
  fun st =>
    match m st with
    | (Ok a, st') => k a st'
    | (Throw e, st') => (Throw e, st')
    end.


(** A step on the outside world that cannot throw. *)
Definition liftWorld {A} (f : World -> A * World) : M A :=
  fun st =>
    let (a, w) := f (world st) in
    (Ok a, mkRunState w (events st) (logs st)).

Definition record (e : Event) : M unit :=
  fun st => (Ok tt, mkRunState (world st) (events st ++ [e]) (logs st)).

(** [onLog(entry)] *)
Definition onLog (entry : AgentLog) : M unit :=
  fun st => (Ok tt, mkRunState (world st) (events st) (logs st ++ [entry])).

(** [await new Promise(r => setTimeout(r, ms))] *)
Definition sleep (ms : Z) : M unit := record (EvSleep ms).

End Run.

Declare Scope run_scope.
Delimit Scope run_scope with run.
Notation "x <- m ;; k" := (bind m (fun x => k))
  (at level 100, m at next level, right associativity) : run_scope.
Notation "m ;;; k" := (bind m (fun _ => k))
  (at level 100, right associativity) : run_scope.

(** ** The provider registry and the task router ([modelRegistry.ts]) *)

Section Registry.
Context `{H : Host}.
Open Scope run_scope.

(** The [AIProvider] interface.  [isConfigured] tests a credential fixed at
    construction; [generateText] and [checkAvailability] go to the
    network. *)
Record AIProvider : Type := mkAIProvider {
  name : ModelProvider;
  vendorDisplayName : string;
  isConfigured : bool;
  generateText : Prompt -> option GenerateOptions -> World -> Outcome string * World;
  checkAvailability : World -> bool * World
}.

(** The module state: the mutable table [MODEL_REGISTRY] and the map
    [providerInstances], in insertion order with one entry per key. *)
Record Registry : Type := mkRegistry {
  models : list ModelConfig;
  providerInstances : list (ModelProvider * AIProvider)
}.

(** [Map.prototype.set]: an existing key keeps its place. *)
Fixpoint mapSet (key : ModelProvider) (value : AIProvider)
    (entries : list (ModelProvider * AIProvider)) : list (ModelProvider * AIProvider) :=
  match entries with
  | [] => [(key, value)]
  | (k, v) :: rest =>
      if ModelProvider_eqb k key then (key, value) :: rest
      else (k, v) :: mapSet key value rest
  end.

Fixpoint mapGet (key : ModelProvider)
    (entries : list (ModelProvider * AIProvider)) : option AIProvider :=
  match entries with
  | [] => None
  | (k, v) :: rest => if ModelProvider_eqb k key then Some v else mapGet key rest
  end.

Definition registerProvider (p : AIProvider) (reg : Registry) : Registry :=
  mkRegistry (models reg) (mapSet (name p) p (providerInstances reg)).

Definition getProvider (reg : Registry) (key : ModelProvider) : option AIProvider :=
  mapGet key (providerInstances reg).

Definition getAvailableProviders (reg : Registry) : list ModelProvider :=
  map fst (filter (fun entry => isConfigured (snd entry)) (providerInstances reg)).

(** [MODEL_REGISTRY.forEach(model => { if (model.provider === provider)
    model.isAvailable = isAvailable; })] *)
Definition setAvailability (p : ModelProvider) (flag : bool) (model : ModelConfig)
  : ModelConfig :=
  if ModelProvider_eqb (provider model) p
  then mkModelConfig (provider model) (modelId model) (displayName model)
         (description model) (strengths model) flag
  else model.

Definition updateModelAvailability (p : ModelProvider) (flag : bool)
    (reg : Registry) : Registry :=
  mkRegistry (map (setAvailability p flag) (models reg)) (providerInstances reg).

Definition getModelsByProvider (reg : Registry) (p : ModelProvider) : list ModelConfig :=
  filter (fun m => ModelProvider_eqb (provider m) p) (models reg).

(** [await provider.generateText(prompt, options)] *)
Definition callGenerateText (p : AIProvider) (prompt : Prompt)
    (options : option GenerateOptions) : M string :=
  fun st =>
    let (result, w) := generateText p prompt options (world st) in
    (result,
     mkRunState w (events st ++ [EvGenerate (name p) prompt options]) (logs st)).

Record BestModelResult : Type := mkBestModelResult {
  bestText : string;
  modelUsed : string
}.

Definition noProvidersMessage : string :=
  "No AI providers configured. Please add API keys to .env.local".

(** The choice of [targetProvider]. *)
Definition chooseTarget (reg : Registry) (available : list ModelProvider)
    (taskType : TaskType) (preferredProvider : option ModelProvider)
  : M ModelProvider :=
  let viaRouter :=
    match selectBestModel (models reg) taskType available with
    | None =>
        throw (newError ("No suitable model found for task: " ++
                         TaskType_value taskType))
    | Some bestModel => ret (provider bestModel)
    end in
  match preferredProvider with
  | Some preferred =>
      if includesProvider available preferred then ret preferred else viaRouter
  | None => viaRouter
  end.

(** [generateWithBestModel(prompt, taskType, options, preferredProvider)] *)
Definition generateWithBestModel (reg : Registry) (prompt : Prompt)
    (taskType : TaskType) (options : option GenerateOptions)
    (preferredProvider : option ModelProvider) : M BestModelResult :=
  let available := getAvailableProviders reg in
  match available with
  | [] => throw (newError noProvidersMessage)
  | _ :: _ =>
      targetProvider <- chooseTarget reg available taskType preferredProvider ;;
      match getProvider reg targetProvider with
      | None =>
          throw (newError ("Provider " ++ ModelProvider_value targetProvider ++
                           " not initialized"))
      | Some p =>
          text <- callGenerateText p prompt options ;;
          let model :=
            find (fun m => ModelProvider_eqb (provider m) targetProvider)
              (models reg) in
          ret (mkBestModelResult text
                 match model with
                 | Some m =>
                     if JsString.nonEmpty (displayName m) then displayName m
                     else ModelProvider_value targetProvider
                 | None => ModelProvider_value targetProvider
                 end)
      end
  end.

End Registry.

(** ** The agent orchestrator: tolerant parsing and the fallback facade *)

Import JsString.

(** The text [safeParseJSON] hands to [JSON.parse]:
    [text.replace(/^```json\s*/, '').replace(/^```\s*/, '')
         .replace(/\s*```$/, '').trim()] *)
Definition cleanText (text : string) : string :=
  trim (stripSpaceSuffix fence
          (stripPrefixSpace fence
             (stripPrefixSpace (fence ++ "json") text))).

(** [safeParseJSON(text, fallback)]: the empty text and a [SyntaxError]
    both give the fallback. *)
Definition safeParseJSON (text : string) (fallback : JSON) : JSON :=
  if negb (nonEmpty text) then fallback
  else match Json.parse (cleanText text) with
       | Some value => value
       | None => fallback
       end.


Definition ARCHITECT_PROMPT : string :=
  "
You are the Architect Agent.
Analyze the request and create a structured plan.
Break it down into specific Writer tasks (e.g., Chapters, Sections).

OUTPUT: JSON with a list of tasks.
{
  " ++ dq ++ "tasks" ++ dq ++ ": [
    {
      " ++ dq ++ "role" ++ dq ++ ": " ++ dq ++ "WRITER" ++ dq ++ ",
      " ++ dq ++ "description" ++ dq ++ ": " ++ dq ++ "Write Chapter 1: The Beginning..." ++ dq ++ ",
      " ++ dq ++ "context_script" ++ dq ++ ": " ++ dq ++ "Focus on introducing the protagonist..." ++ dq ++ ",
      " ++ dq ++ "title" ++ dq ++ ": " ++ dq ++ "Chapter 1" ++ dq ++ "
    }
  ]
}

IMPORTANT: Return raw JSON only.
".

Definition WRITER_PROMPT : string :=
  "
You are the Writer Agent.
Write high-quality creative content based on the Task and Context provided.
Use the Character and World context to ensure consistency.

OUTPUT: JSON with content.
{
  " ++ dq ++ "content" ++ dq ++ ": " ++ dq ++ "The generated story text..." ++ dq ++ ",
  " ++ dq ++ "helper_script" ++ dq ++ ": " ++ dq ++ "Notes on tone/pacing used." ++ dq ++ "
}

IMPORTANT: 
- Return raw JSON only. 
- Write substantial content (at least 3-5 paragraphs for chapters).
- Use proper markdown formatting in content.
- Ensure all newlines in 'content' are escaped (use \n, not literal line breaks).
".

Definition VISIONARY_PROMPT : string :=
  "
You are the Visionary Agent. 
Generate a comprehensive Visual & Tonal Style Guide for the project.
OUTPUT: JSON with style_guide and sensory_palette.
{
  " ++ dq ++ "style_guide" ++ dq ++ ": " ++ dq ++ "Description of the visual and narrative style..." ++ dq ++ ",
  " ++ dq ++ "sensory_palette" ++ dq ++ ": " ++ dq ++ "Key colors, sounds, and textures to define the mood..." ++ dq ++ "
}
IMPORTANT: Return raw JSON only.
".

Definition CRITIC_PROMPT : string :=
  "
You are a Literary Critic.
Review the provided story text for quality, flow, and impact.
Identify 3-5 specific areas for improvement.
Output { " ++ dq ++ "approved" ++ dq ++ ": true, " ++ dq ++ "critique" ++ dq ++ ": " ++ dq ++ "Brief feedback..." ++ dq ++ " }.

IMPORTANT: Return raw JSON only.
".

Definition CONSISTENCY_PROMPT : string :=
  "
You are a Continuity Editor.
Your ONLY job is to verify that the story content aligns with the World Blueprint.

BLUEPRINT:
{WORLD_CONTEXT}

STORY CONTENT:
{CONTENT}

TASK:
1. Check for character trait contradictions.
2. Check for location details consistency.
3. Check for item usage accuracy.

OUTPUT: JSON with status and issues.
{
  " ++ dq ++ "status" ++ dq ++ ": " ++ dq ++ "pass" ++ dq ++ " | " ++ dq ++ "fail" ++ dq ++ ",
  " ++ dq ++ "issues" ++ dq ++ ": [" ++ dq ++ "Issue 1" ++ dq ++ ", " ++ dq ++ "Issue 2" ++ dq ++ "]
}
IMPORTANT: Return raw JSON only.
".

Section Fallback.
Context `{H : Host}.
Open Scope run_scope.

Record FallbackResult : Type := mkFallbackResult {
  text : string;
  providerName : ModelProvider
}.

(** [tryOrderSet.add(p)]: a [Set] keeps first-seen order. *)
Definition setAdd (order : list ModelProvider) (p : ModelProvider)
  : list ModelProvider :=
  if includesProvider order p then order else (order ++ [p])%list.

(** The try order: the preferred vendors that are available, then every
    available vendor, without duplicates. *)
Definition tryOrderOf (preferredProviders : option (list ModelProvider))
    (available : list ModelProvider) : list ModelProvider :=
  let preferredFirst :=
    match preferredProviders with
    | Some preferred =>
        fold_left setAdd (filter (includesProvider available) preferred) []
    | None => []
    end in
  fold_left setAdd available preferredFirst.

(** [errMsg.includes('overload') || errMsg.includes('429') ||
    errMsg.includes('rate')] *)
Definition isRateLimited (errMsg : string) : bool :=
  includes "overload" errMsg || includes "429" errMsg || includes "rate" errMsg.

(** The inner loop [for (attempt = 1; attempt <= 2; attempt++)], entered
    with [remaining = 2].  The result is the success, if any, and the
    [errors] array. *)
Fixpoint attemptLoop (p : AIProvider) (key : ModelProvider) (prompt : string)
    (options : option GenerateOptions) (remaining : nat) (errors : list string)
  : M (option FallbackResult * list string) :=
  match remaining with
  | O => ret (None, errors)
  | S remaining' =>
      fun st =>
        match callGenerateText p (PromptText prompt) options st with
        | (Ok answer, st') =>
            if nonEmpty answer && nonEmpty (trim answer)
            then (Ok (Some (mkFallbackResult answer key), errors), st')
            else attemptLoop p key prompt options remaining' errors st'
        | (Throw e, st') =>
            let errMsg := errorMessage e in
            let errors' :=
              (errors ++ [(ModelProvider_value key ++ ": " ++ errMsg)%string])%list in
            ((if isRateLimited errMsg then sleep 1000 else ret tt) ;;;
             attemptLoop p key prompt options remaining' errors') st'
        end
  end.

(** The outer loop [for (const providerName of tryOrder)]; a vendor missing
    from the map is passed over. *)
Fixpoint tryProviders (reg : Registry) (prompt : string)
    (options : option GenerateOptions) (tryOrder : list ModelProvider)
    (errors : list string) : M (option FallbackResult * list string) :=
  match tryOrder with
  | [] => ret (None, errors)
  | key :: rest =>
      match getProvider reg key with
      | None => tryProviders reg prompt options rest errors
      | Some p =>
          r <- attemptLoop p key prompt options 2 errors ;;
          match r with
          | (Some result, _) => ret r
          | (None, errors') => tryProviders reg prompt options rest errors'
          end
      end
  end.

(** [generateWithFallback(prompt, options, preferredProviders)] *)
Definition generateWithFallback (reg : Registry) (prompt : string)
    (options : option GenerateOptions)
    (preferredProviders : option (list ModelProvider)) : M FallbackResult :=
  let available := getAvailableProviders reg in
  match available with
  | [] => throw (newError noProvidersMessage)
  | _ :: _ =>
      r <- tryProviders reg prompt options
             (tryOrderOf preferredProviders available) [] ;;
      match r with
      | (Some result, _) => ret result
      | (None, errors) =>
          throw (newError ("All providers failed:" ++ nl ++ join nl errors))
      end
  end.

End Fallback.

(** ** Projects, blueprints and content blocks ([types.ts]) *)

Inductive BlockType : Type :=
  | TEXT | IMAGE | NOTE | CHAPTER | PLAN | ARTIFACT.

Definition BlockType_value (t : BlockType) : string :=
  match t with
  | TEXT => "text" | IMAGE => "image" | NOTE => "note"
  | CHAPTER => "chapter" | PLAN => "plan" | ARTIFACT => "artifact"
  end.


Inductive BlockStatus : Type :=
  | DRAFT | PENDING_REVIEW | APPROVED | NEEDS_REVISION.

Module RevisionEntry.
Record t : Type := mk {
  id : string;
  content : string;
  timestamp : Z;
  feedback : option string
}.
End RevisionEntry.

(** The [metadata] of a block.  [prompt] and [title] receive the task's
    [description] and [title] as they are. *)
Module BlockMetadata.
Record t : Type := mk {
  prompt : JSValue;
  style : option string;
  lastEdited : option Z;
  agentSignature : option string;
  modelUsed : option string;
  chapterNumber : option Z;
  title : JSValue
}.
End BlockMetadata.

Module ContentBlock.
Record t : Type := mk {
  id : string;
  type : BlockType;
  content : string;
  status : BlockStatus;
  revisionHistory : list RevisionEntry.t;
  metadata : option BlockMetadata.t
}.
End ContentBlock.

Inductive SectionType : Type := SectionChapter | SectionScene.

Definition SectionType_value (t : SectionType) : string :=
  match t with SectionChapter => "chapter" | SectionScene => "scene" end.

Module BlueprintSection.
Record t : Type := mk {
  id : string;
  title : string;
  description : string;
  type : SectionType
}.
End BlueprintSection.

Module CharacterProfile.
Record t : Type := mk {
  id : string;
  name : string;
  role : string;
  description : string;
  traits : list string
}.
End CharacterProfile.

Module Location.
Record t : Type := mk {
  id : string;
  name : string;
  description : string;
  sensoryDetails : string
}.
End Location.

Module Item.
Record t : Type := mk {
  id : string;
  name : string;
  description : string;
  usage : string
}.
End Item.

Module Blueprint.
Record t : Type := mk {
  title : string;
  description : string;
  genre : option string;
  tone : option string;
  targetAudience : option string;
  sections : list BlueprintSection.t;
  characters : list CharacterProfile.t;
  locations : option (list Location.t);
  items : option (list Item.t);
  personaId : option string
}.
End Blueprint.

Inductive WorkflowPhase : Type :=
  | INPUT_GATHERING | SYNTHESIS | PLANNING | EXECUTION | REVIEW | COMPLETE.

Module BookMetadata.
Record t : Type := mk {
  author : option string;
  genre : option string;
  targetAudience : option string;
  tone : option string
}.
End BookMetadata.

Module ProjectSettings.
Record t : Type := mk {
  preferredProvider : option ModelProvider;
  autoSelectModel : bool;
  bookMetadata : option BookMetadata.t
}.
End ProjectSettings.

Module Project.
Record t : Type := mk {
  id : string;
  title : string;
  description : string;
  blocks : list ContentBlock.t;
  lastModified : Z;
  settings : ProjectSettings.t;
  workflowPhase : WorkflowPhase;
  blueprint : option Blueprint.t
}.
End Project.

Module AgentPersona.
Record t : Type := mk {
  id : string;
  name : string;
  description : string;
  systemPromptModifier : string
}.
End AgentPersona.

Definition AGENT_PERSONAS : list AgentPersona.t :=
  [
    AgentPersona.mk "standard_vibe" "Standard Vibe"
      "Balanced, engaging, and versatile. The default Vibe Studio style."
      "Adopt a balanced, engaging storytelling style. Focus on clarity and pacing.";
    AgentPersona.mk "fantasy_worldbuilder" "Fantasy Worldbuilder"
      "Rich, descriptive, and immersive. Focuses on lore and magic systems."
      "You are a High Fantasy Novelist. Use rich, archaic vocabulary. Focus deeply on sensory details, world-building elements, and the grandeur of the setting. Describe magic and supernatural elements with awe and specificity.";
    AgentPersona.mk "noir_detective" "Noir Detective"
      "Gritty, cynical, and atmospheric. Short sentences and internal monologues."
      "You are a Crime Noir Author. Write in a gritty, cynical tone. Use short, punchy sentences. Focus on shadows, moral ambiguity, and the psychological state of the protagonist. Use metaphors related to urban decay.";
    AgentPersona.mk "scifi_futurist" "Sci-Fi Futurist"
      "Technical, speculative, and precise. Focuses on technology and societal impact."
      "You are a Hard Sci-Fi Author. Focus on technological plausibility, scientific concepts, and the societal impact of innovation. Use precise terminology. Describe the environment with a focus on functionality and futuristic aesthetics.";
    AgentPersona.mk "romance_poet" "Romance Poet"
      "Emotional, sensory, and intimate. Focuses on relationships and feelings."
      "You are a Contemporary Romance Author. Focus deeply on emotional resonance, physical chemistry, and internal longing. Use evocative, sensory language to describe interactions. Prioritize character relationships and emotional arcs.";
    AgentPersona.mk "horror_maestro" "Horror Maestro"
      "Tense, unsettling, and visceral. Focuses on fear and suspense."
      "You are a Horror Author. Build tension slowly. Focus on the uncanny, the visceral, and the psychology of fear. Use sensory details that evoke disgust or dread. Pacing should be deliberate, leading to sudden shocks.";
    AgentPersona.mk "young_adult" "YA Voice"
      "Voice-y, urgent, and relatable. Focuses on identity and coming-of-age."
      "You are a Young Adult Author. Write with a strong, immediate voice and high energy. Focus on identity, belonging, and intense emotions. Accessibility and pacing are key. Capture the specific angst and wonder of the teenage experience." ].

(** [AGENT_PERSONAS[0]] *)
Definition firstPersona : AgentPersona.t :=
  match AGENT_PERSONAS with
  | p :: _ => p
  | [] => AgentPersona.mk "" "" "" ""
  end.

(** [AGENT_PERSONAS.find(p => p.id === id) || AGENT_PERSONAS[0]] *)
Definition getPersonaById (id : option string) : AgentPersona.t :=
  match id with
  | Some i =>
      match find (fun p => String.eqb (AgentPersona.id p) i) AGENT_PERSONAS with
      | Some p => p
      | None => firstPersona
      end
  | None => firstPersona
  end.

(** ** The agent workflow ([runMultiAgentWorkflow]) *)

Section Workflow.
Context `{H : Host}.
Open Scope run_scope.

(** [String(v)] and template interpolation of a JSON value. *)
Fixpoint jsonToString (v : JSON) : string :=
  match v with
  | JNull => "null"
  | JBool true => "true"
  | JBool false => "false"
  | JNumber d => NumberToString d
  | JString s => s
  | JArray items =>
      join ","
        (map (fun x => match x with JNull => "" | _ => jsonToString x end) items)
  | JObject _ => "[object Object]"
  end.

Definition ToString (v : JSValue) : string :=
  match v with
  | None => "undefined"
  | Some j => jsonToString j
  end.

(** [items.join(sep)]: a [null] element contributes the empty string. *)
Definition arrayJoin (sep : string) (items : list JSON) : string :=
  join sep (map (fun x => match x with JNull => "" | _ => jsonToString x end) items).

(** [v.key] on a parsed value.  Reading from [null] throws; none of the
    names the workflow reads is a property of a string, number, boolean or
    array, so those give [undefined]. *)
Definition getProp (v : JSON) (key : string) : M JSValue :=
  match v with
  | JNull =>
      throw (newTypeError
               ("Cannot read properties of null (reading '" ++ key ++ "')"))
  | JObject members => ret (Json.lookup key members)
  | _ => ret undefined
  end.

Definition roleValue (r : AgentRole) : JSValue := Some (JString (AgentRole_value r)).

(** The local [log] helper of the workflow. *)
Definition log (agent : JSValue) (message : string) (metadata : JSValue)
    (status : LogStatus) (modelUsed : option string) : M unit :=
  id <- liftWorld randomId ;;
  now <- liftWorld dateNow ;;
  onLog (mkAgentLog id now agent message metadata status modelUsed).

(** [await Promise.all([a, b])] for the fixed pair: both are started, so
    both run; they are run left then right, and the rejection reported is
    the left one's when both reject. *)
Definition promiseAll2 {A B} (a : M A) (b : M B) : M (A * B) :=
  fun st =>
    let (ra, st1) := a st in
    let (rb, st2) := b st1 in
    match ra, rb with
    | Ok x, Ok y => (Ok (x, y), st2)
    | Throw e, _ => (Throw e, st2)
    | Ok _, Throw e => (Throw e, st2)
    end.

Definition jsonOptions (systemPrompt : string) : option GenerateOptions :=
  Some (mkGenerateOptions (Some systemPrompt) None None (Some FormatJson)).

(** [`${x}`] for an optional string field. *)
Definition optionalToString (x : option string) : string :=
  match x with Some s => s | None => "undefined" end.

Definition natToString (n : nat) : string :=
  NilEmpty.string_of_uint (Nat.to_uint n).

(** *** Planning *)

(** The task derived from one chapter section of the blueprint. *)
Definition blueprintTask (bp : Blueprint.t) (s : BlueprintSection.t) : JSON :=
  JObject
    [ ("role", JString "WRITER");
      ("description",
       JString ("Write " ++ BlueprintSection.title s ++ ". " ++
                BlueprintSection.description s));
      ("context_script",
       JString ("Genre: " ++ optionalToString (Blueprint.genre bp) ++
                ", Tone: " ++ optionalToString (Blueprint.tone bp) ++
                ". Structure this as a " ++
                SectionType_value (BlueprintSection.type s) ++ "."));
      ("title", JString (BlueprintSection.title s)) ].

Definition isChapterSection (s : BlueprintSection.t) : bool :=
  match BlueprintSection.type s with
  | SectionChapter => true
  | SectionScene => false
  end.

(** [project.blueprint.sections.filter(s => s.type === 'chapter').map(...)] *)
Definition blueprintTasks (bp : Blueprint.t) : list JSON :=
  map (blueprintTask bp) (filter isChapterSection (Blueprint.sections bp)).

(** [`Tone: ${project.blueprint?.tone || 'Standard'}`] *)
Definition blueprintStyle (bp : Blueprint.t) : string :=
  "Tone: " ++
  match Blueprint.tone bp with
  | Some t => if nonEmpty t then t else "Standard"
  | None => "Standard"
  end.

(** How the planning phase ends: with the early [return []], or with the
    plan's tasks and the style context. *)
Inductive Planned : Type :=
  | EarlyReturn
  | Plan (tasks : list JSON) (styleContext : string).

Definition contextSummary (blocks : list ContentBlock.t) : string :=
  join nl
    (map (fun b => "[" ++ BlockType_value (ContentBlock.type b) ++ "] " ++
                   take 50 (ContentBlock.content b) ++ "...")
       blocks).

(** Planning without a blueprint: the architect and the visionary calls,
    then the plan check. *)
Definition dynamicPlanning (reg : Registry) (userRequest : string)
    (project : Project.t) : M Planned :=
  log (roleValue PROJECT_MANAGER) "Initiating Parallel Planning Phase..."
    undefined thinking None ;;;
  let basePrompt :=
    "Current Project Context:" ++ nl ++ contextSummary (Project.blocks project) ++
    nl ++ nl ++ "User Request: " ++ userRequest in
  log (roleValue ARCHITECT) "Structuring narrative arc..." undefined thinking None ;;;
  log (roleValue VISIONARY) "Defining stylistic palette..." undefined thinking None ;;;
  results <- promiseAll2
    (generateWithFallback reg basePrompt (jsonOptions ARCHITECT_PROMPT)
       (Some [DEEPSEEK; GEMINI; MISTRAL]))
    (generateWithFallback reg basePrompt (jsonOptions VISIONARY_PROMPT)
       (Some [GEMINI; GROQ; MISTRAL])) ;;
  let (architectResult, visionaryResult) := results in
  let plan := safeParseJSON (text architectResult)
                (JObject [("tasks", JArray [])]) in
  tasks <- getProp plan "tasks" ;;
  match tasks with
  | Some (JArray items) =>
      log (roleValue ARCHITECT)
        ("Plan created with " ++ natToString (List.length items) ++ " tasks.")
        (Some (JString (JSON_stringify (JArray items)))) success
        (Some (ModelProvider_value (providerName architectResult))) ;;;
      let visionaryData := safeParseJSON (text visionaryResult) (JObject []) in
      style_guide <- getProp visionaryData "style_guide" ;;
      sensory_palette <- getProp visionaryData "sensory_palette" ;;
      let styleContext :=
        "VISUAL STYLE: " ++ ToString style_guide ++ nl ++
        "SENSORY PALETTE: " ++ ToString sensory_palette in
      log (roleValue VISIONARY) "Style guide established."
        (Some (JString styleContext)) success
        (Some (ModelProvider_value (providerName visionaryResult))) ;;;
      ret (Plan items styleContext)
  | _ =>
      (* [!plan.tasks || !Array.isArray(plan.tasks)] *)
      log (roleValue ARCHITECT) "Failed to generate a valid plan." undefined
        failed None ;;;
      ret EarlyReturn
  end.

(** The planning phase; the plan comes from [project.blueprint] when the
    project has one. *)
Definition planningPhase (reg : Registry) (userRequest : string)
    (project : Project.t) : M Planned :=
  match Project.blueprint project with
  | Some bp =>
      log (roleValue ARCHITECT) "Using approved blueprint plan." undefined
        success None ;;;
      ret (Plan (blueprintTasks bp) (blueprintStyle bp))
  | None => dynamicPlanning reg userRequest project
  end.

(** *** Execution *)

Definition characterLine (c : CharacterProfile.t) : string :=
  "- " ++ CharacterProfile.name c ++ " (" ++ CharacterProfile.role c ++ "): " ++
  CharacterProfile.description c ++ " [Traits: " ++
  join ", " (CharacterProfile.traits c) ++ "]".

Definition characterContext (bp : option Blueprint.t) : string :=
  match bp with
  | Some b =>
      nl ++ nl ++ "CHARACTERS IN STORY:" ++ nl ++
      join nl (map characterLine (Blueprint.characters b))
  | None => ""
  end.

Definition locationLine (l : Location.t) : string :=
  "- " ++ Location.name l ++ ": " ++ Location.description l ++
  " [Sensory: " ++ Location.sensoryDetails l ++ "]".

Definition locationContext (bp : option Blueprint.t) : string :=
  match bp with
  | Some b =>
      match Blueprint.locations b with
      | Some (l :: rest) =>
          nl ++ nl ++ "KEY LOCATIONS:" ++ nl ++ join nl (map locationLine (l :: rest))
      | _ => ""
      end
  | None => ""
  end.

Definition itemLine (i : Item.t) : string :=
  "- " ++ Item.name i ++ ": " ++ Item.description i ++
  " [Usage: " ++ Item.usage i ++ "]".

Definition itemContext (bp : option Blueprint.t) : string :=
  match bp with
  | Some b =>
      match Blueprint.items b with
      | Some (i :: rest) =>
          nl ++ nl ++ "IMPORTANT ITEMS:" ++ nl ++ join nl (map itemLine (i :: rest))
      | _ => ""
      end
  | None => ""
  end.

Definition worldContext (bp : option Blueprint.t) : string :=
  locationContext bp ++ itemContext bp.

Definition writerSystemPrompt (persona : AgentPersona.t) : string :=
  if nonEmpty (AgentPersona.systemPromptModifier persona)
  then WRITER_PROMPT ++ nl ++ nl ++ "IMPORTANT - ADOPT THIS PERSONA:" ++ nl ++
       AgentPersona.systemPromptModifier persona
  else WRITER_PROMPT.

(** The prompt of the writer call for a task. *)
Definition writerPrompt (bp : option Blueprint.t) (styleContext : string)
    (description context_script : JSValue) : string :=
  let fullContext :=
    styleContext ++ nl ++ characterContext bp ++ worldContext bp ++ nl ++
    "Script: " ++ ToString context_script in
  "Task: " ++ ToString description ++ nl ++ fullContext.

(** The writer call. *)
Definition writerCall (reg : Registry) (bp : option Blueprint.t)
    (styleContext : string) (persona : AgentPersona.t)
    (description context_script : JSValue) : M FallbackResult :=
  generateWithFallback reg (writerPrompt bp styleContext description context_script)
    (jsonOptions (writerSystemPrompt persona))
    (Some [MISTRAL; DEEPSEEK; GEMINI; GROQ]).

(** [contentStr]: the [content] of the writer's output as a string. *)
Definition contentString (content : JSValue) : string :=
  match content with
  | Some (JString s) => s
  | Some (JArray items) => arrayJoin nl items
  | Some j => if Json.truthy content then jsonToString j else ""
  | None => ""
  end.

(** [contentStr] for the text a writer call returned. *)
Definition writerContent (answer : string) : M string :=
  content <- getProp (safeParseJSON answer (JObject [("content", JString "")]))
               "content" ;;
  ret (contentString content).

Definition consistencySystemPrompt (bp : option Blueprint.t) (contentStr : string)
  : string :=
  replaceFirst "{CONTENT}" (take 1000 contentStr)
    (replaceFirst "{WORLD_CONTEXT}"
       (if nonEmpty (worldContext bp) then worldContext bp
        else "No specific world rules.")
       CONSISTENCY_PROMPT).

(** The critic and the consistency calls, jointly awaited. *)
Definition validationCalls (reg : Registry) (bp : option Blueprint.t)
    (description : JSValue) (contentStr : string)
  : M (FallbackResult * FallbackResult) :=
  promiseAll2
    (generateWithFallback reg
       ("Task: " ++ ToString description ++ nl ++ "Generated Content: " ++
        take 1000 contentStr ++ "...")
       (jsonOptions CRITIC_PROMPT) (Some [GROQ; GEMINI; DEEPSEEK]))
    (generateWithFallback reg (take 2000 contentStr)
       (jsonOptions (consistencySystemPrompt bp contentStr))
       (Some [GEMINI; DEEPSEEK])).

(** [consistency.issues?.join(', ')] *)
Definition issuesJoined (issues : JSValue) : M JSValue :=
  match issues with
  | None | Some JNull => ret undefined
  | Some (JArray items) => ret (Some (JString (arrayJoin ", " items)))
  | Some _ => throw (newTypeError "consistency.issues?.join is not a function")
  end.

(** [v === 'literal'] *)
Definition isString (literal : string) (v : JSValue) : bool :=
  match v with
  | Some (JString s) => String.eqb s literal
  | _ => false
  end.

(** The log entries for the two validation results. *)
Definition logValidation (criticResult consistencyResult : FallbackResult) : M unit :=
  let critiqueData := safeParseJSON (text criticResult) (JObject []) in
  let consistency := safeParseJSON (text consistencyResult) (JObject []) in
  approved <- getProp critiqueData "approved" ;;
  critiqueText <- getProp critiqueData "critique" ;;
  log (roleValue CRITIC)
    ("Quality: " ++ if Json.truthy approved then "Approved" else "Needs Polish")
    critiqueText success
    (Some (ModelProvider_value (providerName criticResult))) ;;;
  consistencyStatus <- getProp consistency "status" ;;
  if isString "fail" consistencyStatus then
    issues <- getProp consistency "issues" ;;
    joined <- issuesJoined issues ;;
    log (roleValue CONSISTENCY_CHECKER) "Consistency Issues Found" joined
      warning (Some (ModelProvider_value (providerName consistencyResult)))
  else
    log (roleValue CONSISTENCY_CHECKER) "World Consistency Verified" undefined
      success (Some (ModelProvider_value (providerName consistencyResult))).

(** [s.toLowerCase().includes('chapter')] *)
Definition mentionsChapter (s : string) : bool :=
  includes "chapter" (toLowerCase s).

(** [task.description.toLowerCase().includes('chapter') ||
    task.title?.toLowerCase().includes('chapter')]; a [description] that is
    not a string, or a [title] that is neither a string nor missing, has no
    [toLowerCase] to call. *)
Definition isChapterTask (description title : JSValue) : M bool :=
  match description with
  | Some (JString d) =>
      if mentionsChapter d then ret true
      else match title with
           | None | Some JNull => ret false
           | Some (JString t) => ret (mentionsChapter t)
           | Some _ =>
               throw (newTypeError "task.title?.toLowerCase is not a function")
           end
  | None =>
      throw (newTypeError
               "Cannot read properties of undefined (reading 'toLowerCase')")
  | Some JNull =>
      throw (newTypeError
               "Cannot read properties of null (reading 'toLowerCase')")
  | Some _ =>
      throw (newTypeError "task.description.toLowerCase is not a function")
  end.

(** The locals of the run that outlive the [try] block. *)
Record Locals : Type := mkLocals {
  newBlocks : list ContentBlock.t;
  chapterNumber : Z
}.

(** The block pushed for a task, and the counter after it. *)
Definition integrate (locals : Locals) (id : string) (isChapter : bool)
    (contentStr : string) (writerProvider : ModelProvider)
    (description title : JSValue) : Locals :=
  mkLocals
    (newBlocks locals ++
     [ContentBlock.mk id (if isChapter then CHAPTER else TEXT) contentStr DRAFT []
        (Some (BlockMetadata.mk description None None (Some "Writer Agent")
                 (Some (ModelProvider_value writerProvider))
                 (if isChapter then Some (chapterNumber locals) else None)
                 title))])%list
    (if isChapter then chapterNumber locals + 1 else chapterNumber locals)%Z.

(** The first half of the loop body for a task whose role is ['WRITER']:
    the writer call and the extraction of [contentStr].  It gives the
    writer's result, the parsed [output] and [contentStr]. *)
Definition writerDraft (reg : Registry) (bp : option Blueprint.t)
    (styleContext : string) (persona : AgentPersona.t) (task : JSON)
  : M (FallbackResult * JSON * string) :=
  description <- getProp task "description" ;;
  context_script <- getProp task "context_script" ;;
  writerResult <- writerCall reg bp styleContext persona description
                    context_script ;;
  let output := safeParseJSON (text writerResult)
                  (JObject [("content", JString "")]) in
  content <- getProp output "content" ;;
  ret (writerResult, output, contentString content).

(** The second half, for a non-empty [contentStr]: the validation pair,
    the classification, the push. *)
Definition finishDraft (reg : Registry) (bp : option Blueprint.t) (task : JSON)
    (writerResult : FallbackResult) (output : JSON) (contentStr : string)
    (locals : Locals) : M Locals :=
  description <- getProp task "description" ;;
  helper_script <- getProp output "helper_script" ;;
  log (roleValue WRITER) "Drafting content complete."
    (if Json.truthy helper_script then helper_script
     else Some (JString "No script provided"))
    success (Some (ModelProvider_value (providerName writerResult))) ;;;
  log (roleValue CRITIC) "Reviewing quality..." undefined thinking None ;;;
  log (roleValue CONSISTENCY_CHECKER) "Verifying world facts..." undefined
    thinking None ;;;
  validation <- validationCalls reg bp description contentStr ;;
  logValidation (fst validation) (snd validation) ;;;
  title <- getProp task "title" ;;
  isChapter <- isChapterTask description title ;;
  id <- liftWorld randomId ;;
  ret (integrate locals id isChapter contentStr (providerName writerResult)
         description title).

(** The body of the loop for a task whose role is ['WRITER']: an empty
    [contentStr] is logged and the loop continues. *)
Definition executeWriterTask (reg : Registry) (bp : option Blueprint.t)
    (styleContext : string) (persona : AgentPersona.t) (task : JSON)
    (locals : Locals) : M Locals :=
  draft <- writerDraft reg bp styleContext persona task ;;
  let '(writerResult, output, contentStr) := draft in
  if negb (nonEmpty contentStr) then
    log (roleValue WRITER) "Failed to generate content." undefined failed None ;;;
    ret locals
  else finishDraft reg bp task writerResult output contentStr locals.

(** The start of an iteration: the role is read and the task announced. *)
Definition announceTask (task : JSON) : M JSValue :=
  role <- getProp task "role" ;;
  description <- getProp task "description" ;;
  log role ("Executing: " ++ ToString description) undefined thinking None ;;;
  ret role.

(** One iteration of [for (const task of plan.tasks)]. *)
Definition executeTask (reg : Registry) (bp : option Blueprint.t)
    (styleContext : string) (persona : AgentPersona.t) (task : JSON)
    (locals : Locals) : M Locals :=
  role <- announceTask task ;;
  if isString "WRITER" role
  then executeWriterTask reg bp styleContext persona task locals
  else ret locals.

(** The loop.  An exception leaves it with the locals as they stand. *)
Fixpoint executionLoop (reg : Registry) (bp : option Blueprint.t)
    (styleContext : string) (persona : AgentPersona.t) (tasks : list JSON)
    (locals : Locals) (st : RunState) : Outcome unit * Locals * RunState :=
  match tasks with
  | [] => (Ok tt, locals, st)
  | task :: rest =>
      match executeTask reg bp styleContext persona task locals st with
      | (Ok locals', st') =>
          executionLoop reg bp styleContext persona rest locals' st'
      | (Throw e, st') => (Throw e, locals, st')
      end
  end.

(** [getPersonaById(project.blueprint?.personaId)] *)
Definition personaOf (project : Project.t) : AgentPersona.t :=
  getPersonaById
    match Project.blueprint project with
    | Some b => Blueprint.personaId b
    | None => None
    end.

(** The log entry for a persona other than the standard one. *)
Definition announcePersona (persona : AgentPersona.t) : M unit :=
  if String.eqb (AgentPersona.id persona) "standard_vibe" then ret tt
  else log (roleValue PROJECT_MANAGER)
         ("Applying Agent Persona: " ++ AgentPersona.name persona)
         undefined success None.

(** The execution phase: the persona, then the loop from chapter 1. *)
Definition executionPhase (reg : Registry) (project : Project.t)
    (tasks : list JSON) (styleContext : string) (st : RunState)
  : Outcome unit * Locals * RunState :=
  match announcePersona (personaOf project) st with
  | (Ok _, st') =>
      executionLoop reg (Project.blueprint project) styleContext
        (personaOf project) tasks (mkLocals [] 1) st'
  | (Throw e, st') => (Throw e, mkLocals [] 1, st')
  end.

(** The [catch] block. *)
Definition workflowCatch (e : JSError) : M unit :=
  log (roleValue PROJECT_MANAGER) "Workflow encountered an error."
    (Some (JString (errorToString e))) failed None.

(** [runMultiAgentWorkflow(userRequest, project, onLog, blueprint)]: the
    blocks it returns, with the run state it leaves.  The fourth argument
    is not read by the function. *)
Definition runMultiAgentWorkflow (reg : Registry) (userRequest : string)
    (project : Project.t) (blueprint : option Blueprint.t) (st : RunState)
  : list ContentBlock.t * RunState :=
  match planningPhase reg userRequest project st with
  | (Ok EarlyReturn, st1) => ([], st1)
  | (Ok (Plan tasks styleContext), st1) =>
      match executionPhase reg project tasks styleContext st1 with
      | (Ok _, locals, st2) => (newBlocks locals, st2)
      | (Throw e, locals, st2) => (newBlocks locals, snd (workflowCatch e st2))
      end
  | (Throw e, st1) => ([], snd (workflowCatch e st1))
  end.

End Workflow.

(** ** Vocabulary of the properties *)





Section Vocabulary.
Context `{H : Host}.

(** The test [text && text.trim()] of the facade. *)
Definition usable (answer : string) : bool :=
  nonEmpty answer && nonEmpty (trim answer).

(** A vendor that never produces usable text: every call throws or
    returns text that is empty once trimmed. *)
Definition alwaysFails (p : AIProvider) : Prop :=
  forall prompt options w,
    match fst (generateText p prompt options w) with
    | Ok answer => usable answer = false
    | Throw _ => True
    end.

(** A vendor whose every call returns usable text. *)
Definition alwaysSucceeds (p : AIProvider) : Prop :=
  forall prompt options w,
    exists answer,
      fst (generateText p prompt options w) = Ok answer /\ usable answer = true.

(** Every instance sits in the map under its own name, as
    [registerProvider] puts it. *)
Definition wellKeyed (reg : Registry) : Prop :=
  Forall (fun entry => name (snd entry) = fst entry) (providerInstances reg).

(** A list without its repetitions, first occurrences kept: what adding
    its elements to an empty [Set] gives. *)
Definition firstSeen (l : list ModelProvider) : list ModelProvider :=
  fold_left setAdd l [].

(** The number of failure-status entries of a log. *)
Definition failedCount (entries : list AgentLog) : nat :=
  List.length (filter (fun e => LogStatus_eqb (status e) failed) entries).

(** The agent, message and status of the entries logged by a run. *)
Definition journal (run : list ContentBlock.t * RunState)
  : list (JSValue * string * LogStatus) :=
  map (fun entry => (agent entry, message entry, status entry)) (logs (snd run)).

(** A field of a task object. *)
Definition taskField (task : JSON) (key : string) : JSValue :=
  match task with
  | JObject members => Json.lookup key members
  | _ => None
  end.

Definition titleMentionsChapter (title : JSValue) : bool :=
  match title with
  | Some (JString t) => mentionsChapter t
  | _ => false
  end.


Definition chapterNumberOf (b : ContentBlock.t) : option Z :=
  match ContentBlock.metadata b with
  | Some md => BlockMetadata.chapterNumber md
  | None => None
  end.




(** The block [b] was pushed for the task [task]: the task has the role
    WRITER, and the block records its description and its title. *)
Definition emittedFor (task : JSON) (b : ContentBlock.t) : Prop :=
  taskField task "role" = Some (JString "WRITER")
  /\ exists md,
       ContentBlock.metadata b = Some md
       /\ BlockMetadata.prompt md = taskField task "description"
       /\ BlockMetadata.title md = taskField task "title".

(** The blocks come from tasks of the list, at most one per task, in the
    order of the tasks. *)
Inductive EmittedInOrder : list JSON -> list ContentBlock.t -> Prop :=
  | emitted_nil : EmittedInOrder [] []
  | emitted_skip task tasks blocks :
      EmittedInOrder tasks blocks -> EmittedInOrder (task :: tasks) blocks
  | emitted_push task tasks b blocks :
      emittedFor task b -> EmittedInOrder tasks blocks ->
      EmittedInOrder (task :: tasks) (b :: blocks).



(** A run step that only appends events and leaves the log alone. *)
Definition extends (st st' : RunState) (new : list Event) : Prop :=
  events st' = (events st ++ new)%list /\ logs st' = logs st.

(** A relation between the state before and the state after, kept by
    every step of a computation whatever its outcome. *)
Definition keeps (R : RunState -> RunState -> Prop) {A} (m : M A) : Prop :=
  forall st r st', m st = (r, st') -> R st st'.

(** No new call, no new sleep. *)
Definition sameEvents (st st' : RunState) : Prop := events st' = events st.

(** No new failure-status entry. *)
Definition sameFailures (st st' : RunState) : Prop :=
  failedCount (logs st') = failedCount (logs st).

(** No new log entry at all. *)
Definition sameLogs (st st' : RunState) : Prop := logs st' = logs st.



End Vocabulary.

(** ** A concrete host and concrete vendors, for the examples *)

Module Demo.

(** Integers are written in decimal; the examples contain no other
    number. *)
Definition numberToString (d : Decimal) : string :=
  let digits := NilEmpty.string_of_uint (N.to_uint (mant d * 10 ^ Z.to_N (exp10 d))) in
  if neg d && negb (N.eqb (mant d) 0) then "-" ++ digits else digits.

(** [JSON.stringify(v, null, 2)] on the values the examples log: an empty
    array or object, or a string without escapes. *)
Definition stringify (v : JSON) : string :=
  match v with
  | JArray [] => "[]"
  | JObject [] => "{}"
  | JString s => dq ++ s ++ dq
  | _ => "[...]"
  end.

(** The world is a counter: it numbers the identifiers and the clock
    readings; the vendors below do not change it. *)
Definition host : Host := {|
  World := nat;
  NumberToString := numberToString;
  JSON_stringify := stringify;
  randomId := fun w => ("id" ++ NilEmpty.string_of_uint (Nat.to_uint w), S w);
  dateNow := fun w => (Z.of_nat w, S w)
|}.

Definition AIProvider : Type := @AIProvider host.
Definition Registry : Type := @Registry host.
Definition RunState : Type := @RunState host.

(** A configured vendor whose every call fails with [message]. *)
Definition failing (key : ModelProvider) (message : string) : AIProvider :=
  @mkAIProvider host key (ModelProvider_value key) true
    (fun _ _ w => (Throw (newError message), w))
    (fun w => (false, w)).

(** A configured vendor that answers by [reply]. *)
Definition answering (key : ModelProvider)
    (reply : Prompt -> option GenerateOptions -> string) : AIProvider :=
  @mkAIProvider host key (ModelProvider_value key) true
    (fun prompt options w => (Ok (reply prompt options), w))
    (fun w => (true, w)).

(** A vendor without credentials. *)
Definition unconfigured (key : ModelProvider) : AIProvider :=
  @mkAIProvider host key (ModelProvider_value key) false
    (fun _ _ w => (Throw (newError "API key not configured"), w))
    (fun w => (false, w)).

(** Construction of a vendor: the constructor updates the table when the
    vendor has credentials, then the module registers the instance. *)
Definition install (p : AIProvider) (reg : Registry) : Registry :=
  @registerProvider host p
    (if @isConfigured host p
     then @updateModelAvailability host (@name host p) true reg
     else reg).

Definition emptyRegistry : Registry := @mkRegistry host MODEL_REGISTRY [].

Definition initialState : RunState := @mkRunState host 0 [] [].

(** No vendor has credentials. *)
Definition noneConfigured : Registry :=
  install (unconfigured MISTRAL) (install (unconfigured GEMINI) emptyRegistry).

(** Only OpenRouter has credentials. *)
Definition onlyOpenRouter : Registry :=
  install (answering OPENROUTER (fun _ _ => "hello"))
    (install (unconfigured GEMINI) emptyRegistry).

(** Mistral is down and Gemini answers; both have credentials. *)
Definition mistralDown : Registry :=
  install (answering GEMINI (fun _ _ => "a fine answer"))
    (install (failing MISTRAL "503 service unavailable") emptyRegistry).

(** Gemini and DeepSeek have credentials, Mistral has none. *)
Definition deepseekAndGemini : Registry :=
  install (answering DEEPSEEK (fun _ _ => "from deepseek"))
    (install (unconfigured MISTRAL)
       (install (answering GEMINI (fun _ _ => "from gemini")) emptyRegistry)).

(** Groq is rate limited, DeepSeek answers blank text, Gemini answers. *)
Definition twoDownOneUp : Registry :=
  install (answering GEMINI (fun _ _ => "third time lucky"))
    (install (answering DEEPSEEK (fun _ _ => "   "))
       (install (failing GROQ "429 rate limit") emptyRegistry)).

(** A vendor script for a whole workflow: the answer is chosen by the
    system prompt of the call, and for the writer by the task prompt. *)
Definition replyBy (architect visionary : string) (writer : string -> string)
    (critic consistency : string) : Prompt -> option GenerateOptions -> string :=
  fun prompt options =>
    let system :=
      match options with
      | Some o => match systemPrompt o with Some s => s | None => "" end
      | None => ""
      end in
    let task := match prompt with PromptText t => t | PromptParts _ => "" end in
    if includes "Architect Agent" system then architect
    else if includes "Visionary Agent" system then visionary
    else if includes "Writer Agent" system then writer task
    else if includes "Literary Critic" system then critic
    else consistency.

(** [{"key": "value"}] *)
Definition object1 (key value : string) : string :=
  "{" ++ dq ++ key ++ dq ++ ": " ++ dq ++ value ++ dq ++ "}".

(** Gemini alone, following a script. *)
Definition studio (reply : Prompt -> option GenerateOptions -> string) : Registry :=
  install (answering GEMINI reply) emptyRegistry.

Definition settings : ProjectSettings.t := ProjectSettings.mk None true None.

(** A project without a blueprint. *)
Definition plainProject : Project.t :=
  Project.mk "p1" "Untitled" "A new book" [] 0 settings PLANNING None.

(** A blueprint of two chapters with a scene between them. *)
Definition stormBlueprint : Blueprint.t :=
  Blueprint.mk "The Storm" "A sea tale" (Some "Adventure") (Some "Tense") None
    [ BlueprintSection.mk "s1" "Chapter 1: Departure" "The crew sets sail."
        SectionChapter;
      BlueprintSection.mk "s2" "Interlude" "A quiet night at sea." SectionScene;
      BlueprintSection.mk "s3" "Chapter 2: The Storm" "The storm hits."
        SectionChapter ]
    [] None None None.

Definition stormProject : Project.t :=
  Project.mk "p2" "The Storm" "A sea tale" [] 0 settings EXECUTION
    (Some stormBlueprint).

(** The architect answers with prose instead of JSON. *)
Definition proseArchitect : Registry :=
  studio (replyBy "Sorry, I cannot plan this book." (object1 "style_guide" "plain")
            (fun _ => object1 "content" "unused")
            (object1 "critique" "fine") (object1 "status" "pass")).

(** The writer returns empty content for the departure chapter and a
    paragraph for any other task. *)
Definition departureBlank : Registry :=
  studio (replyBy (object1 "tasks" "none") (object1 "style_guide" "plain")
            (fun task => if includes "Departure" task
                         then object1 "content" ""
                         else object1 "content" "The storm broke at dawn.")
            (object1 "critique" "fine") (object1 "status" "pass")).

(** [{"tasks": [t1, t2, ...]}] *)
Definition planText (tasks : list string) : string :=
  "{" ++ dq ++ "tasks" ++ dq ++ ": [" ++ join ", " tasks ++ "]}".

(** A task in the shape the architect is asked for. *)
Definition taskText (description context_script title : string) : string :=
  "{" ++ dq ++ "role" ++ dq ++ ": " ++ dq ++ "WRITER" ++ dq ++ ", " ++
  dq ++ "description" ++ dq ++ ": " ++ dq ++ description ++ dq ++ ", " ++
  dq ++ "context_script" ++ dq ++ ": " ++ dq ++ context_script ++ dq ++ ", " ++
  dq ++ "title" ++ dq ++ ": " ++ dq ++ title ++ dq ++ "}".

(** The architect answers with a well-formed plan of no task. *)
Definition emptyPlanArchitect : Registry :=
  studio (replyBy (planText []) (object1 "style_guide" "plain")
            (fun _ => object1 "content" "unused")
            (object1 "critique" "fine") (object1 "status" "pass")).

(** The architect answers with an object that has no [tasks]. *)
Definition shapelessArchitect : Registry :=
  studio (replyBy (object1 "plan" "none") (object1 "style_guide" "plain")
            (fun _ => object1 "content" "unused")
            (object1 "critique" "fine") (object1 "status" "pass")).

(** The architect plans a chapter, an interlude and a section that only its
    title calls a chapter; the writer has a paragraph for each. *)
Definition interludePlan : Registry :=
  studio (replyBy
            (planText
               [ taskText "Write Chapter 1: Departure" "The crew sets sail."
                   "Chapter 1";
                 taskText "Write the interlude" "A quiet night at sea."
                   "Interlude";
                 taskText "Write the storm" "The storm hits."
                   "CHAPTER 3: The Storm" ])
            (object1 "style_guide" "plain")
            (fun _ => object1 "content" "The sea was calm.")
            (object1 "critique" "fine") (object1 "status" "pass")).

End Demo.

(** ** The editor ([refineContent]) *)



Section Editor.
Context `{H : Host}.
Open Scope run_scope.


End Editor.

(** ** The folder context ([folderContext.ts]) *)

Module Folder.

(** ['file' | 'directory'] *)
Inductive NodeKind : Type := KindFile | KindDirectory.

(** [FileNode].  A size is a byte count. *)
#[warnings="-register-all"] Inductive FileNode : Type :=
  | mkFileNode (name path : string) (type : NodeKind) (size : option N)
      (lastModified : option Z) (children : option (list FileNode))
      (content : option string).

Definition name (n : FileNode) : string :=
  match n with mkFileNode x _ _ _ _ _ _ => x end.
Definition path (n : FileNode) : string :=
  match n with mkFileNode _ x _ _ _ _ _ => x end.
Definition type (n : FileNode) : NodeKind :=
  match n with mkFileNode _ _ x _ _ _ _ => x end.
Definition size (n : FileNode) : option N :=
  match n with mkFileNode _ _ _ x _ _ _ => x end.
Definition children (n : FileNode) : option (list FileNode) :=
  match n with mkFileNode _ _ _ _ _ x _ => x end.
Definition content (n : FileNode) : option string :=
  match n with mkFileNode _ _ _ _ _ _ x => x end.

Record ProjectContext : Type := mkProjectContext {
  rootPath : string;
  contextName : string;
  files : list FileNode;
  totalFiles : N;
  totalSize : N;
  lastScanned : Z
}.

Definition INDEXABLE_EXTENSIONS : list string :=
  [".md"; ".txt"; ".html"; ".json"; ".doc"; ".docx"; ".pdf"; ".rtf"; ".odt"].

Definition IGNORED_PATTERNS : list string :=
  ["node_modules"; ".git"; ".vscode"; "dist"; "build"; ".DS_Store"; "Thumbs.db"].

(** [IGNORED_PATTERNS.some(pattern => name.includes(pattern))] *)
Definition shouldIgnore (name : string) : bool :=
  existsb (fun pattern => includes pattern name) IGNORED_PATTERNS.

(** [s.endsWith(suffix)] *)
Definition endsWith (suffix s : string) : bool :=
  startsWith (rev suffix) (rev s).

(** [INDEXABLE_EXTENSIONS.some(ext => filename.toLowerCase().endsWith(ext))] *)
Definition isIndexable (filename : string) : bool :=
  existsb (fun ext => endsWith ext (toLowerCase filename)) INDEXABLE_EXTENSIONS.

(** The two counters of [calculateStats]. *)
Record Stats : Type := mkStats {
  statFiles : N;
  statSize : N
}.

(** One iteration of the loop of [traverse] in [calculateStats]: a file
    is counted with [item.size || 0]; a directory is entered when it has
    children. *)
Fixpoint countNode (item : FileNode) (acc : Stats) : Stats :=
  match item with
  | mkFileNode _ _ KindFile size _ _ _ =>
      mkStats (statFiles acc + 1)
        (statSize acc + match size with Some n => n | None => 0 end)
  | mkFileNode _ _ KindDirectory _ _ (Some items) _ =>
      fold_left (fun a i => countNode i a) items acc
  | mkFileNode _ _ KindDirectory _ _ None _ => acc
  end.

(** [calculateStats(nodes)] *)
Definition calculateStats (nodes : list FileNode) : Stats :=
  fold_left (fun a i => countNode i a) nodes (mkStats 0 0).

(** The first result of [f] along a list: a loop that returns from the
    function at the first hit. *)
Fixpoint firstSome {A B : Type} (f : A -> option B) (l : list A) : option B :=
  match l with
  | [] => None
  | x :: rest =>
      match f x with
      | Some y => Some y
      | None => firstSome f rest
      end
  end.

(** One iteration of the loop of [traverse] in [findFile]. *)
Fixpoint searchNode (wanted : string) (node : FileNode) : option FileNode :=
  match node with
  | mkFileNode _ p _ _ _ children _ =>
      if String.eqb p wanted then Some node
      else match children with
           | Some items => firstSome (searchNode wanted) items
           | None => None
           end
  end.

(** [findFile(context, path)]; [None] is [null]. *)
Definition findFile (context : ProjectContext) (wanted : string)
  : option FileNode :=
  firstSome (searchNode wanted) (files context).

(** One iteration of the loop of [traverse] in [findFilesByPattern], on
    the [results] array.  The pattern is a regular expression without the
    global and sticky flags, so its [test] is a function of the name. *)
Fixpoint collectNode (test : string -> bool) (node : FileNode)
    (results : list FileNode) : list FileNode :=
  match node with
  | mkFileNode nm _ kind _ _ children _ =>
      let results1 :=
        match kind with
        | KindFile => if test nm then (results ++ [node])%list else results
        | KindDirectory => results
        end in
      match children with
      | Some items => fold_left (fun r n => collectNode test n r) items results1
      | None => results1
      end
  end.

(** [findFilesByPattern(context, pattern)] *)
Definition findFilesByPattern (context : ProjectContext)
    (test : string -> bool) : list FileNode :=
  fold_left (fun r n => collectNode test n r) (files context) [].

(** [`--- ${node.path} ---\n${node.content}`] *)
Definition contentEntry (p c : string) : string :=
  "--- " ++ p ++ " ---" ++ nl ++ c.

(** One iteration of the loop of [traverse] in [getAllIndexedContent], on
    the [contents] array. *)
Fixpoint gatherNode (node : FileNode) (contents : list string) : list string :=
  match node with
  | mkFileNode _ p kind _ _ children c =>
      let contents1 :=
        match kind, c with
        | KindFile, Some text =>
            if nonEmpty text then (contents ++ [contentEntry p text])%list
            else contents
        | _, _ => contents
        end in
      match children with
      | Some items => fold_left (fun r n => gatherNode n r) items contents1
      | None => contents1
      end
  end.

(** [getAllIndexedContent(context)] *)
Definition getAllIndexedContent (context : ProjectContext) : string :=
  join (nl ++ nl) (fold_left (fun r n => gatherNode n r) (files context) []).

(** *** Vocabulary *)

Definition childrenOf (n : FileNode) : list FileNode :=
  match children n with Some items => items | None => [] end.

(** A node followed by the nodes below it, depth first. *)
Fixpoint preorder (node : FileNode) : list FileNode :=
  match node with
  | mkFileNode _ _ _ _ _ children _ =>
      node :: match children with
              | Some items => flat_map preorder items
              | None => []
              end
  end.

(** All the nodes of a forest, depth first, a parent before its
    children. *)
Definition allNodes (nodes : list FileNode) : list FileNode :=
  flat_map preorder nodes.

Definition isFile (n : FileNode) : bool :=
  match type n with KindFile => true | KindDirectory => false end.

(** A tree as [scanDirectory] builds it: no file node has children. *)
Fixpoint filesAreLeaves (node : FileNode) : bool :=
  match node with
  | mkFileNode _ _ KindFile _ _ None _ => true
  | mkFileNode _ _ KindFile _ _ (Some _) _ => false
  | mkFileNode _ _ KindDirectory _ _ (Some items) _ => forallb filesAreLeaves items
  | mkFileNode _ _ KindDirectory _ _ None _ => true
  end.

Definition sizeOf (n : FileNode) : N :=
  match size n with Some s => s | None => 0%N end.

(** The sum of the sizes of a list of nodes. *)
Definition sumSizes (nodes : list FileNode) : N :=
  fold_right (fun n total => (sizeOf n + total)%N) 0%N nodes.

(** A file with indexed content. *)
Definition hasContent (n : FileNode) : bool :=
  isFile n && match content n with Some text => nonEmpty text | None => false end.

Definition entryOf (n : FileNode) : string :=
  contentEntry (path n) match content n with Some text => text | None => "" end.

(** A small project folder. *)
Definition sampleTree : list FileNode :=
  [ mkFileNode "drafts" "drafts" KindDirectory None None
      (Some [ mkFileNode "one.md" "drafts/one.md" KindFile (Some 120%N)
                (Some 1700000000000%Z) None (Some "# One");
              mkFileNode "cover.png" "drafts/cover.png" KindFile (Some 2048%N)
                (Some 1700000000001%Z) None None ])
      None;
    mkFileNode "notes.txt" "notes.txt" KindFile (Some 10%N)
      (Some 1700000000002%Z) None (Some "remember") ].

Definition sampleContext : ProjectContext :=
  mkProjectContext "book" "book" sampleTree 3 2178 1700000000003.

End Folder.

(** ** Start-up of the vendors ([services/providers]) *)

Section Startup.
Context `{H : Host}.

(** What the vendor classes take from outside: the value of the
    environment variable of each vendor's key ([VITE_API_KEY] for Gemini,
    [VITE_GROQ_API_KEY], ...), whether [new GoogleGenAI({ apiKey })]
    returns rather than throws, and the network side of the two
    asynchronous methods. *)
Record Environment : Type := mkEnvironment {
  envValue : ModelProvider -> option string;
  GoogleGenAI_returns : string -> bool;
  vendorGenerateText :
    ModelProvider -> Prompt -> option GenerateOptions -> World ->
    Outcome string * World;
  vendorCheckAvailability : ModelProvider -> World -> bool * World
}.

(** [env?.VITE_..._API_KEY || null], and [|| ''] for Gemini: a missing
    variable and an empty one are the same. *)
Definition apiKey (env : Environment) (v : ModelProvider) : option string :=
  match envValue env v with
  | Some key => if nonEmpty key then Some key else None
  | None => None
  end.

(** Whether the constructor of the class calls
    [updateModelAvailability(vendor, true)].  For Gemini the call follows
    the construction of the client, inside the [try] block. *)
Definition constructorFlags (env : Environment) (v : ModelProvider) : bool :=
  match apiKey env v with
  | None => false
  | Some key =>
      match v with
      | GEMINI => negb (includes "your_" key) && GoogleGenAI_returns env key
      | _ => true
      end
  end.

(** [isConfigured()] of each class. *)
Definition configured (env : Environment) (v : ModelProvider) : bool :=
  match apiKey env v with
  | None => false
  | Some key =>
      match v with
      | GEMINI => negb (includes "your_" key) && GoogleGenAI_returns env key
      | GROQ | DEEPSEEK | MISTRAL => true
      | HUGGINGFACE => negb (String.eqb key "your_huggingface_api_key_here")
      | OPENROUTER => negb (includes "your_" key)
      end
  end.

Definition classDisplayName (v : ModelProvider) : string :=
  match v with
  | GEMINI => "Google Gemini"
  | GROQ => "Groq (Llama 3.3)"
  | DEEPSEEK => "DeepSeek V3"
  | MISTRAL => "Mistral Large"
  | HUGGINGFACE => "HuggingFace (Free)"
  | OPENROUTER => "OpenRouter (Multi-Model)"
  end.

(** The instance a provider module creates. *)
Definition instanceOf (env : Environment) (v : ModelProvider) : AIProvider :=
  mkAIProvider v (classDisplayName v) (configured env v)
    (vendorGenerateText env v) (vendorCheckAvailability env v).

(** The evaluation of a provider module: [new ...Provider()], whose
    constructor may update the table, then [registerProvider]. *)
Definition loadProvider (env : Environment) (reg : Registry) (v : ModelProvider)
  : Registry :=
  registerProvider (instanceOf env v)
    (if constructorFlags env v then updateModelAvailability v true reg else reg).

(** The imports of [providers/index.ts], in their order. *)
Definition PROVIDER_MODULES : list ModelProvider :=
  [GEMINI; GROQ; DEEPSEEK; MISTRAL; HUGGINGFACE; OPENROUTER].

(** The registry once [providers/index.ts] has been evaluated. *)
Definition startup (env : Environment) : Registry :=
  fold_left (loadProvider env) PROVIDER_MODULES (mkRegistry MODEL_REGISTRY []).

End Startup.


(** ** Vocabulary of the prompt templates *)

(** The three pieces of [CONSISTENCY_PROMPT] around its two
    placeholders. *)
Definition templateHead : string :=
  match splitFirst "{WORLD_CONTEXT}" CONSISTENCY_PROMPT with
  | Some (before, _) => before
  | None => ""
  end.

Definition templateMiddle : string :=
  match splitFirst "{WORLD_CONTEXT}" CONSISTENCY_PROMPT with
  | Some (_, after) =>
      match splitFirst "{CONTENT}" after with
      | Some (before, _) => before
      | None => ""
      end
  | None => ""
  end.

Definition templateTail : string :=
  match splitFirst "{WORLD_CONTEXT}" CONSISTENCY_PROMPT with
  | Some (_, after) =>
      match splitFirst "{CONTENT}" after with
      | Some (_, rest) => rest
      | None => ""
      end
  | None => ""
  end.

(** ** Vocabulary of the registry properties *)

(** The router can pick the vendor [p]: it is in the list of available
    vendors and the table has an entry of [p] flagged available. *)
Definition routable (models : list ModelConfig) (available : list ModelProvider)
    (p : ModelProvider) : bool :=
  includesProvider available p
  && existsb (fun m => ModelProvider_eqb (provider m) p && isAvailable m) models.

(** What the table says of a model apart from its flag. *)
Definition identity (m : ModelConfig)
  : ModelProvider * string * string * string * list string :=
  (provider m, modelId m, displayName m, description m, strengths m).

Section RegistryVocabulary.
Context `{H : Host}.

(** The states the registry module goes through: the declared table with
    an empty map, then any sequence of [registerProvider] and
    [updateModelAvailability]. *)
Inductive Reachable : Registry -> Prop :=
  | reachable_initial : Reachable (mkRegistry MODEL_REGISTRY [])
  | reachable_register p reg :
      Reachable reg -> Reachable (registerProvider p reg)
  | reachable_update p flag reg :
      Reachable reg -> Reachable (updateModelAvailability p flag reg).

(** The names under which instances are registered, in iteration order. *)
Definition registeredNames (reg : Registry) : list ModelProvider :=
  map fst (providerInstances reg).

(** The events of the fallback facade for a prompt and options: a call
    with that prompt and those options, or a back-off of one second. *)
Definition facadeEvent (prompt : string) (options : option GenerateOptions)
    (e : Event) : Prop :=
  match e with
  | EvGenerate _ pr o => pr = PromptText prompt /\ o = options
  | EvSleep ms => ms = 1000%Z
  end.



(** A block as the writer branch pushes it: a draft without revisions,
    signed by the writer agent, that names a configured vendor. *)
Definition writerDraftBlock (reg : Registry) (b : ContentBlock.t) : Prop :=
  ContentBlock.status b = DRAFT
  /\ ContentBlock.revisionHistory b = []
  /\ exists md vendor,
       ContentBlock.metadata b = Some md
       /\ BlockMetadata.agentSignature md = Some "Writer Agent"
       /\ BlockMetadata.modelUsed md = Some (ModelProvider_value vendor)
       /\ In vendor (getAvailableProviders reg)
       /\ BlockMetadata.style md = None
       /\ BlockMetadata.lastEdited md = None.

End RegistryVocabulary.

(** ** More vendors for the examples *)

Module Samples.

(** Groq has credentials, Gemini has none. *)
Definition onlyGroq : Demo.Registry :=
  Demo.install (Demo.answering GROQ (fun _ _ => "from groq"))
    (Demo.install (Demo.unconfigured GEMINI) Demo.emptyRegistry).

(** Mistral and Gemini have credentials and both are down. *)
Definition allDown : Demo.Registry :=
  Demo.install (Demo.failing GEMINI "model overloaded")
    (Demo.install (Demo.failing MISTRAL "503 service unavailable")
       Demo.emptyRegistry).




(** The tasks of the plan below, as [JSON.parse] gives them. *)
Definition chapterTask (description context_script title : string) : JSON :=
  JObject [("role", JString "WRITER"); ("description", JString description);
           ("context_script", JString context_script);
           ("title", JString title)].

(** The architect plans a chapter, then [null], then another chapter. *)
Definition stumblingPlan : Demo.Registry :=
  Demo.studio (Demo.replyBy
    (Demo.planText
       [ Demo.taskText "Write Chapter 1: Departure" "The crew sets sail."
           "Chapter 1";
         "null";
         Demo.taskText "Write Chapter 2: The Storm" "The storm hits."
           "Chapter 2" ])
    (Demo.object1 "style_guide" "plain")
    (fun _ => Demo.object1 "content" "The sea was calm.")
    (Demo.object1 "critique" "fine") (Demo.object1 "status" "pass")).



End Samples.

(* ================================================================== *)
(** * Part II: properties                                              *)
(* ================================================================== *)

(** ** The task router *)

Lemma ModelProvider_eqb_eq (a b : ModelProvider) :
  ModelProvider_eqb a b = true <-> a = b.
Proof.
  unfold ModelProvider_eqb.
  destruct (ModelProvider_eq_dec a b); split; congruence.
Qed.

Lemma ModelProvider_eqb_refl (a : ModelProvider) : ModelProvider_eqb a a = true.
Proof. now apply ModelProvider_eqb_eq. Qed.

Lemma ModelProvider_eqb_neq (a b : ModelProvider) :
  ModelProvider_eqb a b = false <-> a <> b.
Proof.
  unfold ModelProvider_eqb.
  destruct (ModelProvider_eq_dec a b); split; congruence.
Qed.

Lemma includesProvider_In (l : list ModelProvider) (p : ModelProvider) :
  includesProvider l p = true <-> In p l.
Proof.
  unfold includesProvider. rewrite existsb_exists. split.
  - intros [x [Hx Heq]]. apply ModelProvider_eqb_eq in Heq. now subst.
  - intros Hin. exists p. split; [assumption | apply ModelProvider_eqb_refl].
Qed.

Lemma includesProvider_not_In (l : list ModelProvider) (p : ModelProvider) :
  includesProvider l p = false <-> ~ In p l.
Proof.
  rewrite <- includesProvider_In. destruct (includesProvider l p); split;
    congruence.
Qed.

Lemma findAvailableModel_Some models p m :
  findAvailableModel models p = Some m ->
  In m models /\ provider m = p /\ isAvailable m = true.
Proof.
  unfold findAvailableModel. intros Hf.
  apply find_some in Hf. destruct Hf as [Hin Hb].
  apply andb_true_iff in Hb. destruct Hb as [Hp Ha].
  apply ModelProvider_eqb_eq in Hp. auto.
Qed.

Lemma findAvailableModel_None models p m :
  findAvailableModel models p = None ->
  In m models -> provider m = p -> isAvailable m = false.
Proof.
  unfold findAvailableModel. intros Hf Hin Hp.
  pose proof (find_none _ _ Hf m Hin) as Hb. cbv beta in Hb.
  rewrite Hp, ModelProvider_eqb_refl in Hb. exact Hb.
Qed.

Lemma firstPreferredModel_Some models available priorityList m :
  firstPreferredModel models available priorityList = Some m ->
  In m models /\ isAvailable m = true /\
  In (provider m) available /\ In (provider m) priorityList.
Proof.
  induction priorityList as [|p rest IH]; simpl; [discriminate|].
  destruct (includesProvider available p) eqn:Hinc.
  - destruct (findAvailableModel models p) as [m'|] eqn:Hf.
    + intros Heq. injection Heq as ->.
      apply findAvailableModel_Some in Hf. destruct Hf as [Hin [Hp Ha]].
      apply includesProvider_In in Hinc. subst p. auto.
    + intros Hrest. destruct (IH Hrest) as [? [? [? ?]]]. auto.
  - intros Hrest. destruct (IH Hrest) as [? [? [? ?]]]. auto.
Qed.

Lemma firstAvailableModel_Some models providers m :
  firstAvailableModel models providers = Some m ->
  In m models /\ isAvailable m = true /\ In (provider m) providers.
Proof.
  induction providers as [|p rest IH]; simpl; [discriminate|].
  destruct (findAvailableModel models p) as [m'|] eqn:Hf.
  - intros Heq. injection Heq as ->.
    apply findAvailableModel_Some in Hf. destruct Hf as [Hin [Hp Ha]].
    subst p. auto.
  - intros Hrest. destruct (IH Hrest) as [? [? ?]]. auto.
Qed.


(** What [selectBestModel] returns is an available model of an available
    vendor. *)
Lemma selectBestModel_Some models taskType available m :
  selectBestModel models taskType available = Some m ->
  In m models /\ isAvailable m = true /\ In (provider m) available.
Proof.
  unfold selectBestModel.
  destruct (firstPreferredModel models available (TASK_MODEL_PRIORITY taskType))
    as [m'|] eqn:Hpref.
  - intros Heq. injection Heq as ->.
    apply firstPreferredModel_Some in Hpref. tauto.
  - apply firstAvailableModel_Some.
Qed.



(** ** The registry state *)

Section RegistryFacts.
Context `{H : Host}.

Lemma setAvailability_other p flag m :
  provider m <> p -> setAvailability p flag m = m.
Proof.
  intros Hne. unfold setAvailability.
  apply ModelProvider_eqb_neq in Hne. now rewrite Hne.
Qed.

Lemma setAvailability_same p flag m :
  provider m = p ->
  setAvailability p flag m =
  mkModelConfig (provider m) (modelId m) (displayName m) (description m)
    (strengths m) flag.
Proof.
  intros Heq. unfold setAvailability.
  apply ModelProvider_eqb_eq in Heq. now rewrite Heq.
Qed.

(** C10: [updateModelAvailability p b] keeps the table's length and order;
    the entry at each index keeps its provider, model id, display name,
    description and strengths; its flag becomes [b] when its provider is
    [p], and the whole entry is unchanged otherwise; the map of provider
    instances is not touched. *)
Theorem updateModelAvailability_frame :
  forall (p : ModelProvider) (b : bool) (reg : Registry),
    providerInstances (updateModelAvailability p b reg) = providerInstances reg
    /\ List.length (models (updateModelAvailability p b reg))
       = List.length (models reg)
    /\ forall (i : nat) (m : ModelConfig),
         nth_error (models reg) i = Some m ->
         exists m',
           nth_error (models (updateModelAvailability p b reg)) i = Some m'
           /\ provider m' = provider m
           /\ modelId m' = modelId m
           /\ displayName m' = displayName m
           /\ description m' = description m
           /\ strengths m' = strengths m
           /\ (provider m = p -> isAvailable m' = b)
           /\ (provider m <> p -> m' = m).
Proof.
  intros p b reg. split; [reflexivity|]. split.
  - simpl. apply length_map.
  - intros i m Hnth. exists (setAvailability p b m). split.
    + simpl. rewrite nth_error_map, Hnth. reflexivity.
    + destruct (ModelProvider_eq_dec (provider m) p) as [Heq|Hne].
      * rewrite (setAvailability_same _ _ _ Heq). simpl.
        repeat split; congruence.
      * rewrite (setAvailability_other _ _ _ Hne).
        repeat split; congruence.
Qed.

End RegistryFacts.

(** ** The run monad and the event list *)

Open Scope list_scope.

Lemma vendorsCalled_app (a b : list Event) :
  vendorsCalled (a ++ b) = vendorsCalled a ++ vendorsCalled b.
Proof.
  induction a as [|e a IH]; simpl; [reflexivity|].
  destruct e; simpl; now rewrite IH.
Qed.

Lemma attempts_vendorsCalled (evs : list Event) :
  attempts evs = List.length (vendorsCalled evs).
Proof.
  unfold attempts. induction evs as [|e evs IH]; simpl; [reflexivity|].
  destruct e; simpl; now rewrite IH.
Qed.

Lemma attempts_app (a b : list Event) :
  attempts (a ++ b) = attempts a + attempts b.
Proof.
  rewrite !attempts_vendorsCalled, vendorsCalled_app. apply length_app.
Qed.

(** ** The single-shot facade [generateWithBestModel] *)

Section BestModelFacts.
Context `{H : Host}.

(** C9: with no vendor configured, [generateWithBestModel] rejects with
    the configuration error and leaves the run state as it was: no
    [generateText] call is made.  The fallback facade does the same. *)
Theorem generateWithBestModel_rejects_without_vendors :
  forall (reg : Registry) (prompt : Prompt) (taskType : TaskType)
         (options : option GenerateOptions)
         (preferredProvider : option ModelProvider) (st : RunState),
    getAvailableProviders reg = [] ->
    generateWithBestModel reg prompt taskType options preferredProvider st
      = (Throw (newError noProvidersMessage), st)
    /\ forall text preferred,
         generateWithFallback reg text options preferred st
           = (Throw (newError noProvidersMessage), st).
Proof.
  intros reg prompt taskType options preferredProvider st Hnone.
  unfold generateWithBestModel, generateWithFallback.
  rewrite Hnone. split; reflexivity.
Qed.

End BestModelFacts.

(** C9 on a registry whose two vendors have no credentials. *)
Lemma generateWithBestModel_rejects_without_vendors_witness :
  @getAvailableProviders Demo.host Demo.noneConfigured = [] /\
  @generateWithBestModel Demo.host Demo.noneConfigured (PromptText "hello")
    writing None None Demo.initialState
  = (Throw (newError noProvidersMessage), Demo.initialState).
Proof.
  split; [reflexivity|].
  apply (@generateWithBestModel_rejects_without_vendors Demo.host
           Demo.noneConfigured (PromptText "hello") writing None None
           Demo.initialState).
  reflexivity.
Defined.

(** ** The try order of the fallback facade *)

Lemma setAdd_In order p q :
  In q (setAdd order p) <-> In q order \/ q = p.
Proof.
  unfold setAdd. destruct (includesProvider order p) eqn:Hinc.
  - apply includesProvider_In in Hinc. split; [auto|].
    intros [Hq | ->]; assumption.
  - rewrite in_app_iff. simpl. intuition congruence.
Qed.

Lemma setAdd_NoDup order p : NoDup order -> NoDup (setAdd order p).
Proof.
  intros Hnd. unfold setAdd. destruct (includesProvider order p) eqn:Hinc;
    [assumption|].
  apply includesProvider_not_In in Hinc.
  apply NoDup_app; [assumption | repeat constructor; simpl; tauto |].
  intros x Hx [-> | []]. contradiction.
Qed.

Lemma fold_setAdd_In l : forall acc q,
  In q (fold_left setAdd l acc) <-> In q acc \/ In q l.
Proof.
  induction l as [|a l IH]; intros acc q; simpl; [tauto|].
  rewrite IH, setAdd_In. intuition congruence.
Qed.

Lemma fold_setAdd_NoDup l : forall acc,
  NoDup acc -> NoDup (fold_left setAdd l acc).
Proof.
  induction l as [|a l IH]; intros acc Hnd; simpl; [assumption|].
  apply IH, setAdd_NoDup, Hnd.
Qed.

Lemma filter_filter_provider (f g : ModelProvider -> bool) l :
  filter f (filter g l) = filter (fun p => g p && f p) l.
Proof.
  induction l as [|a l IH]; simpl; [reflexivity|].
  destruct (g a); simpl; [destruct (f a)|]; simpl; now rewrite IH.
Qed.

Lemma fold_setAdd_split_bounded (n : nat) : forall l acc,
  List.length l <= n ->
  fold_left setAdd l acc
  = acc ++ fold_left setAdd
             (filter (fun p => negb (includesProvider acc p)) l) [].
Proof.
  induction n as [|n IH]; intros l acc Hlen.
  - destruct l; simpl in *; [now rewrite app_nil_r | lia].
  - destruct l as [|a l]; simpl in *; [now rewrite app_nil_r|].
    assert (Hl : List.length l <= n) by lia.
    unfold setAdd at 2. destruct (includesProvider acc a) eqn:Hinc; simpl.
    + apply IH, Hl.
    + rewrite (IH l (acc ++ [a]) Hl).
      rewrite (IH (filter (fun p => negb (includesProvider acc p)) l)
                 (setAdd [] a)).
      * unfold setAdd. simpl. rewrite <- app_assoc. simpl.
        do 3 f_equal.
        rewrite filter_filter_provider. apply filter_ext. intros p.
        unfold includesProvider. rewrite existsb_app. simpl.
        rewrite negb_orb, orb_false_r. reflexivity.
      * etransitivity; [apply filter_length_le | exact Hl].
Qed.

(** Adding a list to a set appends the first occurrences of its new
    elements. *)
Lemma fold_setAdd_split l acc :
  fold_left setAdd l acc
  = acc ++ firstSeen (filter (fun p => negb (includesProvider acc p)) l).
Proof. unfold firstSeen. now apply (fold_setAdd_split_bounded (List.length l)). Qed.

Lemma firstSeen_In l q : In q (firstSeen l) <-> In q l.
Proof. unfold firstSeen. rewrite fold_setAdd_In. simpl. tauto. Qed.

Lemma firstSeen_NoDup l : NoDup (firstSeen l).
Proof. apply fold_setAdd_NoDup. constructor. Qed.

Lemma tryOrderOf_nil preferred : tryOrderOf preferred [] = [].
Proof.
  unfold tryOrderOf. simpl. destruct preferred as [l|]; [|reflexivity].
  assert (Hf : filter (includesProvider []) l = []).
  { induction l as [|a l IH]; simpl; auto. }
  now rewrite Hf.
Qed.

(** The try order: the preferred vendors that are available, in the
    declared order, then the other available vendors, each once. *)
Lemma tryOrderOf_preferred_first preferred available :
  tryOrderOf (Some preferred) available
  = firstSeen (filter (includesProvider available) preferred)
    ++ firstSeen (filter (fun p => negb (includesProvider preferred p)) available).
Proof.
  unfold tryOrderOf. rewrite fold_setAdd_split. f_equal.
  fold (firstSeen (filter (includesProvider available) preferred)).
  f_equal. apply filter_ext_in. intros a Ha. f_equal.
  destruct (includesProvider preferred a) eqn:Hp.
  - apply includesProvider_In. apply firstSeen_In. apply filter_In.
    split; [now apply includesProvider_In | now apply includesProvider_In].
  - apply includesProvider_not_In. intros Hin.
    apply firstSeen_In, filter_In in Hin. destruct Hin as [Hin _].
    apply includesProvider_In in Hin. congruence.
Qed.

Lemma tryOrderOf_NoDup preferred available :
  NoDup (tryOrderOf preferred available).
Proof.
  unfold tryOrderOf. apply fold_setAdd_NoDup.
  destruct preferred; [apply firstSeen_NoDup | constructor].
Qed.

Lemma tryOrderOf_In preferred available q :
  In q (tryOrderOf preferred available) <-> In q available.
Proof.
  unfold tryOrderOf. rewrite fold_setAdd_In. destruct preferred as [l|].
  - fold (firstSeen (filter (includesProvider available) l)).
    rewrite firstSeen_In, filter_In, includesProvider_In. tauto.
  - simpl. tauto.
Qed.

(** ** The fallback facade [generateWithFallback] *)

Section FallbackFacts.
Context `{H : Host}.

Lemma callGenerateText_unfold (p : AIProvider) prompt options (st : RunState) :
  callGenerateText p prompt options st
  = (fst (generateText p prompt options (world st)),
     mkRunState (snd (generateText p prompt options (world st)))
       (events st ++ [EvGenerate (name p) prompt options]) (logs st)).
Proof.
  unfold callGenerateText.
  now destruct (generateText p prompt options (world st)).
Qed.

Lemma extends_refl st : extends st st [].
Proof. split; [now rewrite app_nil_r | reflexivity]. Qed.

Lemma extends_trans st1 st2 st3 a b :
  extends st1 st2 a -> extends st2 st3 b -> extends st1 st3 (a ++ b).
Proof.
  intros [Ha La] [Hb Lb]. split; [|congruence].
  now rewrite Hb, Ha, app_assoc.
Qed.

Lemma backoff_extends errMsg (st : RunState) :
  exists st' new,
    (if isRateLimited errMsg then sleep 1000 else ret tt) st = (Ok tt, st')
    /\ extends st st' new /\ vendorsCalled new = [].
Proof.
  destruct (isRateLimited errMsg).
  - eexists. exists [EvSleep 1000]. repeat split.
  - exists st, []. split; [reflexivity|]. split; [apply extends_refl | reflexivity].
Qed.

(** The attempts on one vendor always return; their first event, if any,
    is the call on that vendor. *)
Lemma attemptLoop_extends (p : AIProvider) key prompt options :
  forall remaining errors st,
  exists r st' new,
    attemptLoop p key prompt options remaining errors st = (Ok r, st')
    /\ extends st st' new
    /\ (remaining <> 0 ->
        exists more, new = EvGenerate (name p) (PromptText prompt) options :: more).
Proof.
  induction remaining as [|n IH]; intros errors st.
  - exists (None, errors), st, []. simpl. repeat split.
    + now rewrite app_nil_r.
    + congruence.
  - simpl. rewrite callGenerateText_unfold.
    set (st1 := mkRunState _ _ _).
    assert (H1 : extends st st1 [EvGenerate (name p) (PromptText prompt) options])
      by (split; reflexivity).
    destruct (fst (generateText p (PromptText prompt) options (world st)))
      as [answer|e].
    + destruct (nonEmpty answer && nonEmpty (trim answer)).
      * eexists _, st1, _. split; [reflexivity|]. split; [exact H1|].
        intros _. now exists [].
      * destruct (IH errors st1) as [r [st' [new [Hrun [Hext _]]]]].
        exists r, st', ([EvGenerate (name p) (PromptText prompt) options] ++ new).
        split; [exact Hrun|]. split; [eapply extends_trans; eauto|].
        intros _. now exists new.
    + unfold bind.
      destruct (backoff_extends (errorMessage e) st1)
        as [st2 [new1 [Hsleep [Hext1 _]]]].
      rewrite Hsleep.
      destruct (IH (errors ++ [(ModelProvider_value key ++ ": " ++ errorMessage e)%string]) st2)
        as [r [st' [new [Hrun [Hext _]]]]].
      exists r, st', ([EvGenerate (name p) (PromptText prompt) options] ++ new1 ++ new).
      split; [exact Hrun|]. split.
      * eapply extends_trans; [exact H1|]. eapply extends_trans; eauto.
      * intros _. now exists (new1 ++ new).
Qed.

(** On a vendor that always fails, the loop makes all its attempts and
    reports no success. *)
Lemma attemptLoop_alwaysFails (p : AIProvider) key prompt options :
  alwaysFails p ->
  forall remaining errors st,
  exists errors' st' new,
    attemptLoop p key prompt options remaining errors st
      = (Ok (None, errors'), st')
    /\ extends st st' new
    /\ vendorsCalled new = repeat (name p) remaining.
Proof.
  intros Hfail. induction remaining as [|n IH]; intros errors st.
  - exists errors, st, []. simpl. repeat split. now rewrite app_nil_r.
  - simpl. rewrite callGenerateText_unfold.
    set (st1 := mkRunState _ _ _).
    assert (H1 : extends st st1 [EvGenerate (name p) (PromptText prompt) options])
      by (split; reflexivity).
    pose proof (Hfail (PromptText prompt) options (world st)) as Hp.
    destruct (fst (generateText p (PromptText prompt) options (world st)))
      as [answer|e].
    + unfold usable in Hp. rewrite Hp.
      destruct (IH errors st1) as [errors' [st' [new [Hrun [Hext Hcalls]]]]].
      exists errors', st', ([EvGenerate (name p) (PromptText prompt) options] ++ new).
      split; [exact Hrun|]. split; [eapply extends_trans; eauto|].
      rewrite vendorsCalled_app, Hcalls. reflexivity.
    + unfold bind.
      destruct (backoff_extends (errorMessage e) st1)
        as [st2 [new1 [Hsleep [Hext1 Hnone]]]].
      rewrite Hsleep.
      destruct (IH (errors ++ [(ModelProvider_value key ++ ": " ++ errorMessage e)%string]) st2)
        as [errors' [st' [new [Hrun [Hext Hcalls]]]]].
      exists errors', st', ([EvGenerate (name p) (PromptText prompt) options] ++ new1 ++ new).
      split; [exact Hrun|]. split.
      * eapply extends_trans; [exact H1|]. eapply extends_trans; eauto.
      * rewrite !vendorsCalled_app, Hnone, Hcalls. reflexivity.
Qed.

(** On a vendor that always succeeds, the first attempt is the only one. *)
Lemma attemptLoop_alwaysSucceeds (p : AIProvider) key prompt options :
  alwaysSucceeds p ->
  forall n errors st,
  exists answer st',
    attemptLoop p key prompt options (S n) errors st
      = (Ok (Some (mkFallbackResult answer key), errors), st')
    /\ fst (generateText p (PromptText prompt) options (world st)) = Ok answer
    /\ extends st st' [EvGenerate (name p) (PromptText prompt) options].
Proof.
  intros Hok n errors st. simpl. rewrite callGenerateText_unfold.
  destruct (Hok (PromptText prompt) options (world st)) as [answer [Hans Huse]].
  rewrite Hans. unfold usable in Huse. rewrite Huse.
  eexists _, _. repeat split.
Qed.

(** The vendors of a failing prefix of the try order get two attempts
    each, and the loop goes on with the rest. *)
Lemma tryProviders_failing_prefix (reg : Registry) prompt options :
  forall failing rest errors st,
    Forall (fun key => exists p, getProvider reg key = Some p /\
                                 name p = key /\ alwaysFails p) failing ->
    exists errors' st' new,
      tryProviders reg prompt options (failing ++ rest) errors st
        = tryProviders reg prompt options rest errors' st'
      /\ extends st st' new
      /\ vendorsCalled new = flat_map (fun key => [key; key]) failing.
Proof.
  induction failing as [|key failing IH]; intros rest errors st Hall.
  - exists errors, st, []. repeat split. simpl. now rewrite app_nil_r.
  - inversion Hall as [|? ? [p [Hget [Hname Hfail]]] Hall']; subst.
    cbn [tryProviders app]. rewrite Hget. unfold bind.
    destruct (attemptLoop_alwaysFails p (name p) prompt options Hfail 2 errors st)
      as [errors1 [st1 [new1 [Hrun [Hext1 Hcalls1]]]]].
    rewrite Hrun.
    destruct (IH rest errors1 st1 Hall') as [errors' [st' [new [Hgo [Hext Hcalls]]]]].
    exists errors', st', (new1 ++ new). split; [exact Hgo|].
    split; [eapply extends_trans; eauto|].
    rewrite vendorsCalled_app, Hcalls1, Hcalls. reflexivity.
Qed.

(** C1, as the code has it, for the facade that falls back: when the
    vendors ahead of [winner] in the try order always fail and [winner]
    always succeeds, [generateWithFallback] returns the text [winner]
    produced, names [winner] as the vendor, makes exactly two attempts on
    each failed vendor and then one on [winner], and calls no vendor that
    comes later in the try order. *)
Theorem generateWithFallback_returns_first_success :
  forall (reg : Registry) (prompt : string) (options : option GenerateOptions)
         (preferred : option (list ModelProvider))
         (failing : list ModelProvider) (winner : ModelProvider)
         (later : list ModelProvider) (pw : AIProvider) (st : RunState),
    tryOrderOf preferred (getAvailableProviders reg) = failing ++ winner :: later ->
    Forall (fun key => exists p, getProvider reg key = Some p /\
                                 name p = key /\ alwaysFails p) failing ->
    getProvider reg winner = Some pw ->
    name pw = winner ->
    alwaysSucceeds pw ->
    exists answer st' new,
      generateWithFallback reg prompt options preferred st
        = (Ok (mkFallbackResult answer winner), st')
      /\ (exists w, fst (generateText pw (PromptText prompt) options w) = Ok answer)
      /\ events st' = events st ++ new
      /\ vendorsCalled new = flat_map (fun key => [key; key]) failing ++ [winner]
      /\ attempts new = 2 * List.length failing + 1.
Proof.
  intros reg prompt options preferred failing winner later pw st
         Horder Hfailed Hget Hname Hok.
  unfold generateWithFallback.
  destruct (getAvailableProviders reg) as [|a available] eqn:Havail.
  - rewrite tryOrderOf_nil in Horder. destruct failing; discriminate.
  - rewrite Horder. unfold bind.
    destruct (tryProviders_failing_prefix reg prompt options failing
                (winner :: later) [] st Hfailed)
      as [errors1 [st1 [new1 [Hgo [Hext1 Hcalls1]]]]].
    rewrite Hgo. cbn [tryProviders]. rewrite Hget. unfold bind.
    destruct (attemptLoop_alwaysSucceeds pw winner prompt options Hok 1 errors1 st1)
      as [answer [st' [Hrun [Hans Hext]]]].
    rewrite Hrun. unfold ret.
    exists answer, st', (new1 ++ [EvGenerate winner (PromptText prompt) options]).
    split; [reflexivity|]. split; [eauto|].
    assert (Hcalls : vendorsCalled (new1 ++ [EvGenerate winner (PromptText prompt) options])
                     = flat_map (fun key => [key; key]) failing ++ [winner]).
    { rewrite vendorsCalled_app, Hcalls1. reflexivity. }
    split.
    + rewrite Hname in Hext. exact (proj1 (extends_trans _ _ _ _ _ Hext1 Hext)).
    + split; [exact Hcalls|].
      rewrite attempts_vendorsCalled, Hcalls, length_app. simpl.
      assert (Hlen : forall l : list ModelProvider,
                 List.length (flat_map (fun key => [key; key]) l) = 2 * List.length l).
      { induction l as [|x l IHl]; simpl; [reflexivity | lia]. }
      rewrite Hlen. lia.
Qed.

End FallbackFacts.

(** C1 on three vendors: Groq is rate limited, DeepSeek answers blank
    text, Gemini answers. *)
Lemma generateWithFallback_returns_first_success_witness :
  exists answer st' new,
    @generateWithFallback Demo.host Demo.twoDownOneUp "hello" None
      (Some [GROQ; DEEPSEEK]) Demo.initialState
      = (Ok (mkFallbackResult answer GEMINI), st')
    /\ (exists w,
          fst (@generateText Demo.host
                 (Demo.answering GEMINI (fun _ _ => "third time lucky"%string))
                 (PromptText "hello") None w) = Ok answer)
    /\ @events Demo.host st' = @events Demo.host Demo.initialState ++ new
    /\ vendorsCalled new
       = flat_map (fun key => [key; key]) [GROQ; DEEPSEEK] ++ [GEMINI]
    /\ attempts new = 2 * List.length [GROQ; DEEPSEEK] + 1.
Proof.
  apply (@generateWithFallback_returns_first_success Demo.host
           Demo.twoDownOneUp "hello"%string None (Some [GROQ; DEEPSEEK])
           [GROQ; DEEPSEEK] GEMINI []
           (Demo.answering GEMINI (fun _ _ => "third time lucky"%string))
           Demo.initialState).
  - reflexivity.
  - constructor; [|constructor; [|constructor]].
    + exists (Demo.failing GROQ "429 rate limit"%string).
      split; [reflexivity|]. split; [reflexivity|].
      intros prompt options w. exact I.
    + exists (Demo.answering DEEPSEEK (fun _ _ => "   "%string)).
      split; [reflexivity|]. split; [reflexivity|].
      intros prompt options w. reflexivity.
  - reflexivity.
  - reflexivity.
  - intros prompt options w. eexists. split; reflexivity.
Defined.

(** C1, the claim as written fails for [generateWithBestModel]: with
    Mistral always failing and Gemini always succeeding, both configured,
    a writing request is sent to Mistral once, its error is the result,
    and Gemini is never tried. *)
Lemma generateWithBestModel_does_not_fall_back :
  @getAvailableProviders Demo.host Demo.mistralDown = [MISTRAL; GEMINI]
  /\ @alwaysFails Demo.host (Demo.failing MISTRAL "503 service unavailable")
  /\ @alwaysSucceeds Demo.host (Demo.answering GEMINI (fun _ _ => "a fine answer"%string))
  /\ exists st',
       @generateWithBestModel Demo.host Demo.mistralDown (PromptText "hello")
         writing None None Demo.initialState
       = (Throw (newError "503 service unavailable"), st')
       /\ vendorsCalled (@events Demo.host st') = [MISTRAL]
       /\ attempts (@events Demo.host st') = 1.
Proof.
  split; [reflexivity|]. split; [intros prompt options w; exact I|].
  split; [intros prompt options w; eexists; split; reflexivity|].
  eexists. split; [reflexivity|]. split; reflexivity.
Qed.

(** ** The declared order under a missing top preference *)

Section OrderFacts.
Context `{H : Host}.

Lemma mapGet_of_key (entries : list (ModelProvider * AIProvider)) key :
  In key (map fst entries) ->
  exists p, mapGet key entries = Some p /\ In (key, p) entries.
Proof.
  induction entries as [|[k v] entries IH]; simpl; [tauto|].
  intros Hin. destruct (ModelProvider_eqb k key) eqn:Hk.
  - apply ModelProvider_eqb_eq in Hk. subst. exists v. auto.
  - destruct Hin as [Heq | Hin].
    + apply ModelProvider_eqb_neq in Hk. contradiction.
    + destruct (IH Hin) as [p [Hget Hp]]. exists p. auto.
Qed.

(** An available vendor is in the map, under its own name when the map
    is well keyed. *)
Lemma getProvider_of_available (reg : Registry) key :
  wellKeyed reg ->
  In key (getAvailableProviders reg) ->
  exists p, getProvider reg key = Some p /\ name p = key.
Proof.
  intros Hkeys Hin. unfold getAvailableProviders in Hin.
  assert (Hin' : In key (map fst (providerInstances reg))).
  { apply in_map_iff in Hin. destruct Hin as [e [He Hf]].
    apply filter_In in Hf. apply in_map_iff. exists e. tauto. }
  destruct (mapGet_of_key _ _ Hin') as [p [Hget Hp]].
  exists p. split; [exact Hget|].
  unfold wellKeyed in Hkeys. rewrite Forall_forall in Hkeys.
  exact (Hkeys _ Hp).
Qed.

Lemma tryProviders_extends (reg : Registry) prompt options :
  forall order errors st,
  exists r st' new,
    tryProviders reg prompt options order errors st = (Ok r, st')
    /\ extends st st' new.
Proof.
  induction order as [|key order IH]; intros errors st.
  - exists (None, errors), st, []. split; [reflexivity | apply extends_refl].
  - cbn [tryProviders]. destruct (getProvider reg key) as [p|]; [|apply IH].
    unfold bind.
    destruct (attemptLoop_extends p key prompt options 2 errors st)
      as [[[res|] errors1] [st1 [new1 [Hrun [Hext1 _]]]]]; rewrite Hrun.
    + eexists _, st1, new1. split; [reflexivity | exact Hext1].
    + destruct (IH errors1 st1) as [r [st' [new [Hgo Hext]]]].
      exists r, st', (new1 ++ new). split; [exact Hgo|].
      eapply extends_trans; eauto.
Qed.

(** The first vendor of the try order that is in the map gets the first
    call of the facade. *)
Lemma generateWithFallback_first_call (reg : Registry) prompt options preferred
    key rest p (st : RunState) :
  tryOrderOf preferred (getAvailableProviders reg) = key :: rest ->
  getProvider reg key = Some p ->
  exists more,
    events (snd (generateWithFallback reg prompt options preferred st))
    = events st ++ EvGenerate (name p) (PromptText prompt) options :: more.
Proof.
  intros Horder Hget. unfold generateWithFallback.
  destruct (getAvailableProviders reg) as [|a available] eqn:Havail.
  - rewrite tryOrderOf_nil in Horder. discriminate.
  - rewrite Horder. cbn [tryProviders]. rewrite Hget. unfold bind.
    destruct (attemptLoop_extends p key prompt options 2 [] st)
      as [[[res|] errors1] [st1 [new1 [Hrun [Hext1 Hfirst]]]]]; rewrite Hrun.
    + destruct Hfirst as [more Hmore]; [congruence|]. subst new1.
      exists more. simpl. exact (proj1 Hext1).
    + destruct Hfirst as [more Hmore]; [congruence|]. subst new1.
      destruct (tryProviders_extends reg prompt options rest errors1 st1)
        as [[[res|] errors2] [st2 [new2 [Hgo Hext2]]]]; rewrite Hgo.
      * exists (more ++ new2). simpl.
        exact (proj1 (extends_trans _ _ _ _ _ Hext1 Hext2)).
      * exists (more ++ new2). simpl.
        exact (proj1 (extends_trans _ _ _ _ _ Hext1 Hext2)).
Qed.

Lemma firstSeen_cons a l : exists rest, firstSeen (a :: l) = a :: rest.
Proof.
  unfold firstSeen. cbn [fold_left]. rewrite fold_setAdd_split.
  unfold setAdd. cbn. eexists. reflexivity.
Qed.

(** C6: for the writing category, whose declared preference is Mistral,
    DeepSeek, Gemini, possibly followed by further vendors as in the
    writer call of the workflow: when Mistral is not configured the try
    order is the configured ones among the remaining preferred vendors, in
    their declared order, followed by the other configured vendors; it has
    no repetition and holds exactly the configured vendors.  When DeepSeek
    is configured it heads the try order, the first call of
    [generateWithFallback] and of the writer call goes to DeepSeek, and the
    router picks a DeepSeek model once one is flagged available. *)
Theorem writing_falls_back_in_declared_order :
  forall (reg : Registry) (prompt : string) (options : option GenerateOptions)
         (others : list ModelProvider) (st : RunState),
    wellKeyed reg ->
    includesProvider (getAvailableProviders reg) MISTRAL = false ->
    tryOrderOf (Some (TASK_MODEL_PRIORITY writing ++ others))
      (getAvailableProviders reg)
      = firstSeen (filter (includesProvider (getAvailableProviders reg))
                     (DEEPSEEK :: GEMINI :: others))
        ++ firstSeen (filter (fun p => negb (includesProvider
                                              (TASK_MODEL_PRIORITY writing ++ others) p))
                        (getAvailableProviders reg))
    /\ NoDup (tryOrderOf (Some (TASK_MODEL_PRIORITY writing ++ others))
                (getAvailableProviders reg))
    /\ (forall q, In q (tryOrderOf (Some (TASK_MODEL_PRIORITY writing ++ others))
                          (getAvailableProviders reg))
                  <-> In q (getAvailableProviders reg))
    /\ (includesProvider (getAvailableProviders reg) DEEPSEEK = true ->
        (exists rest,
           tryOrderOf (Some (TASK_MODEL_PRIORITY writing ++ others))
             (getAvailableProviders reg) = DEEPSEEK :: rest)
        /\ (exists more,
              events (snd (generateWithFallback reg prompt options
                             (Some (TASK_MODEL_PRIORITY writing ++ others)) st))
              = events st ++ EvGenerate DEEPSEEK (PromptText prompt) options :: more)
        /\ (forall bp styleContext persona description context_script,
            exists more,
              events (snd (writerCall reg bp styleContext persona description
                             context_script st))
              = events st
                ++ EvGenerate DEEPSEEK
                     (PromptText (writerPrompt bp styleContext description
                                    context_script))
                     (jsonOptions (writerSystemPrompt persona)) :: more)
        /\ (forall m, In m (models reg) -> provider m = DEEPSEEK ->
                      isAvailable m = true ->
                      exists m', selectBestModel (models reg) writing
                                   (getAvailableProviders reg) = Some m'
                                 /\ provider m' = DEEPSEEK)).
Proof.
  intros reg prompt options others st Hkeys Hmistral.
  assert (Horder : forall more,
    tryOrderOf (Some (TASK_MODEL_PRIORITY writing ++ more)) (getAvailableProviders reg)
    = firstSeen (filter (includesProvider (getAvailableProviders reg))
                   (DEEPSEEK :: GEMINI :: more))
      ++ firstSeen (filter (fun p => negb (includesProvider
                                            (TASK_MODEL_PRIORITY writing ++ more) p))
                      (getAvailableProviders reg))).
  { intros more. rewrite tryOrderOf_preferred_first.
    cbn [TASK_MODEL_PRIORITY app filter]. now rewrite Hmistral. }
  split; [apply Horder|]. split; [apply tryOrderOf_NoDup|].
  split; [intros q; apply tryOrderOf_In|].
  intros Hdeepseek.
  assert (Hhead : forall more, exists rest,
    tryOrderOf (Some (TASK_MODEL_PRIORITY writing ++ more)) (getAvailableProviders reg)
    = DEEPSEEK :: rest).
  { intros more. rewrite Horder. cbn [filter]. rewrite Hdeepseek.
    match goal with
    | |- context [firstSeen (DEEPSEEK :: ?l)] =>
        destruct (firstSeen_cons DEEPSEEK l) as [rest' ->]
    end.
    eexists. reflexivity. }
  destruct (getProvider_of_available reg DEEPSEEK Hkeys) as [p [Hget Hname]];
    [now apply includesProvider_In|].
  assert (Hcall : forall more text opts, exists evs,
    events (snd (generateWithFallback reg text opts
                   (Some (TASK_MODEL_PRIORITY writing ++ more)) st))
    = events st ++ EvGenerate DEEPSEEK (PromptText text) opts :: evs).
  { intros more text opts. destruct (Hhead more) as [rest Hrest].
    destruct (generateWithFallback_first_call reg text opts _ _ _ p st
                Hrest Hget) as [evs Hevs].
    exists evs. now rewrite Hname in Hevs. }
  split; [apply Hhead|]. split; [apply Hcall|]. split.
  - intros bp styleContext persona description context_script.
    apply (Hcall [GROQ]).
  - intros m Hin Hp Ha. unfold selectBestModel.
    cbn [TASK_MODEL_PRIORITY firstPreferredModel].
    rewrite Hmistral, Hdeepseek.
    destruct (findAvailableModel (models reg) DEEPSEEK) as [m'|] eqn:Hfind.
    + exists m'. split; [reflexivity|].
      now apply findAvailableModel_Some in Hfind.
    + rewrite (findAvailableModel_None _ _ _ Hfind Hin Hp) in Ha. discriminate.
Qed.

End OrderFacts.

(** C6 on the scenario of the specification: Gemini and DeepSeek have
    credentials, Mistral has none. *)
Lemma writing_falls_back_in_declared_order_witness :
  @getAvailableProviders Demo.host Demo.deepseekAndGemini = [GEMINI; DEEPSEEK]
  /\ tryOrderOf (Some (TASK_MODEL_PRIORITY writing)) [GEMINI; DEEPSEEK]
     = [DEEPSEEK; GEMINI]
  /\ exists more,
       @events Demo.host
         (snd (@generateWithFallback Demo.host Demo.deepseekAndGemini
                 "Write the opening scene" None
                 (Some (TASK_MODEL_PRIORITY writing ++ [])) Demo.initialState))
       = EvGenerate DEEPSEEK (PromptText "Write the opening scene") None :: more.
Proof.
  split; [reflexivity|]. split; [reflexivity|].
  assert (Hkeys : @wellKeyed Demo.host Demo.deepseekAndGemini)
    by (repeat constructor).
  destruct (@writing_falls_back_in_declared_order Demo.host
              Demo.deepseekAndGemini "Write the opening scene"%string None []
              Demo.initialState Hkeys eq_refl)
    as [_ [_ [_ Hfirst]]].
  destruct (Hfirst eq_refl) as [_ [Hcall _]].
  exact Hcall.
Defined.

(** ** Tolerant parsing: [safeParseJSON] *)

Section StringFacts.
Open Scope string_scope.

Lemma append_assoc (a b c : string) : (a ++ b) ++ c = a ++ (b ++ c).
Proof. induction a as [|x a IH]; simpl; [reflexivity | now rewrite IH]. Qed.

Lemma append_nil_r (a : string) : a ++ "" = a.
Proof. induction a as [|x a IH]; simpl; [reflexivity | now rewrite IH]. Qed.

Lemma rev_append_spec (s acc : string) : rev_append s acc = rev s ++ acc.
Proof.
  unfold rev. revert acc. induction s as [|c s IH]; intros acc; simpl;
    [reflexivity|].
  rewrite (IH (String c acc)), (IH (String c "")), append_assoc. reflexivity.
Qed.

Lemma rev_cons (c : ascii) (s : string) : rev (String c s) = rev s ++ String c "".
Proof. unfold rev at 1. simpl. apply rev_append_spec. Qed.

Lemma rev_app (a b : string) : rev (a ++ b) = rev b ++ rev a.
Proof.
  induction a as [|c a IH]; simpl.
  - now rewrite append_nil_r.
  - now rewrite !rev_cons, IH, append_assoc.
Qed.

Lemma rev_involutive (s : string) : rev (rev s) = s.
Proof.
  induction s as [|c s IH]; [reflexivity|].
  rewrite rev_cons, rev_app, IH. reflexivity.
Qed.

Lemma startsWith_app (p s : string) : startsWith p (p ++ s) = true.
Proof.
  induction p as [|c p IH]; simpl; [reflexivity|].
  now rewrite Ascii.eqb_refl, IH.
Qed.



Lemma startsWith_split (p s : string) :
  startsWith p s = true -> exists rest, s = p ++ rest.
Proof.
  revert s. induction p as [|c p IH]; intros s; simpl.
  - intros _. now exists s.
  - destruct s as [|d s]; [discriminate|].
    intros Hb. apply andb_true_iff in Hb. destruct Hb as [Hc Hp].
    apply Ascii.eqb_eq in Hc. destruct (IH _ Hp) as [rest ->].
    exists rest. now subst.
Qed.









End StringFacts.

Section LexerFacts.
Import Json.
Open Scope string_scope.

Ltac ascii_cases c := destruct c as [[|] [|] [|] [|] [|] [|] [|] [|]].

(** Between tokens a white-space character is skipped or refused. *)
Lemma startStep_space (c : ascii) r :
  isSpace c = true -> startStep c = Some r -> r = ([], LStart).
Proof.
  ascii_cases c; intros Hs; vm_compute in Hs; try discriminate;
    vm_compute; intros Heq; congruence.
Qed.

Lemma startStep_not_space (c : ascii) r :
  startStep c = Some r -> isSpace c = false \/ r = ([], LStart).
Proof.
  intros Hr. destruct (isSpace c) eqn:Hs; [right | now left].
  eapply startStep_space; eauto.
Qed.



















End LexerFacts.



(** ** The workflow: what each step does to the run state *)

Section StepFacts.
Context `{H : Host}.
Open Scope run_scope.

Lemma bind_Ok {A B} (m : M A) (k : A -> M B) (st : RunState) b st' :
  bind m k st = (Ok b, st') ->
  exists a st1, m st = (Ok a, st1) /\ k a st1 = (Ok b, st').
Proof.
  unfold bind. destruct (m st) as [[a|e] st1]; [|discriminate].
  intros Hk. now exists a, st1.
Qed.

Section Keeps.
Variable R : RunState -> RunState -> Prop.
Hypothesis R_refl : forall st, R st st.
Hypothesis R_trans : forall a b c, R a b -> R b c -> R a c.

Lemma keeps_ret {A} (a : A) : keeps R (ret a).
Proof. intros st r st' Heq. injection Heq as <- <-. apply R_refl. Qed.

Lemma keeps_throw {A} (e : JSError) : keeps R (@throw _ A e).
Proof. intros st r st' Heq. injection Heq as <- <-. apply R_refl. Qed.

Lemma keeps_bind {A B} (m : M A) (k : A -> M B) :
  keeps R m -> (forall a, keeps R (k a)) -> keeps R (bind m k).
Proof.
  intros Hm Hk st r st'. unfold bind.
  destruct (m st) as [[a|e] st1] eqn:Hrun.
  - intros Hrest. eapply R_trans; [eapply Hm | eapply Hk]; eauto.
  - intros Heq. injection Heq as <- <-. eapply Hm; eauto.
Qed.

Lemma keeps_getProp v key : keeps R (getProp v key).
Proof. destruct v; simpl; (apply keeps_ret || apply keeps_throw). Qed.

Lemma keeps_promiseAll2 {A B} (a : M A) (b : M B) :
  keeps R a -> keeps R b -> keeps R (promiseAll2 a b).
Proof.
  intros Ha Hb st r st'. unfold promiseAll2.
  destruct (a st) as [ra st1] eqn:Hra. destruct (b st1) as [rb st2] eqn:Hrb.
  intros Heq.
  assert (Hst : st' = st2) by (destruct ra, rb; now injection Heq).
  subst st'. eapply R_trans; [eapply Ha | eapply Hb]; eauto.
Qed.

End Keeps.

Lemma sameEvents_refl st : sameEvents st st.
Proof. reflexivity. Qed.

Lemma sameEvents_trans a b c : sameEvents a b -> sameEvents b c -> sameEvents a c.
Proof. unfold sameEvents. congruence. Qed.

Lemma sameFailures_refl st : sameFailures st st.
Proof. reflexivity. Qed.

Lemma sameFailures_trans a b c :
  sameFailures a b -> sameFailures b c -> sameFailures a c.
Proof. unfold sameFailures. congruence. Qed.

Lemma sameLogs_refl st : sameLogs st st.
Proof. reflexivity. Qed.

Lemma sameLogs_trans a b c : sameLogs a b -> sameLogs b c -> sameLogs a c.
Proof. unfold sameLogs. congruence. Qed.

Lemma sameLogs_sameFailures st st' : sameLogs st st' -> sameFailures st st'.
Proof. unfold sameLogs, sameFailures. now intros ->. Qed.

Lemma failedCount_app (a b : list AgentLog) :
  failedCount (a ++ b) = failedCount a + failedCount b.
Proof. unfold failedCount. now rewrite filter_app, length_app. Qed.

(** [log] always returns; it appends one entry, with the agent, message,
    metadata and status it was given, and makes no call. *)
Lemma log_spec who text meta stat model (st : RunState) :
  exists entry st',
    log who text meta stat model st = (Ok tt, st')
    /\ logs st' = logs st ++ [entry]
    /\ events st' = events st
    /\ agent entry = who /\ message entry = text
    /\ metadata entry = meta /\ status entry = stat.
Proof.
  unfold log, bind, liftWorld, onLog.
  destruct (randomId (world st)) as [id w1] eqn:Hid. simpl.
  destruct (dateNow w1) as [now w2] eqn:Hnow. simpl.
  eexists _, _. repeat split.
Qed.

Lemma keeps_log_sameEvents who text meta stat model :
  keeps sameEvents (log who text meta stat model).
Proof.
  intros st r st' Hrun.
  destruct (log_spec who text meta stat model st) as [entry [st1 [Hlog [_ [Hev _]]]]].
  rewrite Hlog in Hrun. injection Hrun as <- <-. exact Hev.
Qed.

Lemma keeps_log_sameFailures who text meta stat model :
  stat <> failed -> keeps sameFailures (log who text meta stat model).
Proof.
  intros Hstat st r st' Hrun.
  destruct (log_spec who text meta stat model st)
    as [entry [st1 [Hlog [Hlogs [_ [_ [_ [_ Hs]]]]]]]].
  rewrite Hlog in Hrun. injection Hrun as <- <-.
  unfold sameFailures. rewrite Hlogs, failedCount_app.
  unfold failedCount at 2. simpl. rewrite Hs.
  destruct stat; simpl; try lia. congruence.
Qed.


Lemma keeps_generateWithFallback_sameLogs reg prompt options preferred :
  keeps sameLogs (generateWithFallback reg prompt options preferred).
Proof.
  intros st r st'. unfold generateWithFallback.
  destruct (getAvailableProviders reg) as [|a available].
  - intros Heq. injection Heq as <- <-. reflexivity.
  - unfold bind.
    destruct (tryProviders_extends reg prompt options
                (tryOrderOf preferred (a :: available)) [] st)
      as [[res errors] [st1 [new [Hrun [_ Hlogs]]]]].
    rewrite Hrun. destruct res; intros Heq; injection Heq as <- <-; exact Hlogs.
Qed.

Lemma keeps_generateWithFallback_sameFailures reg prompt options preferred :
  keeps sameFailures (generateWithFallback reg prompt options preferred).
Proof.
  intros st r st' Hrun. apply sameLogs_sameFailures.
  eapply keeps_generateWithFallback_sameLogs; eauto.
Qed.

End StepFacts.

(** ** Planning from an approved blueprint *)

Section PlanningFacts.
Context `{H : Host}.

(** C4: when the project carries an approved blueprint, the planning
    phase returns the plan derived from it and makes no model call; the
    plan has one task per section of type chapter, in the order of the
    sections, each with the role WRITER and the title and description of
    its chapter; and the run executes exactly that plan. *)
Theorem blueprint_plan_has_one_writer_task_per_chapter :
  forall (reg : Registry) (userRequest : string) (project : Project.t)
         (bp : Blueprint.t) (blueprint : option Blueprint.t) (st : RunState),
    Project.blueprint project = Some bp ->
    exists st1,
      planningPhase reg userRequest project st
        = (Ok (Plan (blueprintTasks bp) (blueprintStyle bp)), st1)
      /\ events st1 = events st
      /\ List.length (blueprintTasks bp)
         = List.length (filter isChapterSection (Blueprint.sections bp))
      /\ (forall s, In s (filter isChapterSection (Blueprint.sections bp))
                    <-> In s (Blueprint.sections bp)
                        /\ BlueprintSection.type s = SectionChapter)
      /\ (forall i s,
            nth_error (filter isChapterSection (Blueprint.sections bp)) i = Some s ->
            exists task,
              nth_error (blueprintTasks bp) i = Some task
              /\ taskField task "role" = Some (JString "WRITER")
              /\ taskField task "title"
                 = Some (JString (BlueprintSection.title s))
              /\ taskField task "description"
                 = Some (JString ("Write " ++ BlueprintSection.title s ++ ". " ++
                                  BlueprintSection.description s)%string))
      /\ runMultiAgentWorkflow reg userRequest project blueprint st
         = match executionPhase reg project (blueprintTasks bp)
                   (blueprintStyle bp) st1 with
           | (Ok _, locals, st2) => (newBlocks locals, st2)
           | (Throw e, locals, st2) =>
               (newBlocks locals, snd (workflowCatch e st2))
           end.
Proof.
  intros reg userRequest project bp blueprint st Hbp.
  destruct (log_spec (roleValue ARCHITECT) "Using approved blueprint plan."
              undefined success None st)
    as [entry [st1 [Hlog [_ [Hev _]]]]].
  assert (Hplan : planningPhase reg userRequest project st
                  = (Ok (Plan (blueprintTasks bp) (blueprintStyle bp)), st1)).
  { unfold planningPhase. rewrite Hbp. unfold bind. now rewrite Hlog. }
  exists st1. split; [exact Hplan|]. split; [exact Hev|].
  split; [apply length_map|]. split.
  - intros s. rewrite filter_In. unfold isChapterSection.
    destruct (BlueprintSection.type s); intuition congruence.
  - split.
    + intros i s Hnth. exists (blueprintTask bp s). split.
      * unfold blueprintTasks. now rewrite nth_error_map, Hnth.
      * repeat split.
    + unfold runMultiAgentWorkflow. now rewrite Hplan.
Qed.

End PlanningFacts.

(** C4 on a blueprint of two chapters with a scene between them. *)
Lemma blueprint_plan_has_one_writer_task_per_chapter_witness :
  exists st1,
    @planningPhase Demo.host Demo.departureBlank "Generate the book"
      Demo.stormProject Demo.initialState
    = (Ok (Plan (blueprintTasks Demo.stormBlueprint)
             (blueprintStyle Demo.stormBlueprint)), st1)
    /\ @events Demo.host st1 = []
    /\ map (fun task => taskField task "title")
         (blueprintTasks Demo.stormBlueprint)
       = [Some (JString "Chapter 1: Departure");
          Some (JString "Chapter 2: The Storm")].
Proof.
  destruct (@blueprint_plan_has_one_writer_task_per_chapter Demo.host
              Demo.departureBlank "Generate the book"%string Demo.stormProject
              Demo.stormBlueprint None Demo.initialState eq_refl)
    as [st1 [Hplan [Hev _]]].
  exists st1. split; [exact Hplan|]. split; [exact Hev | reflexivity].
Defined.

(** ** The execution loop: classification and chapter numbers *)

Section ExecutionFacts.
Context `{H : Host}.
Open Scope run_scope.

Lemma isChapterTask_Ok description title (st : RunState) b st' :
  isChapterTask description title st = (Ok b, st') ->
  st' = st /\ exists d, description = Some (JString d)
                        /\ b = mentionsChapter d || titleMentionsChapter title.
Proof.
  unfold isChapterTask.
  destruct description as [[| | |d| |]|]; try discriminate.
  destruct (mentionsChapter d) eqn:Hd.
  - intros Heq. injection Heq as <- <-. split; [reflexivity|].
    exists d. now rewrite Hd.
  - destruct title as [[| | |t| |]|]; try discriminate;
      intros Heq; injection Heq as <- <-; (split; [reflexivity|]);
      exists d; now rewrite Hd.
Qed.

Lemma getProp_Ok v key (st : RunState) x st' :
  getProp v key st = (Ok x, st') -> st' = st /\ x = taskField v key.
Proof.
  destruct v; simpl; try discriminate;
    intros Heq; injection Heq as <- <-; split; reflexivity.
Qed.

Lemma isString_eq literal v :
  isString literal v = true -> v = Some (JString literal).
Proof.
  destruct v as [[| | |s| |]|]; simpl; try discriminate.
  intros Heq. apply String.eqb_eq in Heq. now subst.
Qed.

(** The second half of a writer iteration, when it completes, pushes one
    block: the draft, classified by the task's description and title. *)
Lemma finishDraft_Ok reg bp task writerResult output contentStr locals
    (st : RunState) locals' st' :
  finishDraft reg bp task writerResult output contentStr locals st
    = (Ok locals', st') ->
  exists id d,
    taskField task "description" = Some (JString d)
    /\ locals' = integrate locals id
                   (mentionsChapter d || titleMentionsChapter (taskField task "title"))
                   contentStr (providerName writerResult) (Some (JString d))
                   (taskField task "title").
Proof.
  unfold finishDraft. intros Hrun.
  apply bind_Ok in Hrun. destruct Hrun as [description [s1 [Hd Hrun]]].
  apply bind_Ok in Hrun. destruct Hrun as [helper [s2 [_ Hrun]]].
  apply bind_Ok in Hrun. destruct Hrun as [u1 [s3 [_ Hrun]]].
  apply bind_Ok in Hrun. destruct Hrun as [u2 [s4 [_ Hrun]]].
  apply bind_Ok in Hrun. destruct Hrun as [u3 [s5 [_ Hrun]]].
  apply bind_Ok in Hrun. destruct Hrun as [validation [s6 [_ Hrun]]].
  apply bind_Ok in Hrun. destruct Hrun as [u4 [s7 [_ Hrun]]].
  apply bind_Ok in Hrun. destruct Hrun as [title [s8 [Ht Hrun]]].
  apply bind_Ok in Hrun. destruct Hrun as [isChapter [s9 [Hclass Hrun]]].
  apply bind_Ok in Hrun. destruct Hrun as [id [s10 [_ Hrun]]].
  apply getProp_Ok in Hd. destruct Hd as [_ ->].
  apply getProp_Ok in Ht. destruct Ht as [_ ->].
  apply isChapterTask_Ok in Hclass. destruct Hclass as [_ [d [Hdesc ->]]].
  injection Hrun as <- _. exists id, d. split; [exact Hdesc|].
  now rewrite Hdesc.
Qed.

(** An iteration that completes leaves the locals as they were or pushes
    one block with non-empty content for a task with the role WRITER. *)
Lemma executeTask_Ok reg bp styleContext persona task locals
    (st : RunState) locals' st' :
  executeTask reg bp styleContext persona task locals st = (Ok locals', st') ->
  locals' = locals
  \/ exists id d contentStr vendor,
       taskField task "role" = Some (JString "WRITER")
       /\ taskField task "description" = Some (JString d)
       /\ nonEmpty contentStr = true
       /\ locals' = integrate locals id
                      (mentionsChapter d
                       || titleMentionsChapter (taskField task "title"))
                      contentStr vendor (Some (JString d))
                      (taskField task "title").
Proof.
  unfold executeTask. intros Hrun.
  apply bind_Ok in Hrun. destruct Hrun as [role [s1 [Hann Hrun]]].
  assert (Hrole : role = taskField task "role").
  { unfold announceTask in Hann.
    apply bind_Ok in Hann. destruct Hann as [r [s2 [Hr Hann]]].
    apply bind_Ok in Hann. destruct Hann as [d [s3 [_ Hann]]].
    apply bind_Ok in Hann. destruct Hann as [u [s4 [_ Hann]]].
    apply getProp_Ok in Hr. destruct Hr as [_ ->]. now injection Hann as <- _. }
  destruct (isString "WRITER" role) eqn:Hw.
  - apply isString_eq in Hw. rewrite Hrole in Hw.
    unfold executeWriterTask in Hrun.
    apply bind_Ok in Hrun.
    destruct Hrun as [[[writerResult output] contentStr] [s2 [_ Hrun]]].
    destruct (nonEmpty contentStr) eqn:Hne; cbn [negb] in Hrun.
    + right. apply finishDraft_Ok in Hrun. destruct Hrun as [id [d [Hd ->]]].
      now exists id, d, contentStr, (providerName writerResult).
    + left. apply bind_Ok in Hrun. destruct Hrun as [u [s3 [_ Hrun]]].
      now injection Hrun as <- _.
  - left. now injection Hrun as <- _.
Qed.




Lemma EmittedInOrder_none tasks : EmittedInOrder tasks [].
Proof. induction tasks; constructor; assumption. Qed.

(** The blocks the loop adds come from its tasks, in their order. *)
Lemma executionLoop_emits_in_order reg bp styleContext persona tasks :
  forall locals (st : RunState) r locals' st',
    executionLoop reg bp styleContext persona tasks locals st = (r, locals', st') ->
    exists added,
      newBlocks locals' = newBlocks locals ++ added
      /\ EmittedInOrder tasks added.
Proof.
  induction tasks as [|task tasks IH]; intros locals st r locals' st';
    cbn [executionLoop].
  - intros Heq. injection Heq as _ <- _. exists []. split;
      [now rewrite app_nil_r | constructor].
  - destruct (executeTask reg bp styleContext persona task locals st)
      as [[locals1|e] st1] eqn:Hstep.
    + intros Hrest. destruct (IH _ _ _ _ _ Hrest) as [added [Hadded Hord]].
      apply executeTask_Ok in Hstep.
      destruct Hstep as [-> | [id [d [c [vendor [Hrole [Hd [_ ->]]]]]]]].
      * exists added. split; [exact Hadded | now constructor].
      * eexists (_ :: added). split.
        -- rewrite Hadded. unfold integrate. cbn [newBlocks].
           rewrite <- app_assoc. reflexivity.
        -- apply emitted_push; [|exact Hord]. split; [exact Hrole|].
           eexists. split; [reflexivity|]. cbn. now rewrite Hd.
    + intros Heq. injection Heq as _ <- _. exists []. split;
        [now rewrite app_nil_r | apply EmittedInOrder_none].
Qed.


(** A run that returns a block had a plan with at least one task. *)
Lemma blocks_need_tasks reg userRequest project blueprint (st : RunState) :
  fst (runMultiAgentWorkflow reg userRequest project blueprint st) <> [] ->
  exists task tasks styleContext st1,
    planningPhase reg userRequest project st
      = (Ok (Plan (task :: tasks) styleContext), st1).
Proof.
  unfold runMultiAgentWorkflow.
  destruct (planningPhase reg userRequest project st)
    as [[[|[|task tasks] style]|e] s1]; cbn [fst]; try congruence.
  - unfold executionPhase.
    destruct (announcePersona (personaOf project) s1) as [[u|e] s2];
      cbn; congruence.
  - intros _. now exists task, tasks, style, s1.
Qed.

End ExecutionFacts.

(** ** Planning without a blueprint *)

(** C2: a run whose planning gives no task returns no block, whatever
    the vendors do.  But it is not reported as a failure when the plan is
    unparseable or empty.  At a text that is not JSON the tolerant parser
    substitutes the empty plan, and at a well-formed plan of no task the
    list is empty: in both runs the plan is logged as created, with 0 tasks
    and the status success, and no entry has the status failed.  Only a
    parsed value without a [tasks] array is reported as a failure. *)
Theorem unparseable_plan_is_reported_as_created :
  (forall (H : Host) (reg : Registry) (userRequest : string)
          (project : Project.t) (blueprint : option Blueprint.t)
          (st : RunState),
      (forall task tasks styleContext st1,
          planningPhase reg userRequest project st
          <> (Ok (Plan (task :: tasks) styleContext), st1)) ->
      fst (runMultiAgentWorkflow reg userRequest project blueprint st) = [])
  /\ Json.parse (cleanText "Sorry, I cannot plan this book.") = None
  /\ fst (@runMultiAgentWorkflow Demo.host Demo.proseArchitect
            "Write a book about the sea" Demo.plainProject None
            Demo.initialState) = []
  /\ @journal Demo.host
       (@runMultiAgentWorkflow Demo.host Demo.proseArchitect
          "Write a book about the sea" Demo.plainProject None
          Demo.initialState)
     = [ (roleValue PROJECT_MANAGER,
          "Initiating Parallel Planning Phase..."%string, thinking);
         (roleValue ARCHITECT, "Structuring narrative arc..."%string, thinking);
         (roleValue VISIONARY, "Defining stylistic palette..."%string, thinking);
         (roleValue ARCHITECT, "Plan created with 0 tasks."%string, success);
         (roleValue VISIONARY, "Style guide established."%string, success) ]
  /\ failedCount
       (@logs Demo.host
          (snd (@runMultiAgentWorkflow Demo.host Demo.proseArchitect
                  "Write a book about the sea" Demo.plainProject None
                  Demo.initialState))) = 0
  /\ Json.parse (cleanText (Demo.planText []))
     = Some (JObject [("tasks"%string, JArray [])])
  /\ @journal Demo.host
       (@runMultiAgentWorkflow Demo.host Demo.emptyPlanArchitect
          "Write a book about the sea" Demo.plainProject None
          Demo.initialState)
     = @journal Demo.host
         (@runMultiAgentWorkflow Demo.host Demo.proseArchitect
            "Write a book about the sea" Demo.plainProject None
            Demo.initialState)
  /\ @journal Demo.host
       (@runMultiAgentWorkflow Demo.host Demo.shapelessArchitect
          "Write a book about the sea" Demo.plainProject None
          Demo.initialState)
     = [ (roleValue PROJECT_MANAGER,
          "Initiating Parallel Planning Phase..."%string, thinking);
         (roleValue ARCHITECT, "Structuring narrative arc..."%string, thinking);
         (roleValue VISIONARY, "Defining stylistic palette..."%string, thinking);
         (roleValue ARCHITECT, "Failed to generate a valid plan."%string,
          failed) ].
Proof.
  split.
  - intros H reg userRequest project blueprint st Hnone.
    destruct (fst (runMultiAgentWorkflow reg userRequest project blueprint st))
      as [|b blocks] eqn:Hrun; [reflexivity|].
    destruct (blocks_need_tasks reg userRequest project blueprint st)
      as [task [tasks [style [st1 Hplan]]]]; [rewrite Hrun; discriminate|].
    now apply Hnone in Hplan.
  - repeat match goal with
           | |- _ /\ _ => split; [vm_compute; reflexivity|]
           end.
    vm_compute. reflexivity.
Qed.

(** Numbers follow the production order, not the titles: of a chapter, an
    interlude and a section whose title alone says chapter, the first and
    the third are chapters 1 and 2. *)
Example interlude_is_not_numbered :
  map (fun b => (ContentBlock.type b, chapterNumberOf b, ContentBlock.content b))
    (fst (@runMultiAgentWorkflow Demo.host Demo.interludePlan
            "Write a book about the sea" Demo.plainProject None
            Demo.initialState))
  = [ (CHAPTER, Some 1%Z, "The sea was calm."%string);
      (TEXT, None, "The sea was calm."%string);
      (CHAPTER, Some 2%Z, "The sea was calm."%string) ].
Proof. vm_compute. reflexivity. Qed.

(** ** The execution loop: a task without content *)

Section EmptyContentFacts.
Context `{H : Host}.
Open Scope run_scope.

Lemma keeps_liftWorld_sameFailures {A} (f : World -> A * World) :
  keeps sameFailures (liftWorld f).
Proof.
  intros st r st'. unfold liftWorld. destruct (f (world st)) as [a w].
  intros Heq. injection Heq as <- <-. reflexivity.
Qed.

Lemma keeps_isChapterTask_sameFailures description title :
  keeps sameFailures (isChapterTask description title).
Proof.
  unfold isChapterTask.
  destruct description as [[| | |d| |]|];
    try apply (keeps_throw _ sameFailures_refl).
  destruct (mentionsChapter d); [apply (keeps_ret _ sameFailures_refl)|].
  destruct title as [[| | |t| |]|];
    (apply (keeps_ret _ sameFailures_refl)
     || apply (keeps_throw _ sameFailures_refl)).
Qed.

Lemma keeps_issuesJoined_sameFailures issues :
  keeps sameFailures (issuesJoined issues).
Proof.
  destruct issues as [[| | | | |]|]; simpl;
    (apply (keeps_ret _ sameFailures_refl)
     || apply (keeps_throw _ sameFailures_refl)).
Qed.

Ltac quiet :=
  repeat first
    [ apply keeps_log_sameFailures; discriminate
    | apply keeps_generateWithFallback_sameFailures
    | apply keeps_liftWorld_sameFailures
    | apply (keeps_bind _ sameFailures_trans)
    | apply (keeps_ret _ sameFailures_refl)
    | apply (keeps_throw _ sameFailures_refl)
    | apply (keeps_getProp _ sameFailures_refl)
    | apply (keeps_promiseAll2 _ sameFailures_trans)
    | apply keeps_isChapterTask_sameFailures
    | apply keeps_issuesJoined_sameFailures
    | match goal with
      | |- forall _, _ => intro
      | |- keeps _ (if ?b then _ else _) => destruct b
      end ].

Lemma keeps_logValidation_sameFailures criticResult consistencyResult :
  keeps sameFailures (logValidation criticResult consistencyResult).
Proof. unfold logValidation. quiet. Qed.










End EmptyContentFacts.


(** ** The provider map: registration and lookup *)

Section MapFacts.
Context `{H : Host}.

Lemma mapGet_mapSet_same key v (entries : list (ModelProvider * AIProvider)) :
  mapGet key (mapSet key v entries) = Some v.
Proof.
  induction entries as [|[k x] entries IH]; simpl.
  - now rewrite ModelProvider_eqb_refl.
  - destruct (ModelProvider_eqb k key) eqn:Hk; simpl.
    + now rewrite ModelProvider_eqb_refl.
    + now rewrite Hk.
Qed.

Lemma mapGet_mapSet_other key k v (entries : list (ModelProvider * AIProvider)) :
  k <> key -> mapGet k (mapSet key v entries) = mapGet k entries.
Proof.
  intros Hne. induction entries as [|[k' x] entries IH]; simpl.
  - assert (Hb : ModelProvider_eqb key k = false)
      by (apply ModelProvider_eqb_neq; congruence).
    now rewrite Hb.
  - destruct (ModelProvider_eqb k' key) eqn:Hk; simpl.
    + apply ModelProvider_eqb_eq in Hk. subst k'.
      assert (Hb : ModelProvider_eqb key k = false)
        by (apply ModelProvider_eqb_neq; congruence).
      now rewrite Hb.
    + destruct (ModelProvider_eqb k' k); [reflexivity | exact IH].
Qed.

Lemma mapGet_Some_In key v (entries : list (ModelProvider * AIProvider)) :
  mapGet key entries = Some v -> In (key, v) entries.
Proof.
  induction entries as [|[k x] entries IH]; simpl; [discriminate|].
  destruct (ModelProvider_eqb k key) eqn:Hk.
  - apply ModelProvider_eqb_eq in Hk. intros Heq. injection Heq as ->.
    subst. now left.
  - intros Hget. right. now apply IH.
Qed.

Lemma mapGet_None_not_key key (entries : list (ModelProvider * AIProvider)) :
  mapGet key entries = None -> ~ In key (map fst entries).
Proof.
  intros Hnone Hin. destruct (mapGet_of_key _ _ Hin) as [p [Hget _]].
  congruence.
Qed.

Lemma mapGet_In_NoDup key v (entries : list (ModelProvider * AIProvider)) :
  NoDup (map fst entries) -> In (key, v) entries -> mapGet key entries = Some v.
Proof.
  induction entries as [|[k x] entries IH]; simpl; [tauto|].
  intros Hnd Hin. inversion Hnd as [|? ? Hnotin Hnd']; subst.
  destruct Hin as [Heq | Hin].
  - injection Heq as -> ->. now rewrite ModelProvider_eqb_refl.
  - destruct (ModelProvider_eqb k key) eqn:Hk.
    + apply ModelProvider_eqb_eq in Hk. subst k. exfalso. apply Hnotin.
      apply in_map_iff. now exists (key, v).
    + now apply IH.
Qed.

(** A name that is not in the map goes to its end. *)
Lemma mapSet_new key v (entries : list (ModelProvider * AIProvider)) :
  mapGet key entries = None -> mapSet key v entries = entries ++ [(key, v)].
Proof.
  induction entries as [|[k x] entries IH]; simpl; [reflexivity|].
  destruct (ModelProvider_eqb k key); [discriminate|].
  intros Hnone. now rewrite IH.
Qed.

(** A name that is in the map keeps its place; its instance is replaced. *)
Lemma mapSet_existing key v old (entries : list (ModelProvider * AIProvider)) :
  mapGet key entries = Some old ->
  exists before after,
    entries = before ++ (key, old) :: after
    /\ mapSet key v entries = before ++ (key, v) :: after.
Proof.
  induction entries as [|[k x] entries IH]; simpl; [discriminate|].
  destruct (ModelProvider_eqb k key) eqn:Hk.
  - apply ModelProvider_eqb_eq in Hk. subst k.
    intros Heq. injection Heq as ->. now exists [], entries.
  - intros Hget. destruct (IH Hget) as [before [after [-> ->]]].
    now exists ((k, x) :: before), after.
Qed.

Lemma mapSet_names key v (entries : list (ModelProvider * AIProvider)) :
  map fst (mapSet key v entries)
  = if includesProvider (map fst entries) key then map fst entries
    else map fst entries ++ [key].
Proof.
  destruct (mapGet key entries) as [old|] eqn:Hget.
  - destruct (mapSet_existing key v old entries Hget)
      as [before [after [Hentries Hset]]].
    assert (Hin : includesProvider (map fst entries) key = true).
    { apply includesProvider_In. apply in_map_iff. exists (key, old).
      split; [reflexivity | now apply mapGet_Some_In]. }
    rewrite Hin, Hset, Hentries, !map_app. reflexivity.
  - assert (Hout : includesProvider (map fst entries) key = false).
    { apply includesProvider_not_In. now apply mapGet_None_not_key. }
    rewrite Hout, (mapSet_new _ _ _ Hget), map_app. reflexivity.
Qed.

(** X1: Lookup after registration: [getProvider] gives the instance that was
    registered under its name, whatever stood there before; the other
    names and the model table are unchanged. *)
Theorem getProvider_after_registerProvider :
  forall (p : AIProvider) (reg : Registry) (key : ModelProvider),
    getProvider (registerProvider p reg) (name p) = Some p
    /\ (key <> name p ->
        getProvider (registerProvider p reg) key = getProvider reg key)
    /\ models (registerProvider p reg) = models reg.
Proof.
  intros p reg key. unfold getProvider, registerProvider. cbn [providerInstances models].
  split; [apply mapGet_mapSet_same|]. split; [|reflexivity].
  intros Hne. now apply mapGet_mapSet_other.
Qed.

(** X2: The listing order is the order of first registration: a vendor
    registered under a new name is listed after the others, when it is
    configured; registering again under a name already in the map leaves
    every vendor at its place, and the listing as it was when the new
    instance is configured like the old one. *)
Theorem registerProvider_keeps_first_registration_order :
  forall (p : AIProvider) (reg : Registry),
    (getProvider reg (name p) = None ->
     getAvailableProviders (registerProvider p reg)
     = getAvailableProviders reg ++ (if isConfigured p then [name p] else []))
    /\ (forall old,
          getProvider reg (name p) = Some old ->
          registeredNames (registerProvider p reg) = registeredNames reg
          /\ (isConfigured old = isConfigured p ->
              getAvailableProviders (registerProvider p reg)
              = getAvailableProviders reg)).
Proof.
  intros p reg.
  unfold getProvider, getAvailableProviders, registerProvider, registeredNames.
  cbn [providerInstances]. split.
  - intros Hnone. rewrite (mapSet_new _ _ _ Hnone), filter_app, map_app.
    cbn [filter snd]. now destruct (isConfigured p).
  - intros old Hget.
    destruct (mapSet_existing (name p) p old _ Hget)
      as [before [after [Hentries Hset]]].
    rewrite Hset, Hentries. split.
    + rewrite !map_app. reflexivity.
    + intros Hsame. rewrite !filter_app, !map_app. cbn [filter snd].
      rewrite Hsame. now destruct (isConfigured p).
Qed.

Lemma NoDup_map_fst_filter {A B} (f : A * B -> bool) (l : list (A * B)) :
  NoDup (map fst l) -> NoDup (map fst (filter f l)).
Proof.
  induction l as [|x l IH]; simpl; [constructor|].
  intros Hnd. inversion Hnd as [|? ? Hnotin Hnd']; subst.
  destruct (f x); simpl; [|now apply IH].
  constructor; [|now apply IH].
  intros Hin. apply Hnotin. apply in_map_iff in Hin.
  destruct Hin as [e [He Hf]]. apply filter_In in Hf.
  apply in_map_iff. exists e. tauto.
Qed.

Lemma identity_setAvailability p flag m :
  identity (setAvailability p flag m) = identity m.
Proof.
  unfold setAvailability. now destruct (ModelProvider_eqb (provider m) p).
Qed.

(** X3: In every state the module can reach, each instance sits under its own
    name and no name occurs twice; hence the list of available vendors has
    no repetition and holds exactly the names whose instance is
    configured.  The table keeps its seven models in their order: only
    their flags ever change. *)
Theorem reachable_registry_is_well_formed :
  forall reg : Registry,
    Reachable reg ->
    wellKeyed reg
    /\ NoDup (registeredNames reg)
    /\ NoDup (getAvailableProviders reg)
    /\ (forall key,
          In key (getAvailableProviders reg)
          <-> exists p, getProvider reg key = Some p
                        /\ name p = key /\ isConfigured p = true)
    /\ map identity (models reg) = map identity MODEL_REGISTRY.
Proof.
  intros reg Hreach.
  assert (Hinv : wellKeyed reg /\ NoDup (registeredNames reg)
                 /\ map identity (models reg) = map identity MODEL_REGISTRY).
  { induction Hreach as [|p reg Hreach [Hkeys [Hnd Htable]]
                          |p flag reg Hreach [Hkeys [Hnd Htable]]].
    - split; [constructor|]. split; [constructor | reflexivity].
    - unfold wellKeyed, registeredNames, registerProvider in *.
      cbn [providerInstances models]. split; [|split; [|exact Htable]].
      + clear Hnd. induction (providerInstances reg) as [|[k x] entries IH];
          simpl.
        * repeat constructor.
        * inversion Hkeys as [|? ? Hx Hrest]; subst.
          destruct (ModelProvider_eqb k (name p)).
          -- constructor; [reflexivity | exact Hrest].
          -- constructor; [exact Hx | now apply IH].
      + rewrite mapSet_names.
        destruct (includesProvider (map fst (providerInstances reg)) (name p))
          eqn:Hin; [exact Hnd|].
        apply includesProvider_not_In in Hin.
        apply NoDup_app; [exact Hnd | repeat constructor; simpl; tauto |].
        intros x Hx [<- | []]. contradiction.
    - unfold wellKeyed, registeredNames, updateModelAvailability in *.
      cbn [providerInstances models]. split; [exact Hkeys|].
      split; [exact Hnd|]. rewrite map_map, <- Htable.
      apply map_ext. intros m. apply identity_setAvailability. }
  destruct Hinv as [Hkeys [Hnd Htable]].
  split; [exact Hkeys|]. split; [exact Hnd|]. split.
  - unfold getAvailableProviders. now apply NoDup_map_fst_filter.
  - split; [|exact Htable]. intros key.
    unfold getAvailableProviders, getProvider. split.
    + intros Hin. apply in_map_iff in Hin. destruct Hin as [[k p] [Hk Hf]].
      cbn in Hk. subst k. apply filter_In in Hf. destruct Hf as [Hin Hconf].
      exists p. split; [now apply mapGet_In_NoDup|]. split; [|exact Hconf].
      unfold wellKeyed in Hkeys. rewrite Forall_forall in Hkeys.
      exact (Hkeys _ Hin).
    + intros [p [Hget [_ Hconf]]]. apply mapGet_Some_In in Hget.
      apply in_map_iff. exists (key, p). split; [reflexivity|].
      apply filter_In. now split.
Qed.

End MapFacts.

(** The well-formedness of the registry in which Gemini answers, Mistral
    has no credentials and DeepSeek answers. *)
Lemma reachable_registry_is_well_formed_witness :
  @NoDup ModelProvider (@getAvailableProviders Demo.host Demo.deepseekAndGemini)
  /\ (In DEEPSEEK (@getAvailableProviders Demo.host Demo.deepseekAndGemini)
      <-> exists p, @getProvider Demo.host Demo.deepseekAndGemini DEEPSEEK = Some p
                    /\ @name Demo.host p = DEEPSEEK
                    /\ @isConfigured Demo.host p = true).
Proof.
  assert (Hreach : @Reachable Demo.host Demo.deepseekAndGemini).
  { unfold Demo.deepseekAndGemini, Demo.install. cbn [isConfigured Demo.answering
      Demo.unconfigured name].
    repeat (apply reachable_register || apply reachable_update).
    apply reachable_initial. }
  destruct (@reachable_registry_is_well_formed Demo.host Demo.deepseekAndGemini
              Hreach) as [_ [_ [Hnd [Hin _]]]].
  split; [exact Hnd | apply Hin].
Defined.

(** ** The availability flags *)

Section FlagFacts.
Context `{H : Host}.

Lemma setAvailability_twice p a b m :
  setAvailability p b (setAvailability p a m) = setAvailability p b m.
Proof.
  unfold setAvailability.
  destruct (ModelProvider_eqb (provider m) p) eqn:Hp; cbn [provider];
    rewrite Hp; reflexivity.
Qed.

Lemma setAvailability_commute p q a b m :
  p <> q ->
  setAvailability p a (setAvailability q b m)
  = setAvailability q b (setAvailability p a m).
Proof.
  intros Hne. unfold setAvailability.
  destruct (ModelProvider_eqb (provider m) p) eqn:Hp;
    destruct (ModelProvider_eqb (provider m) q) eqn:Hq;
    cbn [provider]; rewrite ?Hp, ?Hq; try reflexivity.
  apply ModelProvider_eqb_eq in Hp, Hq. congruence.
Qed.

(** X4: Updates of the flags compose: on one vendor the last update wins, so
    an update is idempotent; updates of different vendors commute. *)
Theorem updateModelAvailability_last_write_wins :
  forall (p q : ModelProvider) (a b : bool) (reg : Registry),
    updateModelAvailability p b (updateModelAvailability p a reg)
    = updateModelAvailability p b reg
    /\ (p <> q ->
        updateModelAvailability p a (updateModelAvailability q b reg)
        = updateModelAvailability q b (updateModelAvailability p a reg)).
Proof.
  intros p q a b reg. unfold updateModelAvailability.
  cbn [models providerInstances]. split.
  - f_equal. rewrite map_map. apply map_ext. intros m.
    apply setAvailability_twice.
  - intros Hne. f_equal. rewrite !map_map. apply map_ext. intros m.
    now apply setAvailability_commute.
Qed.

(** X5: After an update for [p], every model that [getModelsByProvider] lists
    for [p] carries the new flag; they are the same models as before, in
    the same order; and the lists of the other vendors are unchanged. *)
Theorem getModelsByProvider_after_update :
  forall (p : ModelProvider) (flag : bool) (reg : Registry),
    Forall (fun m => isAvailable m = flag)
      (getModelsByProvider (updateModelAvailability p flag reg) p)
    /\ map identity (getModelsByProvider (updateModelAvailability p flag reg) p)
       = map identity (getModelsByProvider reg p)
    /\ (forall q, q <> p ->
          getModelsByProvider (updateModelAvailability p flag reg) q
          = getModelsByProvider reg q).
Proof.
  intros p flag reg. unfold getModelsByProvider, updateModelAvailability.
  cbn [models]. induction (models reg) as [|m ms IH]; cbn [map filter].
  - split; [constructor|]. split; [reflexivity|]. reflexivity.
  - destruct IH as [IHflag [IHid IHother]].
    destruct (ModelProvider_eqb (provider m) p) eqn:Hp.
    + assert (Hm : provider m = p) by now apply ModelProvider_eqb_eq.
      rewrite (setAvailability_same _ _ _ Hm). cbn [provider].
      rewrite Hp. split; [|split].
      * constructor; [reflexivity | exact IHflag].
      * cbn [map]. now rewrite IHid.
      * intros q Hq.
        assert (Hb : ModelProvider_eqb (provider m) q = false)
          by (apply ModelProvider_eqb_neq; congruence).
        rewrite Hb. now apply IHother.
    + assert (Hm : provider m <> p) by now apply ModelProvider_eqb_neq.
      rewrite (setAvailability_other _ _ _ Hm), Hp. split; [|split].
      * exact IHflag.
      * exact IHid.
      * intros q Hq. rewrite (IHother q Hq). reflexivity.
Qed.

End FlagFacts.

(** ** The router and the flags *)

(** X6: A vendor whose models have been switched off is never routed to:
    whatever the task and the list of available vendors, the model
    selected after [updateModelAvailability p false] is a model of another
    vendor, which the table flagged available before the update. *)
Theorem switched_off_vendor_is_never_selected :
  forall `{H : Host} (reg : Registry) (p : ModelProvider) (taskType : TaskType)
         (available : list ModelProvider) (m : ModelConfig),
    selectBestModel (models (updateModelAvailability p false reg)) taskType
      available = Some m ->
    provider m <> p
    /\ In m (models reg)
    /\ isAvailable m = true
    /\ In (provider m) available.
Proof.
  intros H reg p taskType available m Hsel.
  apply selectBestModel_Some in Hsel. destruct Hsel as [Hin [Ha Hp]].
  unfold updateModelAvailability in Hin. cbn [models] in Hin.
  apply in_map_iff in Hin. destruct Hin as [m0 [Hm0 Hin0]].
  destruct (ModelProvider_eq_dec (provider m0) p) as [Heq|Hne].
  - rewrite (setAvailability_same _ _ _ Heq) in Hm0. subst m.
    cbn in Ha. discriminate.
  - rewrite (setAvailability_other _ _ _ Hne) in Hm0. subst m0. auto.
Qed.

(** With Gemini and DeepSeek configured and DeepSeek switched off, a
    planning request, whose first preference is DeepSeek, goes to
    Gemini. *)
Lemma switched_off_vendor_is_never_selected_witness :
  exists m,
    selectBestModel
      (@models Demo.host
         (@updateModelAvailability Demo.host DEEPSEEK false Demo.deepseekAndGemini))
      planning [GEMINI; DEEPSEEK] = Some m
    /\ provider m <> DEEPSEEK
    /\ modelId m = "gemini-2.5-flash"%string.
Proof.
  eexists. split; [reflexivity|]. split; [|reflexivity].
  exact (proj1 (@switched_off_vendor_is_never_selected Demo.host
                  Demo.deepseekAndGemini DEEPSEEK planning [GEMINI; DEEPSEEK]
                  _ eq_refl)).
Defined.

Lemma find_split {A} (f : A -> bool) (l : list A) x :
  find f l = Some x ->
  exists earlier later,
    l = earlier ++ x :: later /\ f x = true
    /\ forallb (fun y => negb (f y)) earlier = true.
Proof.
  induction l as [|a l IH]; simpl; [discriminate|].
  destruct (f a) eqn:Hfa.
  - intros Heq. injection Heq as ->. now exists [], l.
  - intros Hfind. destruct (IH Hfind) as [earlier [later [-> [Hfx Hall]]]].
    exists (a :: earlier), later. simpl. now rewrite Hfa, Hall.
Qed.

Lemma routable_find models available p :
  routable models available p = true ->
  includesProvider available p = true
  /\ exists m, findAvailableModel models p = Some m.
Proof.
  unfold routable. intros Hr. apply andb_true_iff in Hr.
  destruct Hr as [Hin Hex]. split; [exact Hin|].
  unfold findAvailableModel.
  destruct (find (fun m => ModelProvider_eqb (provider m) p && isAvailable m)
              models) as [m|] eqn:Hfind; [now exists m|].
  apply existsb_exists in Hex. destruct Hex as [m [Hm Hb]].
  pose proof (find_none _ _ Hfind m Hm) as Hnone. cbv beta in Hnone.
  congruence.
Qed.

Lemma not_routable_skipped models available q :
  routable models available q = false ->
  includesProvider available q = false \/ findAvailableModel models q = None.
Proof.
  unfold routable. intros Hr. apply andb_false_iff in Hr.
  destruct Hr as [Hin | Hex]; [now left | right].
  unfold findAvailableModel.
  destruct (find (fun m => ModelProvider_eqb (provider m) q && isAvailable m)
              models) as [m|] eqn:Hfind; [|reflexivity].
  apply find_some in Hfind. destruct Hfind as [Hm Hb].
  assert (Hex' : existsb (fun m => ModelProvider_eqb (provider m) q && isAvailable m)
                   models = true) by (apply existsb_exists; now exists m).
  congruence.
Qed.

Lemma firstPreferredModel_skips models available before rest :
  forallb (fun q => negb (routable models available q)) before = true ->
  firstPreferredModel models available (before ++ rest)
  = firstPreferredModel models available rest.
Proof.
  induction before as [|q before IH]; cbn [app forallb firstPreferredModel];
    [reflexivity|].
  intros Hall. apply andb_true_iff in Hall. destruct Hall as [Hq Hall].
  apply negb_true_iff in Hq.
  destruct (not_routable_skipped _ _ _ Hq) as [-> | Hnone].
  - now apply IH.
  - rewrite Hnone. destruct (includesProvider available q); now apply IH.
Qed.

(** X7: The router follows the priority list of the task: it selects a model
    of the first vendor of the list that is available and has a model
    flagged available, and of that vendor the first such model of the
    table. *)
Theorem selectBestModel_follows_priority :
  forall (models : list ModelConfig) (taskType : TaskType)
         (available before after : list ModelProvider) (p : ModelProvider),
    TASK_MODEL_PRIORITY taskType = before ++ p :: after ->
    forallb (fun q => negb (routable models available q)) before = true ->
    routable models available p = true ->
    exists earlier m later,
      selectBestModel models taskType available = Some m
      /\ provider m = p /\ isAvailable m = true
      /\ models = earlier ++ m :: later
      /\ forallb (fun m' => negb (ModelProvider_eqb (provider m') p
                                  && isAvailable m')) earlier = true.
Proof.
  intros models taskType available before after p Hprio Hbefore Hp.
  destruct (routable_find _ _ _ Hp) as [Hin [m Hfind]].
  unfold selectBestModel.
  rewrite Hprio, (firstPreferredModel_skips _ _ _ _ Hbefore).
  cbn [firstPreferredModel]. rewrite Hin, Hfind.
  pose proof (findAvailableModel_Some _ _ _ Hfind) as [_ [Hprov Havail]].
  unfold findAvailableModel in Hfind.
  destruct (find_split _ _ _ Hfind) as [earlier [later [Hmodels [_ Hall]]]].
  exists earlier, m, later. auto.
Qed.

(** An editing request with Groq and Mistral out and Gemini configured
    gets the first Gemini model of the table. *)
Lemma selectBestModel_follows_priority_witness :
  exists earlier m later,
    selectBestModel MODEL_REGISTRY editing [GEMINI] = Some m
    /\ provider m = GEMINI /\ isAvailable m = true
    /\ MODEL_REGISTRY = earlier ++ m :: later
    /\ forallb (fun m' => negb (ModelProvider_eqb (provider m') GEMINI
                                && isAvailable m')) earlier = true.
Proof.
  apply (selectBestModel_follows_priority MODEL_REGISTRY editing [GEMINI]
           [GROQ; MISTRAL] [] GEMINI); reflexivity.
Defined.

Lemma firstPreferredModel_none models available priorityList :
  forallb (fun q => negb (routable models available q)) priorityList = true ->
  firstPreferredModel models available priorityList = None.
Proof.
  intros Hall.
  rewrite <- (app_nil_r priorityList).
  now rewrite (firstPreferredModel_skips _ _ _ [] Hall).
Qed.

Lemma firstAvailableModel_skips models all before rest :
  (forall q, In q before -> In q all) ->
  forallb (fun q => negb (routable models all q)) before = true ->
  firstAvailableModel models (before ++ rest) = firstAvailableModel models rest.
Proof.
  induction before as [|q before IH]; cbn [app forallb firstAvailableModel];
    [reflexivity|].
  intros Hsub Hall. apply andb_true_iff in Hall. destruct Hall as [Hq Hall].
  apply negb_true_iff in Hq.
  destruct (not_routable_skipped _ _ _ Hq) as [Hout | Hnone].
  - apply includesProvider_not_In in Hout. exfalso. apply Hout, Hsub. now left.
  - rewrite Hnone. apply IH; [|exact Hall].
    intros x Hx. apply Hsub. now right.
Qed.

(** X8: When no vendor of the task's priority list can be picked, the router
    falls back to the first available vendor, in the order of the list it
    was given, that has a model flagged available, whatever the task:
    an image request is then routed to a vendor outside the image list. *)
Theorem selectBestModel_falls_back_in_listing_order :
  forall (models : list ModelConfig) (taskType : TaskType)
         (available before after : list ModelProvider) (p : ModelProvider),
    forallb (fun q => negb (routable models available q))
      (TASK_MODEL_PRIORITY taskType) = true ->
    available = before ++ p :: after ->
    forallb (fun q => negb (routable models available q)) before = true ->
    routable models available p = true ->
    exists m,
      selectBestModel models taskType available = Some m
      /\ provider m = p /\ isAvailable m = true
      /\ ~ In p (TASK_MODEL_PRIORITY taskType).
Proof.
  intros models taskType available before after p Hprio Havail Hbefore Hp.
  subst available.
  destruct (routable_find _ _ _ Hp) as [Hin [m Hfind]].
  unfold selectBestModel. rewrite (firstPreferredModel_none _ _ _ Hprio).
  rewrite (firstAvailableModel_skips models (before ++ p :: after) before
             (p :: after)).
  - cbn [firstAvailableModel]. rewrite Hfind.
    pose proof (findAvailableModel_Some _ _ _ Hfind) as [_ [Hprov Ha]].
    exists m. split; [reflexivity|]. split; [exact Hprov|]. split; [exact Ha|].
    intros Hmember. rewrite forallb_forall in Hprio.
    specialize (Hprio p Hmember). rewrite Hp in Hprio. discriminate.
  - intros q Hq. apply in_or_app. now left.
  - exact Hbefore.
Qed.

(** With Groq the only configured vendor, an image request is routed to
    the Llama model of Groq. *)
Lemma selectBestModel_falls_back_in_listing_order_witness :
  @getAvailableProviders Demo.host Samples.onlyGroq = [GROQ]
  /\ exists m,
       selectBestModel (@models Demo.host Samples.onlyGroq) image_generation
         [GROQ] = Some m
       /\ provider m = GROQ /\ isAvailable m = true
       /\ ~ In GROQ (TASK_MODEL_PRIORITY image_generation).
Proof.
  split; [reflexivity|].
  apply (selectBestModel_falls_back_in_listing_order
           (@models Demo.host Samples.onlyGroq) image_generation [GROQ] [] []
           GROQ); reflexivity.
Defined.

(** ** The single-shot facade: the preferred vendor, the errors, the calls *)

Section SingleShotFacts.
Context `{H : Host}.
Open Scope run_scope.

Lemma available_has_instance (reg : Registry) key :
  In key (getAvailableProviders reg) -> exists p, getProvider reg key = Some p.
Proof.
  intros Hin. unfold getAvailableProviders in Hin.
  assert (Hin' : In key (map fst (providerInstances reg))).
  { apply in_map_iff in Hin. destruct Hin as [e [He Hf]].
    apply filter_In in Hf. apply in_map_iff. exists e. tauto. }
  destruct (mapGet_of_key _ _ Hin') as [p [Hget _]]. now exists p.
Qed.

(** What [chooseTarget] does: it makes no call and logs nothing, and the
    vendor it gives is one of the available ones. *)
Lemma chooseTarget_spec (reg : Registry) available taskType preferred
    (st : RunState) :
  snd (chooseTarget reg available taskType preferred st) = st
  /\ forall target,
       fst (chooseTarget reg available taskType preferred st) = Ok target ->
       In target available.
Proof.
  unfold chooseTarget.
  assert (Hrouter :
    snd (match selectBestModel (models reg) taskType available with
         | Some bestModel => ret (provider bestModel)
         | None => throw (newError ("No suitable model found for task: " ++
                                    TaskType_value taskType))
         end st) = st
    /\ forall target,
         fst (match selectBestModel (models reg) taskType available with
              | Some bestModel => ret (provider bestModel)
              | None => throw (newError ("No suitable model found for task: " ++
                                         TaskType_value taskType))
              end st) = Ok target ->
         In target available).
  { destruct (selectBestModel (models reg) taskType available) as [m|] eqn:Hsel.
    - split; [reflexivity|]. intros target Heq. cbn in Heq.
      injection Heq as <-. now apply selectBestModel_Some in Hsel.
    - split; [reflexivity|]. intros target Heq. discriminate. }
  destruct preferred as [q|]; [|exact Hrouter].
  destruct (includesProvider available q) eqn:Hq; [|exact Hrouter].
  split; [reflexivity|]. intros target Heq. cbn in Heq. injection Heq as <-.
  now apply includesProvider_In.
Qed.

(** X9: A preferred vendor that is configured overrides the router: whatever
    the task and the flags of the table, [generateWithBestModel] makes one
    call, on that vendor, with the prompt and the options it was given; it
    returns the vendor's text, labelled with the display name of the
    vendor's first model in the table or, when the table has none, with the
    vendor's name; and it rejects with the vendor's error unchanged. *)
Theorem generateWithBestModel_honours_preferred_provider :
  forall (reg : Registry) (prompt : Prompt) (taskType : TaskType)
         (options : option GenerateOptions) (preferred : ModelProvider)
         (st : RunState),
    In preferred (getAvailableProviders reg) ->
    exists p,
      getProvider reg preferred = Some p
      /\ events (snd (generateWithBestModel reg prompt taskType options
                        (Some preferred) st))
         = events st ++ [EvGenerate (name p) prompt options]
      /\ logs (snd (generateWithBestModel reg prompt taskType options
                      (Some preferred) st)) = logs st
      /\ match fst (generateText p prompt options (world st)) with
         | Ok answer =>
             exists label,
               fst (generateWithBestModel reg prompt taskType options
                      (Some preferred) st)
               = Ok (mkBestModelResult answer label)
               /\ (forall m,
                     find (fun m => ModelProvider_eqb (provider m) preferred)
                       (models reg) = Some m ->
                     nonEmpty (displayName m) = true -> label = displayName m)
               /\ (find (fun m => ModelProvider_eqb (provider m) preferred)
                     (models reg) = None ->
                   label = ModelProvider_value preferred)
         | Throw e =>
             fst (generateWithBestModel reg prompt taskType options
                    (Some preferred) st) = Throw e
         end.
Proof.
  intros reg prompt taskType options preferred st Hin.
  destruct (available_has_instance reg preferred Hin) as [p Hget].
  exists p. split; [exact Hget|].
  unfold generateWithBestModel.
  destruct (getAvailableProviders reg) as [|a available] eqn:Havail; [destruct Hin|].
  unfold chooseTarget.
  apply includesProvider_In in Hin. rewrite Hin.
  unfold bind, ret. rewrite Hget, callGenerateText_unfold.
  destruct (fst (generateText p prompt options (world st))) as [answer|e].
  - cbn [snd fst events logs]. split; [reflexivity|]. split; [reflexivity|].
    eexists. split; [reflexivity|]. split.
    + intros m Hfind Hname. now rewrite Hfind, Hname.
    + intros Hnone. now rewrite Hnone.
  - cbn [snd fst events logs]. repeat split.
Qed.

(** X10: [generateWithBestModel] never retries and never falls back: in every
    run it logs nothing and makes either no call at all or exactly one
    call, on a configured vendor; and it cannot succeed without that
    call. *)
Theorem generateWithBestModel_calls_one_vendor_at_most :
  forall (reg : Registry) (prompt : Prompt) (taskType : TaskType)
         (options : option GenerateOptions)
         (preferredProvider : option ModelProvider) (st : RunState),
    logs (snd (generateWithBestModel reg prompt taskType options
                 preferredProvider st)) = logs st
    /\ (events (snd (generateWithBestModel reg prompt taskType options
                       preferredProvider st)) = events st
        \/ exists key p,
             In key (getAvailableProviders reg)
             /\ getProvider reg key = Some p
             /\ events (snd (generateWithBestModel reg prompt taskType options
                               preferredProvider st))
                = events st ++ [EvGenerate (name p) prompt options])
    /\ (forall r,
          fst (generateWithBestModel reg prompt taskType options
                 preferredProvider st) = Ok r ->
          attempts (events (snd (generateWithBestModel reg prompt taskType
                                   options preferredProvider st)))
          = S (attempts (events st))).
Proof.
  intros reg prompt taskType options preferredProvider st.
  unfold generateWithBestModel.
  destruct (getAvailableProviders reg) as [|a available] eqn:Havail.
  - cbn. split; [reflexivity|]. split; [now left | discriminate].
  - unfold bind.
    pose proof (chooseTarget_spec reg (a :: available) taskType
                  preferredProvider st) as [Hst Htarget].
    destruct (chooseTarget reg (a :: available) taskType preferredProvider st)
      as [[target|e] st1]. 2:{
      cbn [snd] in Hst. subst st1. cbn.
      split; [reflexivity|]. split; [now left | discriminate]. }
    cbn [snd] in Hst. subst st1. specialize (Htarget target eq_refl).
    assert (Hin : In target (getAvailableProviders reg)) by now rewrite Havail.
    destruct (available_has_instance reg target Hin) as [p Hget].
    rewrite Hget, callGenerateText_unfold.
    destruct (fst (generateText p prompt options (world st))) as [answer|e];
      cbn [snd fst events logs ret].
    + split; [reflexivity|]. split.
      * right. now exists target, p.
      * intros r _. rewrite attempts_app. cbn. lia.
    + split; [reflexivity|]. split; [|discriminate].
      right. now exists target, p.
Qed.

Lemma generateWithBestModel_no_selection (reg : Registry) (prompt : Prompt)
    (taskType : TaskType) (options : option GenerateOptions)
    (preferredProvider : option ModelProvider) (st : RunState) :
  getAvailableProviders reg <> [] ->
  (forall q, preferredProvider = Some q -> ~ In q (getAvailableProviders reg)) ->
  selectBestModel (models reg) taskType (getAvailableProviders reg) = None ->
  generateWithBestModel reg prompt taskType options preferredProvider st
  = (Throw (newError ("No suitable model found for task: " ++
                      TaskType_value taskType)), st).
Proof.
  intros Hsome Hpref Hsel. unfold generateWithBestModel.
  destruct (getAvailableProviders reg) as [|a available] eqn:Havail;
    [congruence|].
  unfold bind, chooseTarget. rewrite Hsel.
  destruct preferredProvider as [q|]; [|reflexivity].
  assert (Hq : includesProvider (a :: available) q = false).
  { apply includesProvider_not_In. now apply Hpref. }
  now rewrite Hq.
Qed.

(** X11: When some vendor is configured, the caller's preference is not among
    the configured ones and no configured vendor has a model flagged
    available, [generateWithBestModel] rejects with "No suitable model
    found for task: " followed by the task, and makes no call. *)
Theorem generateWithBestModel_rejects_without_suitable_model :
  forall (reg : Registry) (prompt : Prompt) (taskType : TaskType)
         (options : option GenerateOptions)
         (preferredProvider : option ModelProvider) (st : RunState),
    getAvailableProviders reg <> [] ->
    (forall q, preferredProvider = Some q -> ~ In q (getAvailableProviders reg)) ->
    (forall m, In m (models reg) -> In (provider m) (getAvailableProviders reg) ->
               isAvailable m = false) ->
    generateWithBestModel reg prompt taskType options preferredProvider st
    = (Throw (newError ("No suitable model found for task: " ++
                        TaskType_value taskType)), st).
Proof.
  intros reg prompt taskType options preferredProvider st Hsome Hpref Hnone.
  apply generateWithBestModel_no_selection; [exact Hsome | exact Hpref |].
  destruct (selectBestModel (models reg) taskType (getAvailableProviders reg))
    as [m|] eqn:Hsel; [|reflexivity].
  apply selectBestModel_Some in Hsel. destruct Hsel as [Hin [Ha Hp]].
  rewrite (Hnone m Hin Hp) in Ha. discriminate.
Qed.

(** X12: Neither facade ever meets a vendor without an instance: the vendor the
    single-shot facade settles on, and every vendor of the try order of
    the fallback facade, is in the map, so the "not initialized" rejection
    of the one and the "not found in registry" skip of the other are never
    taken. *)
Theorem routed_vendor_has_an_instance :
  forall (reg : Registry),
    (forall taskType preferredProvider (st : RunState) target,
        fst (chooseTarget reg (getAvailableProviders reg) taskType
               preferredProvider st) = Ok target ->
        exists p, getProvider reg target = Some p)
    /\ (forall preferredProviders key,
          In key (tryOrderOf preferredProviders (getAvailableProviders reg)) ->
          exists p, getProvider reg key = Some p).
Proof.
  intros reg. split.
  - intros taskType preferredProvider st target Htarget.
    apply available_has_instance.
    exact (proj2 (chooseTarget_spec reg _ taskType preferredProvider st)
             target Htarget).
  - intros preferredProviders key Hin. apply available_has_instance.
    now apply tryOrderOf_In in Hin.
Qed.

End SingleShotFacts.

(** With Mistral down and Gemini answering, a writing request that names
    Gemini goes to Gemini, though the router would pick Mistral. *)
Lemma generateWithBestModel_honours_preferred_provider_witness :
  fst (@generateWithBestModel Demo.host Demo.mistralDown (PromptText "hello")
         writing None (Some GEMINI) Demo.initialState)
  = Ok (mkBestModelResult "a fine answer" "Gemini 2.5 Flash")
  /\ exists p,
       @getProvider Demo.host Demo.mistralDown GEMINI = Some p
       /\ @events Demo.host
            (snd (@generateWithBestModel Demo.host Demo.mistralDown
                    (PromptText "hello") writing None (Some GEMINI)
                    Demo.initialState))
          = [EvGenerate (@name Demo.host p) (PromptText "hello") None].
Proof.
  split; [reflexivity|].
  destruct (@generateWithBestModel_honours_preferred_provider Demo.host
              Demo.mistralDown (PromptText "hello") writing None GEMINI
              Demo.initialState) as [p [Hget [Hev _]]].
  - right. now left.
  - exists p. split; [exact Hget | exact Hev].
Defined.

(** With OpenRouter the only configured vendor, a synthesis request is
    rejected before any call. *)
Lemma generateWithBestModel_rejects_without_suitable_model_witness :
  @generateWithBestModel Demo.host Demo.onlyOpenRouter (PromptText "hello")
    synthesis None None Demo.initialState
  = (Throw (newError "No suitable model found for task: synthesis"),
     Demo.initialState).
Proof.
  apply (@generateWithBestModel_rejects_without_suitable_model Demo.host
           Demo.onlyOpenRouter (PromptText "hello") synthesis None None
           Demo.initialState).
  - discriminate.
  - discriminate.
  - intros m Hm Hp. cbn in Hp. destruct Hp as [Hp | []].
    cbn in Hm.
    repeat (destruct Hm as [<- | Hm]; [discriminate Hp|]). destruct Hm.
Defined.

(** ** The fallback facade: what a success is, how far the attempts go *)

Section FallbackTraceFacts.
Context `{H : Host}.
Open Scope run_scope.

Lemma backoff_trace errMsg (st : RunState) :
  exists st' new,
    (if isRateLimited errMsg then sleep 1000 else ret tt) st = (Ok tt, st')
    /\ extends st st' new /\ (new = [] \/ new = [EvSleep 1000]).
Proof.
  destruct (isRateLimited errMsg).
  - eexists. exists [EvSleep 1000]. repeat split. now right.
  - exists st, []. split; [reflexivity|]. split; [apply extends_refl | now left].
Qed.

(** The attempts on one vendor: at most [remaining] calls, each with the
    prompt and the options of the facade, at most one back-off per call;
    a success is text that is not blank, returned by the last call. *)
Lemma attemptLoop_trace (p : AIProvider) key prompt options :
  forall remaining errors st,
  exists res errors' st' new,
    attemptLoop p key prompt options remaining errors st
      = (Ok (res, errors'), st')
    /\ extends st st' new
    /\ attempts new <= remaining
    /\ List.length errors' <= List.length errors + attempts new
    /\ Forall (facadeEvent prompt options) new
    /\ List.length new <= 2 * attempts new
    /\ match res with
       | Some r =>
           usable (text r) = true /\ providerName r = key
           /\ exists before w,
                new = before ++ [EvGenerate (name p) (PromptText prompt) options]
                /\ fst (generateText p (PromptText prompt) options w)
                   = Ok (text r)
       | None => True
       end.
Proof.
  induction remaining as [|n IH]; intros errors st.
  - exists None, errors, st, []. cbn. repeat split; try constructor; try lia.
    now rewrite app_nil_r.
  - cbn [attemptLoop]. rewrite callGenerateText_unfold.
    set (call := EvGenerate (name p) (PromptText prompt) options).
    set (st1 := mkRunState _ _ _).
    assert (H1 : extends st st1 [call]) by (split; reflexivity).
    assert (Hcall : facadeEvent prompt options call) by (split; reflexivity).
    destruct (fst (generateText p (PromptText prompt) options (world st)))
      as [answer|e] eqn:Hanswer.
    + destruct (nonEmpty answer && nonEmpty (trim answer)) eqn:Huse.
      * exists (Some (mkFallbackResult answer key)), errors, st1, [call].
        split; [reflexivity|]. split; [exact H1|]. cbn.
        split; [lia|]. split; [lia|]. split; [now constructor|]. split; [lia|].
        split; [exact Huse|]. split; [reflexivity|].
        exists [], (world st). now split.
      * destruct (IH errors st1)
          as [res [errors' [st' [new [Hrun [Hext [Hatt [Herr [Hall [Hlen Hres]]]]]]]]]].
        exists res, errors', st', ([call] ++ new).
        split; [exact Hrun|]. split; [eapply extends_trans; eauto|].
        rewrite attempts_app, length_app. cbn [attempts filter isGenerate call
          List.length].
        split; [cbn; lia|]. split; [cbn; lia|]. split; [now constructor|].
        split; [cbn; lia|].
        destruct res as [r|]; [|exact I].
        destruct Hres as [Hu [Hk [before [w [Hnew Hw]]]]].
        split; [exact Hu|]. split; [exact Hk|].
        exists (call :: before), w. split; [now rewrite Hnew | exact Hw].
    + unfold bind.
      destruct (backoff_trace (errorMessage e) st1)
        as [st2 [new1 [Hsleep [Hext1 Hnew1]]]].
      rewrite Hsleep.
      destruct (IH (errors ++ [(ModelProvider_value key ++ ": " ++
                                errorMessage e)%string]) st2)
        as [res [errors' [st' [new [Hrun [Hext [Hatt [Herr [Hall [Hlen Hres]]]]]]]]]].
      rewrite length_app in Herr. cbn [List.length] in Herr.
      exists res, errors', st', ([call] ++ new1 ++ new).
      split; [exact Hrun|]. split.
      { eapply extends_trans; [exact H1|]. eapply extends_trans; eauto. }
      rewrite !attempts_app, !length_app.
      assert (Hback : attempts new1 = 0 /\ List.length new1 <= 1
                      /\ Forall (facadeEvent prompt options) new1).
      { destruct Hnew1 as [-> | ->]; cbn; repeat split; auto.
        constructor; [reflexivity | constructor]. }
      destruct Hback as [Hb0 [Hb1 Hb2]]. rewrite Hb0.
      split; [cbn; lia|]. split; [cbn; lia|]. split.
      { constructor; [exact Hcall|]. apply Forall_app. now split. }
      split; [cbn; lia|].
      destruct res as [r|]; [|exact I].
      destruct Hres as [Hu [Hk [before [w [Hnew Hw]]]]].
      split; [exact Hu|]. split; [exact Hk|].
      exists (call :: new1 ++ before), w. split; [|exact Hw].
      rewrite Hnew. cbn. now rewrite <- app_assoc.
Qed.

Lemma tryProviders_trace (reg : Registry) prompt options :
  forall order errors st,
  exists res errors' st' new,
    tryProviders reg prompt options order errors st = (Ok (res, errors'), st')
    /\ extends st st' new
    /\ attempts new <= 2 * List.length order
    /\ List.length errors' <= List.length errors + attempts new
    /\ Forall (facadeEvent prompt options) new
    /\ List.length new <= 2 * attempts new
    /\ match res with
       | Some r =>
           usable (text r) = true /\ In (providerName r) order
           /\ exists p before w,
                getProvider reg (providerName r) = Some p
                /\ new = before ++ [EvGenerate (name p) (PromptText prompt) options]
                /\ fst (generateText p (PromptText prompt) options w)
                   = Ok (text r)
       | None => True
       end.
Proof.
  induction order as [|key order IH]; intros errors st.
  - exists None, errors, st, []. cbn. repeat split; try constructor; try lia.
    now rewrite app_nil_r.
  - cbn [tryProviders]. destruct (getProvider reg key) as [p|] eqn:Hget.
    + unfold bind.
      destruct (attemptLoop_trace p key prompt options 2 errors st)
        as [res [errors1 [st1 [new1 [Hrun [Hext1 [Hatt1 [Herr1 [Hall1 [Hlen1 Hres1]]]]]]]]]].
      rewrite Hrun. destruct res as [r|].
      * exists (Some r), errors1, st1, new1. split; [reflexivity|].
        split; [exact Hext1|]. cbn [List.length]. split; [lia|].
        split; [exact Herr1|]. split; [exact Hall1|]. split; [exact Hlen1|].
        destruct Hres1 as [Hu [Hk [before [w [Hnew Hw]]]]].
        split; [exact Hu|]. split; [now left|].
        exists p, before, w. rewrite Hk. now split.
      * destruct (IH errors1 st1)
          as [res [errors' [st' [new [Hgo [Hext [Hatt [Herr [Hall [Hlen Hres]]]]]]]]]].
        exists res, errors', st', (new1 ++ new). split; [exact Hgo|].
        split; [eapply extends_trans; eauto|].
        rewrite attempts_app, length_app. cbn [List.length].
        split; [lia|]. split; [lia|]. split; [apply Forall_app; now split|].
        split; [lia|].
        destruct res as [r|]; [|exact I].
        destruct Hres as [Hu [Hin [q [before [w [Hq [Hnew Hw]]]]]]].
        split; [exact Hu|]. split; [now right|].
        exists q, (new1 ++ before), w. split; [exact Hq|]. split; [|exact Hw].
        now rewrite Hnew, app_assoc.
    + destruct (IH errors st)
        as [res [errors' [st' [new [Hgo [Hext [Hatt [Herr [Hall [Hlen Hres]]]]]]]]]].
      exists res, errors', st', new. split; [exact Hgo|].
      split; [exact Hext|]. cbn [List.length]. split; [lia|].
      split; [exact Herr|]. split; [exact Hall|]. split; [exact Hlen|].
      destruct res as [r|]; [|exact I].
      destruct Hres as [Hu [Hin Hrest]]. split; [exact Hu|]. split; [now right|].
      exact Hrest.
Qed.

Lemma generateWithFallback_Ok (reg : Registry) prompt options preferredProviders
    (st : RunState) r st' :
  generateWithFallback reg prompt options preferredProviders st = (Ok r, st') ->
  usable (text r) = true /\ In (providerName r) (getAvailableProviders reg).
Proof.
  unfold generateWithFallback.
  destruct (getAvailableProviders reg) as [|a available] eqn:Havail;
    [discriminate|].
  unfold bind.
  destruct (tryProviders_trace reg prompt options
              (tryOrderOf preferredProviders (a :: available)) [] st)
    as [res [errors' [st1 [new [Hrun [_ [_ [_ [_ [_ Hres]]]]]]]]]].
  rewrite Hrun. destruct res as [r'|]; [|discriminate].
  intros Heq. injection Heq as <- <-.
  destruct Hres as [Hu [Hin _]].
  split; [exact Hu | now apply tryOrderOf_In in Hin].
Qed.

(** X13: What a success of the fallback facade is: the text is not blank, the
    vendor named is a configured one, and the text is what the last call
    of the run, a call on that vendor, returned. *)
Theorem generateWithFallback_result_is_usable :
  forall (reg : Registry) (prompt : string) (options : option GenerateOptions)
         (preferredProviders : option (list ModelProvider))
         (st : RunState) (r : FallbackResult) (st' : RunState),
    generateWithFallback reg prompt options preferredProviders st = (Ok r, st') ->
    usable (text r) = true
    /\ In (providerName r) (getAvailableProviders reg)
    /\ exists p before w,
         getProvider reg (providerName r) = Some p
         /\ events st'
            = events st ++ before
              ++ [EvGenerate (name p) (PromptText prompt) options]
         /\ fst (generateText p (PromptText prompt) options w) = Ok (text r).
Proof.
  intros reg prompt options preferredProviders st r st'.
  unfold generateWithFallback.
  destruct (getAvailableProviders reg) as [|a available] eqn:Havail;
    [discriminate|].
  unfold bind.
  destruct (tryProviders_trace reg prompt options
              (tryOrderOf preferredProviders (a :: available)) [] st)
    as [res [errors' [st1 [new [Hrun [Hext [_ [_ [_ [_ Hres]]]]]]]]]].
  rewrite Hrun. destruct res as [r'|]; [|discriminate].
  intros Heq. injection Heq as <- <-.
  destruct Hres as [Hu [Hin [p [before [w [Hget [Hnew Hw]]]]]]].
  split; [exact Hu|]. split; [now apply tryOrderOf_In in Hin|].
  exists p, before, w. split; [exact Hget|]. split; [|exact Hw].
  rewrite (proj1 Hext), Hnew. reflexivity.
Qed.

(** X14: How far the fallback facade goes, whatever the vendors do: at most
    two calls per configured vendor, every call with the prompt and the
    options it was given, every back-off of one second and at most one
    per call; and it logs nothing. *)
Theorem generateWithFallback_attempts_are_bounded :
  forall (reg : Registry) (prompt : string) (options : option GenerateOptions)
         (preferredProviders : option (list ModelProvider)) (st : RunState),
    exists new,
      events (snd (generateWithFallback reg prompt options preferredProviders st))
      = events st ++ new
      /\ logs (snd (generateWithFallback reg prompt options preferredProviders st))
         = logs st
      /\ attempts new <= 2 * List.length (getAvailableProviders reg)
      /\ Forall (facadeEvent prompt options) new
      /\ List.length new <= 2 * attempts new.
Proof.
  intros reg prompt options preferredProviders st.
  unfold generateWithFallback.
  destruct (getAvailableProviders reg) as [|a available] eqn:Havail.
  - exists []. cbn. rewrite app_nil_r. repeat split; try constructor.
  - unfold bind.
    destruct (tryProviders_trace reg prompt options
                (tryOrderOf preferredProviders (a :: available)) [] st)
      as [res [errors' [st1 [new [Hrun [Hext [Hatt [_ [Hall [Hlen _]]]]]]]]]].
    rewrite Hrun. exists new.
    assert (Hst : snd (match res with
                       | Some result => ret result
                       | None => throw (newError ("All providers failed:" ++ nl ++
                                                  join nl errors'))
                       end st1) = st1) by now destruct res.
    change (match (res, errors') with
            | (Some result, _) => ret result
            | (None, errors) =>
                throw (newError ("All providers failed:" ++ nl ++ join nl errors))
            end st1)
      with (match res with
            | Some result => ret result
            | None => throw (newError ("All providers failed:" ++ nl ++
                                       join nl errors'))
            end st1).
    rewrite Hst. split; [exact (proj1 Hext)|]. split; [exact (proj2 Hext)|].
    split; [|now split].
    assert (Hle : List.length (tryOrderOf preferredProviders (a :: available))
                  <= List.length (a :: available)).
    { apply NoDup_incl_length; [apply tryOrderOf_NoDup|].
      intros q Hq. now apply tryOrderOf_In in Hq. }
    lia.
Qed.

(** X15: When every vendor of the try order always fails, the fallback facade
    has made two calls on each, in the try order, and rejects with "All
    providers failed:" followed by the collected error lines, of which
    there is at most one per call. *)
Theorem generateWithFallback_rejects_when_all_fail :
  forall (reg : Registry) (prompt : string) (options : option GenerateOptions)
         (preferredProviders : option (list ModelProvider)) (st : RunState),
    getAvailableProviders reg <> [] ->
    Forall (fun key => exists p, getProvider reg key = Some p /\
                                 name p = key /\ alwaysFails p)
      (tryOrderOf preferredProviders (getAvailableProviders reg)) ->
    exists errors st' new,
      generateWithFallback reg prompt options preferredProviders st
      = (Throw (newError ("All providers failed:" ++ nl ++ join nl errors)), st')
      /\ events st' = events st ++ new
      /\ vendorsCalled new
         = flat_map (fun key => [key; key])
             (tryOrderOf preferredProviders (getAvailableProviders reg))
      /\ List.length errors <= attempts new.
Proof.
  intros reg prompt options preferredProviders st Hsome Hall.
  unfold generateWithFallback.
  destruct (getAvailableProviders reg) as [|a available] eqn:Havail;
    [congruence|].
  unfold bind.
  destruct (tryProviders_failing_prefix reg prompt options
              (tryOrderOf preferredProviders (a :: available)) [] [] st Hall)
    as [errors' [st' [new [Hgo [Hext Hcalls]]]]].
  rewrite app_nil_r in Hgo. rewrite Hgo. cbn [tryProviders ret].
  exists errors', st', new. split; [reflexivity|].
  split; [exact (proj1 Hext)|]. split; [exact Hcalls|].
  destruct (tryProviders_trace reg prompt options
              (tryOrderOf preferredProviders (a :: available)) [] st)
    as [res [errors2 [st2 [new2 [Hrun [Hext2 [_ [Herr _]]]]]]]].
  rewrite Hgo in Hrun. cbn [tryProviders ret] in Hrun.
  injection Hrun as _ <- <-.
  assert (Hnew : new2 = new).
  { apply (app_inv_head (events st)).
    now rewrite <- (proj1 Hext), <- (proj1 Hext2). }
  subst new2. exact Herr.
Qed.

End FallbackTraceFacts.

(** The success of the facade when Groq is rate limited, DeepSeek answers
    blank text and Gemini answers. *)
Lemma generateWithFallback_result_is_usable_witness :
  usable "third time lucky" = true
  /\ In GEMINI (@getAvailableProviders Demo.host Demo.twoDownOneUp).
Proof.
  assert (Hrun :
    @generateWithFallback Demo.host Demo.twoDownOneUp "hello" None
      (Some [GROQ; DEEPSEEK]) Demo.initialState
    = (Ok (mkFallbackResult "third time lucky" GEMINI),
       snd (@generateWithFallback Demo.host Demo.twoDownOneUp "hello" None
              (Some [GROQ; DEEPSEEK]) Demo.initialState)))
    by (vm_compute; reflexivity).
  destruct (@generateWithFallback_result_is_usable Demo.host Demo.twoDownOneUp
              "hello"%string None (Some [GROQ; DEEPSEEK]) Demo.initialState
              _ _ Hrun) as [Huse [Hin _]].
  split; [exact Huse | exact Hin].
Defined.

(** The rejection of the facade when Mistral and Gemini, both configured,
    are down: two calls on each. *)
Lemma generateWithFallback_rejects_when_all_fail_witness :
  exists errors st' new,
    @generateWithFallback Demo.host Samples.allDown "hello" None None
      Demo.initialState
    = (Throw (newError ("All providers failed:" ++ nl ++ join nl errors)), st')
    /\ @events Demo.host st' = @events Demo.host Demo.initialState ++ new
    /\ vendorsCalled new = [MISTRAL; MISTRAL; GEMINI; GEMINI]
    /\ List.length errors <= attempts new.
Proof.
  apply (@generateWithFallback_rejects_when_all_fail Demo.host Samples.allDown
           "hello"%string None None Demo.initialState).
  - discriminate.
  - constructor; [|constructor; [|constructor]].
    + exists (Demo.failing MISTRAL "503 service unavailable"%string).
      split; [reflexivity|]. split; [reflexivity|].
      intros prompt options w. exact I.
    + exists (Demo.failing GEMINI "model overloaded"%string).
      split; [reflexivity|]. split; [reflexivity|].
      intros prompt options w. exact I.
Defined.

(** ** The editor *)

Section EditorFacts.
Context `{H : Host}.
Open Scope run_scope.



End EditorFacts.


(** ** The workflow: what it returns, what it passes over, how it fails *)

Section WorkflowFacts.
Context `{H : Host}.
Open Scope run_scope.

(** An iteration that completes leaves the locals as they were or pushes
    one block that names the vendor of the writer call, a configured
    one. *)
Lemma executeTask_vendor reg bp styleContext persona task locals
    (st : RunState) locals' st' :
  executeTask reg bp styleContext persona task locals st = (Ok locals', st') ->
  locals' = locals
  \/ exists id isChapter contentStr vendor description title,
       In vendor (getAvailableProviders reg)
       /\ locals' = integrate locals id isChapter contentStr vendor
                      description title.
Proof.
  unfold executeTask. intros Hrun.
  apply bind_Ok in Hrun. destruct Hrun as [role [s1 [_ Hrun]]].
  destruct (isString "WRITER" role).
  - unfold executeWriterTask in Hrun.
    apply bind_Ok in Hrun.
    destruct Hrun as [[[writerResult output] contentStr] [s2 [Hdraft Hrun]]].
    assert (Hvendor : In (providerName writerResult) (getAvailableProviders reg)).
    { unfold writerDraft in Hdraft.
      apply bind_Ok in Hdraft. destruct Hdraft as [d [t1 [_ Hdraft]]].
      apply bind_Ok in Hdraft. destruct Hdraft as [c [t2 [_ Hdraft]]].
      apply bind_Ok in Hdraft. destruct Hdraft as [w [t3 [Hcall Hdraft]]].
      apply bind_Ok in Hdraft. destruct Hdraft as [x [t4 [_ Hdraft]]].
      injection Hdraft as <- _ _ _.
      unfold writerCall in Hcall.
      exact (proj2 (generateWithFallback_Ok _ _ _ _ _ _ _ Hcall)). }
    destruct (nonEmpty contentStr); cbn [negb] in Hrun.
    + right. apply finishDraft_Ok in Hrun. destruct Hrun as [id [d [_ ->]]].
      now eexists id, _, contentStr, (providerName writerResult), _, _.
    + left. apply bind_Ok in Hrun. destruct Hrun as [u [s3 [_ Hrun]]].
      now injection Hrun as <- _.
  - left. now injection Hrun as <- _.
Qed.

Lemma executionLoop_drafts reg bp styleContext persona tasks :
  forall locals (st : RunState) r locals' st',
    Forall (writerDraftBlock reg) (newBlocks locals) ->
    executionLoop reg bp styleContext persona tasks locals st = (r, locals', st') ->
    Forall (writerDraftBlock reg) (newBlocks locals').
Proof.
  induction tasks as [|task tasks IH]; intros locals st r locals' st' Hall;
    cbn [executionLoop].
  - intros Heq. now injection Heq as _ <- _.
  - destruct (executeTask reg bp styleContext persona task locals st)
      as [[locals1|e] st1] eqn:Hstep.
    + intros Hrest. eapply IH; [|exact Hrest].
      apply executeTask_vendor in Hstep.
      destruct Hstep as [-> | [id [c [text [vendor [d [t [Hin ->]]]]]]]];
        [exact Hall|].
      unfold integrate. cbn [newBlocks]. apply Forall_app. split; [exact Hall|].
      constructor; [|constructor]. split; [reflexivity|].
      split; [reflexivity|]. eexists _, vendor. now repeat split.
    + intros Heq. now injection Heq as _ <- _.
Qed.

Lemma run_blocks_are_drafts reg userRequest project blueprint (st : RunState) :
  Forall (writerDraftBlock reg)
    (fst (runMultiAgentWorkflow reg userRequest project blueprint st)).
Proof.
  unfold runMultiAgentWorkflow.
  destruct (planningPhase reg userRequest project st)
    as [[[|tasks style]|e] s1]; cbn [fst]; try constructor.
  assert (Hexec : forall r locals' s',
            executionPhase reg project tasks style s1 = (r, locals', s') ->
            Forall (writerDraftBlock reg) (newBlocks locals')).
  { intros r locals' s'. unfold executionPhase.
    destruct (announcePersona (personaOf project) s1) as [[u|e] s2].
    - apply executionLoop_drafts. constructor.
    - intros Heq. injection Heq as _ <- _. constructor. }
  destruct (executionPhase reg project tasks style s1) as [[r locals'] s2].
  specialize (Hexec _ _ _ eq_refl). now destruct r.
Qed.

Lemma EmittedInOrder_length tasks blocks :
  EmittedInOrder tasks blocks -> List.length blocks <= List.length tasks.
Proof. induction 1; cbn [List.length]; lia. Qed.

(** X17: Every block a run returns is a draft without revision history,
    signed "Writer Agent", whose metadata names a configured vendor as
    the model used and carries no style and no edit date; and the run
    returns at most one block per task of its plan. *)
Theorem returned_blocks_are_writer_drafts :
  forall (reg : Registry) (userRequest : string) (project : Project.t)
         (blueprint : option Blueprint.t) (st : RunState),
    Forall (writerDraftBlock reg)
      (fst (runMultiAgentWorkflow reg userRequest project blueprint st))
    /\ (forall tasks styleContext st1,
          planningPhase reg userRequest project st
            = (Ok (Plan tasks styleContext), st1) ->
          List.length
            (fst (runMultiAgentWorkflow reg userRequest project blueprint st))
          <= List.length tasks).
Proof.
  intros reg userRequest project blueprint st.
  split; [apply run_blocks_are_drafts|].
  intros tasks styleContext st1 Hplan. apply EmittedInOrder_length.
  unfold runMultiAgentWorkflow. rewrite Hplan. unfold executionPhase.
  destruct (announcePersona (personaOf project) st1) as [[u|e] s1].
  - destruct (executionLoop reg (Project.blueprint project) styleContext
                (personaOf project) tasks (mkLocals [] 1) s1)
      as [[r locals'] s2] eqn:Hloop.
    apply executionLoop_emits_in_order in Hloop.
    destruct Hloop as [added [Hadded Hord]]. cbn [newBlocks app] in Hadded.
    destruct r; cbn [fst]; now rewrite Hadded.
  - cbn [fst newBlocks]. apply EmittedInOrder_none.
Qed.




Lemma announcePersona_Ok persona (st : RunState) :
  exists st', announcePersona persona st = (Ok tt, st')
              /\ events st' = events st.
Proof.
  unfold announcePersona.
  destruct (String.eqb (AgentPersona.id persona) "standard_vibe").
  - now exists st.
  - destruct (log_spec (roleValue PROJECT_MANAGER)
                ("Applying Agent Persona: " ++ AgentPersona.name persona)
                undefined success None st)
      as [entry [st' [Hlog [_ [Hev _]]]]].
    now exists st'.
Qed.

Lemma executionLoop_app reg bp styleContext persona done rest :
  forall locals (st : RunState),
    executionLoop reg bp styleContext persona (done ++ rest) locals st
    = match executionLoop reg bp styleContext persona done locals st with
      | (Ok _, locals1, st1) =>
          executionLoop reg bp styleContext persona rest locals1 st1
      | (Throw e, locals1, st1) => (Throw e, locals1, st1)
      end.
Proof.
  induction done as [|task done IH]; intros locals st; cbn [app executionLoop];
    [reflexivity|].
  destruct (executeTask reg bp styleContext persona task locals st)
    as [[locals1|e] st1]; [apply IH | reflexivity].
Qed.

Lemma workflowCatch_spec e (st : RunState) :
  exists entry st',
    workflowCatch e st = (Ok tt, st')
    /\ events st' = events st
    /\ logs st' = logs st ++ [entry]
    /\ agent entry = roleValue PROJECT_MANAGER
    /\ message entry = "Workflow encountered an error."%string
    /\ metadata entry = Some (JString (errorToString e))
    /\ status entry = failed.
Proof.
  unfold workflowCatch.
  destruct (log_spec (roleValue PROJECT_MANAGER) "Workflow encountered an error."
              (Some (JString (errorToString e))) failed None st)
    as [entry [st' [Hlog [Hlogs [Hev [Ha [Hm [Hmeta Hs]]]]]]]].
  now exists entry, st'.
Qed.

(** X19: An exception in the middle of the loop ends the run without losing
    what was written: when the tasks [done] have completed and the next
    one throws, the run returns the blocks pushed for [done], executes
    none of the remaining tasks, and logs one failure-status entry that
    carries the error. *)
Theorem error_keeps_the_blocks_already_written :
  forall (reg : Registry) (userRequest : string) (project : Project.t)
         (blueprint : option Blueprint.t) (st : RunState)
         (done : list JSON) (bad : JSON) (rest : list JSON)
         (styleContext : string) (st1 : RunState) (locals : Locals)
         (st3 : RunState) (e : JSError) (st4 : RunState),
    planningPhase reg userRequest project st
      = (Ok (Plan (done ++ bad :: rest) styleContext), st1) ->
    executionLoop reg (Project.blueprint project) styleContext
      (personaOf project) done (mkLocals [] 1)
      (snd (announcePersona (personaOf project) st1))
      = (Ok tt, locals, st3) ->
    executeTask reg (Project.blueprint project) styleContext
      (personaOf project) bad locals st3 = (Throw e, st4) ->
    exists entry st5,
      runMultiAgentWorkflow reg userRequest project blueprint st
        = (newBlocks locals, st5)
      /\ events st5 = events st4
      /\ logs st5 = logs st4 ++ [entry]
      /\ agent entry = roleValue PROJECT_MANAGER
      /\ message entry = "Workflow encountered an error."%string
      /\ metadata entry = Some (JString (errorToString e))
      /\ status entry = failed.
Proof.
  intros reg userRequest project blueprint st done bad rest styleContext st1
         locals st3 e st4 Hplan Hdone Hbad.
  destruct (workflowCatch_spec e st4)
    as [entry [st5 [Hcatch [Hev [Hlogs [Ha [Hm [Hmeta Hs]]]]]]]].
  exists entry, st5. split; [|now repeat split].
  unfold runMultiAgentWorkflow. rewrite Hplan. unfold executionPhase.
  destruct (announcePersona_Ok (personaOf project) st1) as [st2 [Hann _]].
  rewrite Hann in *. cbn [snd] in Hdone.
  rewrite executionLoop_app, Hdone. cbn [executionLoop]. rewrite Hbad.
  now rewrite Hcatch.
Qed.

End WorkflowFacts.


(** A plan whose second task is [null]: the chapter written for the first
    task is returned, the third task is never run, and the error is
    logged. *)
Lemma error_keeps_the_blocks_already_written_witness :
  exists blocks entry st5,
    @runMultiAgentWorkflow Demo.host Samples.stumblingPlan
      "Write a book about the sea" Demo.plainProject None Demo.initialState
    = (blocks, st5)
    /\ map ContentBlock.content blocks = ["The sea was calm."%string]
    /\ @metadata entry
       = Some (JString
                 "TypeError: Cannot read properties of null (reading 'role')")
    /\ @status entry = failed
    /\ vendorsCalled (@events Demo.host st5)
       = [GEMINI; GEMINI; GEMINI; GEMINI; GEMINI].
Proof.
  set (first := Samples.chapterTask "Write Chapter 1: Departure"
                  "The crew sets sail." "Chapter 1").
  set (third := Samples.chapterTask "Write Chapter 2: The Storm"
                  "The storm hits." "Chapter 2").
  set (planned := @planningPhase Demo.host Samples.stumblingPlan
                    "Write a book about the sea" Demo.plainProject
                    Demo.initialState).
  set (style := ("VISUAL STYLE: plain" ++ nl ++ "SENSORY PALETTE: undefined")%string).
  set (looped := @executionLoop Demo.host Samples.stumblingPlan None style
                   firstPersona [first] (mkLocals [] 1)
                   (snd (@announcePersona Demo.host firstPersona (snd planned)))).
  set (thrown := @executeTask Demo.host Samples.stumblingPlan None style
                   firstPersona JNull (snd (fst looped)) (snd looped)).
  destruct (@error_keeps_the_blocks_already_written Demo.host
              Samples.stumblingPlan "Write a book about the sea"%string
              Demo.plainProject None Demo.initialState [first] JNull [third]
              style (snd planned) (snd (fst looped)) (snd looped)
              (newTypeError "Cannot read properties of null (reading 'role')")
              (snd thrown))
    as [entry [st5 [Hrun [Hev [_ [_ [_ [Hmeta Hstatus]]]]]]]];
    try (vm_compute; reflexivity).
  exists (newBlocks (snd (fst looped))), entry, st5. split; [exact Hrun|].
  split; [vm_compute; reflexivity|].
  split; [exact Hmeta|]. split; [exact Hstatus|].
  rewrite Hev. vm_compute. reflexivity.
Defined.

(** ** The workflow without any configured vendor *)

Section KeepsMore.
Context `{H : Host}.
Variable R : RunState -> RunState -> Prop.
Hypothesis R_refl : forall st, R st st.

Lemma keeps_isChapterTask description title :
  keeps R (isChapterTask description title).
Proof.
  unfold isChapterTask.
  destruct description as [[| | |d| |]|]; try apply (keeps_throw _ R_refl).
  destruct (mentionsChapter d); [apply (keeps_ret _ R_refl)|].
  destruct title as [[| | |t| |]|];
    (apply (keeps_ret _ R_refl) || apply (keeps_throw _ R_refl)).
Qed.

Lemma keeps_issuesJoined issues : keeps R (issuesJoined issues).
Proof.
  destruct issues as [[| | | | |]|]; simpl;
    (apply (keeps_ret _ R_refl) || apply (keeps_throw _ R_refl)).
Qed.

End KeepsMore.

Section UnconfiguredFacts.
Context `{H : Host}.
Open Scope run_scope.
Variable reg : Registry.
Hypothesis Hnone : getAvailableProviders reg = [].

Lemma keeps_liftWorld_sameEvents {A} (f : World -> A * World) :
  keeps sameEvents (liftWorld f).
Proof.
  intros st r st'. unfold liftWorld. destruct (f (world st)) as [a w].
  intros Heq. injection Heq as <- <-. reflexivity.
Qed.

Lemma keeps_generateWithFallback_unconfigured prompt options preferred :
  keeps sameEvents (generateWithFallback reg prompt options preferred).
Proof.
  intros st r st'. unfold generateWithFallback. rewrite Hnone.
  intros Heq. injection Heq as <- <-. reflexivity.
Qed.

Ltac calm :=
  repeat first
    [ apply keeps_log_sameEvents
    | apply keeps_generateWithFallback_unconfigured
    | apply keeps_liftWorld_sameEvents
    | apply (keeps_bind _ sameEvents_trans)
    | apply (keeps_ret _ sameEvents_refl)
    | apply (keeps_throw _ sameEvents_refl)
    | apply (keeps_getProp _ sameEvents_refl)
    | apply (keeps_promiseAll2 _ sameEvents_trans)
    | apply (keeps_isChapterTask _ sameEvents_refl)
    | apply (keeps_issuesJoined _ sameEvents_refl)
    | progress cbv zeta
    | match goal with
      | |- forall _, _ => intro
      | |- keeps _ (match ?x with _ => _ end) => destruct x
      end ].

Lemma keeps_executeTask_unconfigured bp styleContext persona task locals :
  keeps sameEvents (executeTask reg bp styleContext persona task locals).
Proof.
  unfold executeTask, announceTask, executeWriterTask, writerDraft, writerCall,
    finishDraft, validationCalls, logValidation.
  calm.
Qed.

Lemma keeps_planningPhase_unconfigured userRequest project :
  keeps sameEvents (planningPhase reg userRequest project).
Proof. unfold planningPhase, dynamicPlanning. calm. Qed.

Lemma executionLoop_unconfigured bp styleContext persona tasks :
  forall locals (st : RunState) r locals' st',
    executionLoop reg bp styleContext persona tasks locals st = (r, locals', st') ->
    events st' = events st.
Proof.
  induction tasks as [|task tasks IH]; intros locals st r locals' st';
    cbn [executionLoop].
  - intros Heq. now injection Heq as _ _ <-.
  - destruct (executeTask reg bp styleContext persona task locals st)
      as [[locals1|e] st1] eqn:Hstep;
      apply keeps_executeTask_unconfigured in Hstep.
    + intros Hrest. apply IH in Hrest. unfold sameEvents in Hstep. congruence.
    + intros Heq. now injection Heq as _ _ <-.
Qed.

(** X20: A run with no configured vendor makes no call and returns no block,
    whatever the project.  When the project has no blueprint it logs the
    three planning entries and then one failure-status entry that carries
    the configuration error. *)
Theorem unconfigured_run_makes_no_call_and_no_block :
  forall (userRequest : string) (project : Project.t)
         (blueprint : option Blueprint.t) (st : RunState),
    fst (runMultiAgentWorkflow reg userRequest project blueprint st) = []
    /\ events (snd (runMultiAgentWorkflow reg userRequest project blueprint st))
       = events st
    /\ (Project.blueprint project = None ->
        exists e1 e2 e3 e4,
          logs (snd (runMultiAgentWorkflow reg userRequest project blueprint st))
          = logs st ++ [e1; e2; e3; e4]
          /\ agent e4 = roleValue PROJECT_MANAGER
          /\ message e4 = "Workflow encountered an error."%string
          /\ metadata e4
             = Some (JString ("Error: " ++ noProvidersMessage)%string)
          /\ status e4 = failed).
Proof.
  intros userRequest project blueprint st. split; [|split].
  - pose proof (run_blocks_are_drafts reg userRequest project blueprint st)
      as Hall.
    destruct (fst (runMultiAgentWorkflow reg userRequest project blueprint st))
      as [|b blocks]; [reflexivity|].
    inversion Hall as [|? ? [_ [_ [md [vendor [_ [_ [_ [Hin _]]]]]]]] _]; subst.
    rewrite Hnone in Hin. destruct Hin.
  - unfold runMultiAgentWorkflow.
    destruct (planningPhase reg userRequest project st) as [[[|tasks style]|e] s1]
      eqn:Hplan; apply keeps_planningPhase_unconfigured in Hplan;
      unfold sameEvents in Hplan; cbn [snd].
    + exact Hplan.
    + unfold executionPhase.
      destruct (announcePersona_Ok (personaOf project) s1) as [s2 [Hann Hev2]].
      rewrite Hann.
      destruct (executionLoop reg (Project.blueprint project) style
                  (personaOf project) tasks (mkLocals [] 1) s2)
        as [[r locals'] s3] eqn:Hloop.
      apply executionLoop_unconfigured in Hloop.
      destruct r as [u|e]; cbn [snd]; [congruence|].
      destruct (workflowCatch_spec e s3) as [entry [s4 [Hcatch [Hev4 _]]]].
      rewrite Hcatch. cbn [snd]. congruence.
    + destruct (workflowCatch_spec e s1) as [entry [s4 [Hcatch [Hev4 _]]]].
      rewrite Hcatch. cbn [snd]. congruence.
  - intros Hbp. unfold runMultiAgentWorkflow, planningPhase. rewrite Hbp.
    unfold dynamicPlanning. cbv zeta. unfold bind at 1.
    destruct (log_spec (roleValue PROJECT_MANAGER)
                "Initiating Parallel Planning Phase..." undefined thinking None st)
      as [e1 [s1 [Hl1 [Hlogs1 _]]]]. rewrite Hl1.
    unfold bind at 1.
    destruct (log_spec (roleValue ARCHITECT) "Structuring narrative arc..."
                undefined thinking None s1)
      as [e2 [s2 [Hl2 [Hlogs2 _]]]]. rewrite Hl2.
    unfold bind at 1.
    destruct (log_spec (roleValue VISIONARY) "Defining stylistic palette..."
                undefined thinking None s2)
      as [e3 [s3 [Hl3 [Hlogs3 _]]]]. rewrite Hl3.
    unfold bind at 1. unfold promiseAll2, generateWithFallback.
    rewrite Hnone. cbn [throw].
    destruct (workflowCatch_spec (newError noProvidersMessage) s3)
      as [e4 [s4 [Hcatch [_ [Hlogs4 [Ha [Hm [Hmeta Hs]]]]]]]].
    rewrite Hcatch. cbn [snd]. exists e1, e2, e3, e4.
    split; [|now repeat split].
    rewrite Hlogs4, Hlogs3, Hlogs2, Hlogs1, <- !app_assoc. reflexivity.
Qed.

End UnconfiguredFacts.

(** The run of a project without blueprint when no vendor has
    credentials. *)
Lemma unconfigured_run_makes_no_call_and_no_block_witness :
  fst (@runMultiAgentWorkflow Demo.host Demo.noneConfigured
         "Write a book about the sea" Demo.plainProject None Demo.initialState)
  = []
  /\ @events Demo.host
       (snd (@runMultiAgentWorkflow Demo.host Demo.noneConfigured
               "Write a book about the sea" Demo.plainProject None
               Demo.initialState)) = [].
Proof.
  destruct (@unconfigured_run_makes_no_call_and_no_block Demo.host
              Demo.noneConfigured eq_refl "Write a book about the sea"%string
              Demo.plainProject None Demo.initialState) as [Hblocks [Hev _]].
  split; [exact Hblocks | exact Hev].
Defined.

(** ** The personas *)

Section PersonaFacts.
Context `{H : Host}.

Lemma persona_cases (P : AgentPersona.t -> Prop) :
  (forall p, In p AGENT_PERSONAS -> P p) <->
  Forall P AGENT_PERSONAS.
Proof. symmetry. apply Forall_forall. Qed.

(** X21: [getPersonaById] always gives a persona of the table: the one with
    the identifier asked for, each entry being found under its own
    identifier, and the first one, "standard_vibe", when the identifier is
    missing or unknown.  Every persona of the table has a prompt modifier,
    so the writer's system prompt is always the writer prompt followed by
    the modifier of the persona: the branch without modifier is never
    taken. *)
Theorem getPersonaById_finds_or_defaults :
  forall id : option string,
    In (getPersonaById id) AGENT_PERSONAS
    /\ (forall p, In p AGENT_PERSONAS ->
                  getPersonaById (Some (AgentPersona.id p)) = p)
    /\ ((forall p, In p AGENT_PERSONAS -> id <> Some (AgentPersona.id p)) ->
        AgentPersona.id (getPersonaById id) = "standard_vibe"%string)
    /\ writerSystemPrompt (getPersonaById id)
       = (WRITER_PROMPT ++ nl ++ nl ++ "IMPORTANT - ADOPT THIS PERSONA:" ++ nl ++
          AgentPersona.systemPromptModifier (getPersonaById id))%string.
Proof.
  intros id.
  assert (Hfirst : In firstPersona AGENT_PERSONAS) by (now left).
  assert (Hin : In (getPersonaById id) AGENT_PERSONAS).
  { unfold getPersonaById. destruct id as [i|]; [|exact Hfirst].
    destruct (find (fun p => String.eqb (AgentPersona.id p) i) AGENT_PERSONAS)
      as [p|] eqn:Hfind; [|exact Hfirst].
    now apply find_some in Hfind. }
  split; [exact Hin|]. split; [|split].
  - apply persona_cases. repeat constructor.
  - intros Hunknown. unfold getPersonaById. destruct id as [i|]; [|reflexivity].
    destruct (find (fun p => String.eqb (AgentPersona.id p) i) AGENT_PERSONAS)
      as [p|] eqn:Hfind; [|reflexivity].
    apply find_some in Hfind. destruct Hfind as [Hp Heq].
    apply String.eqb_eq in Heq. exfalso. apply (Hunknown p Hp). now rewrite Heq.
  - revert Hin. generalize (getPersonaById id). apply persona_cases.
    repeat constructor.
Qed.

End PersonaFacts.

(** ** The folder context: names *)

Section FolderNameFacts.
Open Scope string_scope.

Lemma includes_unfold needle s :
  includes needle s
  = (startsWith needle s
     || match s with
        | EmptyString => false
        | String _ s' => includes needle s'
        end).
Proof. destruct s; reflexivity. Qed.

Lemma includes_iff needle s :
  includes needle s = true <-> exists before after, s = before ++ needle ++ after.
Proof.
  split.
  - induction s as [|c s IH]; rewrite includes_unfold; intros Hinc;
      apply orb_true_iff in Hinc; destruct Hinc as [Hstart | Hrest].
    + apply startsWith_split in Hstart. destruct Hstart as [rest Hrest].
      now exists "", rest.
    + discriminate.
    + apply startsWith_split in Hstart. destruct Hstart as [rest Hrest].
      now exists "", rest.
    + destruct (IH Hrest) as [before [after ->]].
      now exists (String c before), after.
  - intros [before [after ->]].
    induction before as [|c before IH]; rewrite includes_unfold.
    + cbn [append]. now rewrite startsWith_app.
    + cbn [append]. rewrite IH. apply orb_true_r.
Qed.

(** X22: [shouldIgnore] is a substring test: a name is ignored exactly when one
    of the seven patterns occurs somewhere in it, so that a name which
    merely contains "build" or "dist" is ignored too. *)
Theorem shouldIgnore_is_a_substring_test :
  forall name : string,
    Folder.shouldIgnore name = true
    <-> exists pattern before after,
          In pattern Folder.IGNORED_PATTERNS
          /\ name = before ++ pattern ++ after.
Proof.
  intros name. unfold Folder.shouldIgnore. rewrite existsb_exists. split.
  - intros [pattern [Hin Hinc]]. apply includes_iff in Hinc.
    destruct Hinc as [before [after ->]]. now exists pattern, before, after.
  - intros [pattern [before [after [Hin ->]]]]. exists pattern.
    split; [exact Hin|]. apply includes_iff. now exists before, after.
Qed.

Lemma endsWith_iff suffix s :
  Folder.endsWith suffix s = true <-> exists stem, s = stem ++ suffix.
Proof.
  unfold Folder.endsWith. split.
  - intros Hstart. apply startsWith_split in Hstart.
    destruct Hstart as [rest Hrest]. exists (rev rest).
    rewrite <- (rev_involutive s), Hrest, rev_app, rev_involutive. reflexivity.
  - intros [stem ->]. rewrite rev_app. apply startsWith_app.
Qed.

Lemma toLowerCase_app a b :
  toLowerCase (a ++ b) = toLowerCase a ++ toLowerCase b.
Proof. induction a as [|c a IH]; cbn; [reflexivity | now rewrite IH]. Qed.

Lemma toLowerCase_split s : forall a b,
  toLowerCase s = a ++ b ->
  exists s1 s2, s = s1 ++ s2 /\ toLowerCase s1 = a /\ toLowerCase s2 = b.
Proof.
  induction s as [|c s IH]; intros a b Heq.
  - destruct a; [|discriminate]. cbn in Heq. subst b. now exists "", "".
  - destruct a as [|x a].
    + cbn [append] in Heq. subst b. now exists "", (String c s).
    + cbn in Heq. injection Heq as Hx Hrest.
      destruct (IH a b Hrest) as [s1 [s2 [-> [H1 H2]]]].
      exists (String c s1), s2. cbn. now rewrite Hx, H1.
Qed.

(** X23: [isIndexable] looks at the end of the name only and not at its letter
    case: a file is indexable exactly when its name ends with one of the
    nine extensions written in any mix of upper and lower case. *)
Theorem isIndexable_ignores_case_of_extension :
  forall filename : string,
    Folder.isIndexable filename = true
    <-> exists stem suffix ext,
          In ext Folder.INDEXABLE_EXTENSIONS
          /\ filename = stem ++ suffix
          /\ toLowerCase suffix = ext.
Proof.
  intros filename. unfold Folder.isIndexable. rewrite existsb_exists. split.
  - intros [ext [Hin Hends]]. apply endsWith_iff in Hends.
    destruct Hends as [lowered Hlow].
    destruct (toLowerCase_split _ _ _ Hlow) as [stem [suffix [-> [_ Hsuffix]]]].
    now exists stem, suffix, ext.
  - intros [stem [suffix [ext [Hin [-> Hlow]]]]]. exists ext.
    split; [exact Hin|]. apply endsWith_iff. exists (toLowerCase stem).
    now rewrite toLowerCase_app, Hlow.
Qed.

End FolderNameFacts.

(** ** The folder context: traversals *)

Section FolderTreeFacts.
Import Folder.

Lemma FileNode_induction (P : FileNode -> Prop) :
  (forall n, Forall P (childrenOf n) -> P n) -> forall n, P n.
Proof.
  intros Hstep. fix IH 1. intros [nm p kind sz lm kids c].
  apply Hstep. unfold childrenOf. cbn [children].
  destruct kids as [items|]; [|constructor].
  revert items. fix IHitems 1. intros [|i items].
  - constructor.
  - constructor; [apply IH | apply IHitems].
Qed.

Lemma fold_left_appends {X : Type} (step : FileNode -> list X -> list X)
    (out : FileNode -> list X) (items : list FileNode) :
  Forall (fun n => forall r, step n r = r ++ out n) items ->
  forall acc,
    fold_left (fun r n => step n r) items acc = acc ++ flat_map out items.
Proof.
  induction 1 as [|n items Hn _ IH]; intros acc; cbn [fold_left flat_map].
  - now rewrite app_nil_r.
  - now rewrite Hn, IH, app_assoc.
Qed.

Lemma filter_flat_map {A B : Type} (f : B -> bool) (g : A -> list B) l :
  filter f (flat_map g l) = flat_map (fun x => filter f (g x)) l.
Proof.
  induction l as [|x l IH]; cbn [flat_map]; [reflexivity|].
  now rewrite filter_app, IH.
Qed.

Lemma map_flat_map {A B C : Type} (f : B -> C) (g : A -> list B) l :
  map f (flat_map g l) = flat_map (fun x => map f (g x)) l.
Proof.
  induction l as [|x l IH]; cbn [flat_map]; [reflexivity|].
  now rewrite map_app, IH.
Qed.

Lemma collectNode_preorder test n :
  forall results,
    collectNode test n results
    = results ++ filter (fun m => isFile m && test (name m)) (preorder n).
Proof.
  induction n as [[nm p kind sz lm kids c] IH] using FileNode_induction.
  intros results. unfold childrenOf in IH. cbn [children] in IH.
  cbn [collectNode preorder filter isFile type name].
  assert (Hhead :
    (if match kind with KindFile => true | KindDirectory => false end && test nm
     then [mkFileNode nm p kind sz lm kids c] else [])
    = match kind with
      | KindFile => if test nm then [mkFileNode nm p kind sz lm kids c] else []
      | KindDirectory => []
      end) by now destruct kind.
  destruct kids as [items|].
  - rewrite (fold_left_appends (collectNode test)
               (fun m => filter (fun x => isFile x && test (name x)) (preorder m))
               items IH).
    rewrite <- filter_flat_map.
    destruct kind; cbn [andb].
    + destruct (test nm); cbn [app]; [now rewrite <- app_assoc | reflexivity].
    + reflexivity.
  - destruct kind; cbn [andb]; [destruct (test nm)|]; cbn [filter];
      now rewrite ?app_nil_r.
Qed.

Lemma gatherNode_preorder n :
  forall contents,
    gatherNode n contents
    = contents ++ map entryOf (filter hasContent (preorder n)).
Proof.
  induction n as [[nm p kind sz lm kids c] IH] using FileNode_induction.
  intros contents. unfold childrenOf in IH. cbn [children] in IH.
  cbn [gatherNode preorder filter hasContent isFile type content].
  assert (Hhead : forall rest,
    map entryOf
      (if match kind with KindFile => true | KindDirectory => false end
          && match c with Some text => nonEmpty text | None => false end
       then mkFileNode nm p kind sz lm kids c :: rest else rest)
    = match kind, c with
      | KindFile, Some text =>
          if nonEmpty text then [contentEntry p text] else []
      | _, _ => []
      end ++ map entryOf rest).
  { intros rest. destruct kind; [|reflexivity].
    destruct c as [text|]; [|reflexivity].
    destruct (nonEmpty text); reflexivity. }
  rewrite Hhead.
  assert (Hstart :
    match kind, c with
    | KindFile, Some text =>
        if nonEmpty text then contents ++ [contentEntry p text] else contents
    | _, _ => contents
    end
    = contents ++ match kind, c with
                  | KindFile, Some text =>
                      if nonEmpty text then [contentEntry p text] else []
                  | _, _ => []
                  end).
  { destruct kind; [|now rewrite app_nil_r].
    destruct c as [text|]; [|now rewrite app_nil_r].
    destruct (nonEmpty text); [reflexivity | now rewrite app_nil_r]. }
  rewrite Hstart. destruct kids as [items|].
  - rewrite (fold_left_appends gatherNode
               (fun m => map entryOf (filter hasContent (preorder m))) items IH).
    rewrite <- map_flat_map, <- filter_flat_map, <- app_assoc. reflexivity.
  - cbn [map]. now rewrite app_nil_r.
Qed.

(** X24: The two collecting traversals visit the tree depth first, a parent
    before its children, and leave out nothing: [findFilesByPattern]
    returns the file nodes whose name passes the test in that order, and
    [getAllIndexedContent] joins, by a blank line, one
    "--- path ---" entry per file with non-empty content, in that
    order. *)
Theorem collecting_traversals_are_preorder_filters :
  forall (context : ProjectContext) (test : string -> bool),
    findFilesByPattern context test
    = filter (fun n => isFile n && test (name n)) (allNodes (files context))
    /\ getAllIndexedContent context
       = join (nl ++ nl)%string
           (map entryOf (filter hasContent (allNodes (files context)))).
Proof.
  intros context test. unfold findFilesByPattern, getAllIndexedContent, allNodes.
  split.
  - rewrite (fold_left_appends (collectNode test)
               (fun m => filter (fun x => isFile x && test (name x)) (preorder m))).
    + now rewrite filter_flat_map.
    + apply Forall_forall. intros n _. apply collectNode_preorder.
  - f_equal.
    rewrite (fold_left_appends gatherNode
               (fun m => map entryOf (filter hasContent (preorder m)))).
    + now rewrite filter_flat_map, map_flat_map.
    + apply Forall_forall. intros n _. apply gatherNode_preorder.
Qed.

Lemma find_app {A : Type} (f : A -> bool) (a b : list A) :
  find f (a ++ b) = match find f a with Some x => Some x | None => find f b end.
Proof.
  induction a as [|x a IH]; cbn [app find]; [reflexivity|].
  destruct (f x); [reflexivity | exact IH].
Qed.

Lemma firstSome_find wanted (items : list FileNode) :
  Forall (fun n => searchNode wanted n
                   = find (fun m => String.eqb (path m) wanted) (preorder n))
    items ->
  firstSome (searchNode wanted) items
  = find (fun m => String.eqb (path m) wanted) (flat_map preorder items).
Proof.
  induction 1 as [|n items Hn _ IH]; cbn [firstSome flat_map]; [reflexivity|].
  rewrite find_app, Hn.
  destruct (find (fun m => String.eqb (path m) wanted) (preorder n));
    [reflexivity | exact IH].
Qed.

Lemma searchNode_find wanted n :
  searchNode wanted n
  = find (fun m => String.eqb (path m) wanted) (preorder n).
Proof.
  induction n as [[nm p kind sz lm kids c] IH] using FileNode_induction.
  unfold childrenOf in IH. cbn [children] in IH.
  cbn [searchNode preorder find path].
  destruct (String.eqb p wanted); [reflexivity|].
  destruct kids as [items|]; [now apply firstSome_find | reflexivity].
Qed.

(** X25: [findFile] returns the first node, depth first and a parent before
    its children, whose path is the one asked for: the node it returns has
    that path and belongs to the tree, and it returns [null] exactly when
    no node of the tree, file or directory, has that path. *)
Theorem findFile_is_first_in_preorder :
  forall (context : ProjectContext) (wanted : string),
    findFile context wanted
    = find (fun n => String.eqb (path n) wanted) (allNodes (files context))
    /\ (forall n, findFile context wanted = Some n ->
                  path n = wanted /\ In n (allNodes (files context)))
    /\ (findFile context wanted = None
        <-> forall n, In n (allNodes (files context)) -> path n <> wanted).
Proof.
  intros context wanted.
  assert (Heq : findFile context wanted
                = find (fun n => String.eqb (path n) wanted)
                    (allNodes (files context))).
  { unfold findFile, allNodes. apply firstSome_find.
    apply Forall_forall. intros n _. apply searchNode_find. }
  split; [exact Heq|]. rewrite Heq. split.
  - intros n Hfind. apply find_some in Hfind. destruct Hfind as [Hin Hp].
    apply String.eqb_eq in Hp. now split.
  - split.
    + intros Hnone n Hin Hp. pose proof (find_none _ _ Hnone n Hin) as Hb.
      cbv beta in Hb. apply String.eqb_neq in Hb. contradiction.
    + intros Hall.
      destruct (find (fun n => String.eqb (path n) wanted)
                  (allNodes (files context))) as [n|] eqn:Hfind; [|reflexivity].
      apply find_some in Hfind. destruct Hfind as [Hin Hp].
      apply String.eqb_eq in Hp. exfalso. exact (Hall n Hin Hp).
Qed.

Lemma fold_left_counts (items : list FileNode) :
  Forall (fun n => forall acc,
            countNode n acc
            = mkStats
                (statFiles acc
                 + N.of_nat (List.length (filter isFile (preorder n))))
                (statSize acc + sumSizes (filter isFile (preorder n)))) items ->
  forall acc,
    fold_left (fun a i => countNode i a) items acc
    = mkStats
        (statFiles acc
         + N.of_nat (List.length (filter isFile (flat_map preorder items))))
        (statSize acc + sumSizes (filter isFile (flat_map preorder items))).
Proof.
  assert (Hsum : forall a b, sumSizes (a ++ b) = (sumSizes a + sumSizes b)%N).
  { induction a as [|x a IHa]; intros b; cbn [app sumSizes fold_right];
      [reflexivity|]. fold (sumSizes (a ++ b)). fold (sumSizes a).
    rewrite IHa. lia. }
  induction 1 as [|n items Hn _ IH]; intros acc; cbn [fold_left flat_map].
  - cbn. destruct acc as [f s]. cbn. f_equal; lia.
  - rewrite Hn, IH. cbn [statFiles statSize].
    rewrite filter_app, length_app, Hsum. f_equal; lia.
Qed.

Lemma countNode_preorder n :
  filesAreLeaves n = true ->
  forall acc,
    countNode n acc
    = mkStats
        (statFiles acc + N.of_nat (List.length (filter isFile (preorder n))))
        (statSize acc + sumSizes (filter isFile (preorder n))).
Proof.
  induction n as [[nm p kind sz lm kids c] IH] using FileNode_induction.
  unfold childrenOf in IH. cbn [children] in IH.
  intros Hleaves acc. destruct kind.
  - destruct kids as [items|]; [discriminate|].
    cbn. unfold sizeOf. cbn [size]. f_equal; lia.
  - destruct kids as [items|].
    + cbn [countNode preorder filter isFile type].
      cbn [filesAreLeaves] in Hleaves. rewrite forallb_forall in Hleaves.
      apply fold_left_counts. rewrite Forall_forall in IH |- *.
      intros n Hn. apply (IH n Hn). now apply Hleaves.
    + cbn. destruct acc as [f s]. cbn. f_equal; lia.
Qed.

(** X26: On a tree in which no file node has children, as [scanDirectory]
    builds them, the statistics agree with the search: [calculateStats]
    counts exactly the files that [findFilesByPattern] returns for a
    pattern that matches every name, and its total is the sum of their
    sizes, a file without size counting for nothing. *)
Theorem calculateStats_agrees_with_the_search :
  forall context : ProjectContext,
    forallb filesAreLeaves (files context) = true ->
    statFiles (calculateStats (files context))
    = N.of_nat (List.length (findFilesByPattern context (fun _ => true)))
    /\ statSize (calculateStats (files context))
       = sumSizes (findFilesByPattern context (fun _ => true)).
Proof.
  intros context Hleaves.
  assert (Hfound : findFilesByPattern context (fun _ => true)
                   = filter isFile (allNodes (files context))).
  { unfold findFilesByPattern, allNodes.
    rewrite (fold_left_appends (collectNode (fun _ => true))
               (fun m => filter (fun x => isFile x && true) (preorder m))).
    - rewrite <- filter_flat_map. apply filter_ext. intros n.
      apply andb_true_r.
    - apply Forall_forall. intros n _. apply collectNode_preorder. }
  rewrite Hfound. unfold calculateStats, allNodes.
  rewrite fold_left_counts.
  - cbn [statFiles statSize]. split; lia.
  - rewrite forallb_forall in Hleaves. apply Forall_forall.
    intros n Hn. apply countNode_preorder. now apply Hleaves.
Qed.

End FolderTreeFacts.

(** The statistics of the sample folder: three files, 2178 bytes. *)
Lemma calculateStats_agrees_with_the_search_witness :
  Folder.statFiles (Folder.calculateStats (Folder.files Folder.sampleContext))
  = 3%N
  /\ Folder.statSize (Folder.calculateStats (Folder.files Folder.sampleContext))
     = 2178%N.
Proof.
  destruct (calculateStats_agrees_with_the_search Folder.sampleContext eq_refl)
    as [Hfiles Hsize].
  split; [rewrite Hfiles | rewrite Hsize]; reflexivity.
Defined.

(** ** The registry after start-up *)

Section StartupFacts.
Context `{H : Host}.
Variable env : Environment.

Lemma loadProvider_instances reg v :
  providerInstances (loadProvider env reg v)
  = mapSet v (instanceOf env v) (providerInstances reg).
Proof.
  unfold loadProvider, registerProvider. cbn [providerInstances name instanceOf].
  now destruct (constructorFlags env v).
Qed.

Lemma startup_instances :
  providerInstances (startup env)
  = map (fun v => (v, instanceOf env v)) PROVIDER_MODULES.
Proof.
  unfold startup. cbn [fold_left PROVIDER_MODULES].
  rewrite !loadProvider_instances. reflexivity.
Qed.

Lemma startup_available :
  getAvailableProviders (startup env) = filter (configured env) PROVIDER_MODULES.
Proof.
  unfold getAvailableProviders. rewrite startup_instances.
  induction PROVIDER_MODULES as [|v l IH]; cbn [map filter snd isConfigured instanceOf];
    [reflexivity|].
  destruct (configured env v); cbn [map fst]; now rewrite IH.
Qed.

Lemma startup_getProvider v :
  getProvider (startup env) v = Some (instanceOf env v).
Proof.
  unfold getProvider. rewrite startup_instances. now destruct v.
Qed.

(** The table after start-up: the models of the vendors whose
    constructor updated it are flagged, the others are as declared. *)
Lemma startup_models :
  models (startup env)
  = map (fun m => if constructorFlags env (provider m)
                  then setAvailability (provider m) true m else m)
      MODEL_REGISTRY.
Proof.
  unfold startup. cbn [fold_left PROVIDER_MODULES].
  unfold loadProvider, registerProvider. cbn [MODEL_REGISTRY map provider].
  destruct (constructorFlags env GEMINI), (constructorFlags env GROQ),
    (constructorFlags env DEEPSEEK), (constructorFlags env MISTRAL),
    (constructorFlags env HUGGINGFACE), (constructorFlags env OPENROUTER);
    reflexivity.
Qed.

Lemma configured_flags v :
  configured env v = true -> constructorFlags env v = true.
Proof.
  unfold configured, constructorFlags.
  destruct (apiKey env v) as [key|]; [|discriminate]. now destruct v.
Qed.

Lemma startup_model_cases m :
  In m (models (startup env)) ->
  exists m0,
    In m0 MODEL_REGISTRY /\ provider m = provider m0
    /\ (constructorFlags env (provider m0) = true -> isAvailable m = true)
    /\ (isAvailable m0 = true -> isAvailable m = true).
Proof.
  rewrite startup_models. intros Hin. apply in_map_iff in Hin.
  destruct Hin as [m0 [Hm Hin]]. exists m0. split; [exact Hin|].
  destruct (constructorFlags env (provider m0)); subst m.
  - rewrite (setAvailability_same _ _ _ eq_refl). cbn. repeat split.
  - repeat split; auto. discriminate.
Qed.



(** X27: The state of the registry once the provider modules have been
    evaluated: the available vendors are those whose [isConfigured] holds,
    listed in the order of the imports; each vendor's instance is in the
    map; every model of a configured vendor is flagged available; and the
    Gemini models are flagged available whether Gemini is configured or
    not, since no constructor ever clears a flag. *)
Theorem startup_lists_and_flags_the_configured_vendors :
  getAvailableProviders (startup env) = filter (configured env) PROVIDER_MODULES
  /\ (forall v, getProvider (startup env) v = Some (instanceOf env v))
  /\ (forall m, In m (models (startup env)) ->
                configured env (provider m) = true -> isAvailable m = true)
  /\ (forall m, In m (models (startup env)) ->
                provider m = GEMINI -> isAvailable m = true).
Proof.
  split; [apply startup_available|]. split; [apply startup_getProvider|]. split.
  - intros m Hin Hconf.
    destruct (startup_model_cases m Hin) as [m0 [_ [Hp [Hflag _]]]].
    apply Hflag. apply configured_flags. now rewrite <- Hp.
  - intros m Hin Hgemini.
    destruct (startup_model_cases m Hin) as [m0 [Hin0 [Hp [_ Hdefault]]]].
    apply Hdefault. rewrite Hgemini in Hp. cbn in Hin0.
    repeat (destruct Hin0 as [<- | Hin0]; [first [reflexivity | discriminate]|]).
    destruct Hin0.
Qed.




End StartupFacts.


(** ** The validation verdicts *)

Section VerdictFacts.
Context `{H : Host}.
Open Scope run_scope.


End VerdictFacts.


(** ** The consistency prompt *)

Section TemplateFacts.
Context `{H : Host}.
Open Scope string_scope.

Lemma includes_char_cons (x c : ascii) (s : string) :
  includes (String x "") (String c s) = Ascii.eqb x c || includes (String x "") s.
Proof. cbn [includes startsWith]. now rewrite andb_true_r. Qed.

Lemma getSubstitution_plain matched before after repl :
  includes "$" repl = false -> getSubstitution matched before after repl = repl.
Proof.
  induction repl as [|c repl IH]; [reflexivity|].
  rewrite includes_char_cons. intros Hplain.
  apply orb_false_iff in Hplain. destruct Hplain as [Hc Hrest].
  cbn [getSubstitution]. rewrite Ascii.eqb_sym in Hc. rewrite Hc.
  now rewrite (IH Hrest).
Qed.

Lemma splitFirst_through (x : ascii) (needle w rest : string) :
  includes (String x "") w = false ->
  splitFirst (String x needle) (w ++ rest)
  = match splitFirst (String x needle) rest with
    | Some (before, after) => Some (w ++ before, after)
    | None => None
    end.
Proof.
  induction w as [|c w IH].
  - intros _. cbn [append]. now destruct (splitFirst (String x needle) rest) as [[b a]|].
  - rewrite includes_char_cons. intros Hfree.
    apply orb_false_iff in Hfree. destruct Hfree as [Hc Hrest].
    cbn [append splitFirst startsWith]. rewrite Hc. cbn [andb].
    rewrite (IH Hrest).
    now destruct (splitFirst (String x needle) rest) as [[b a]|].
Qed.

Lemma template_pieces :
  CONSISTENCY_PROMPT
  = templateHead ++ "{WORLD_CONTEXT}" ++ templateMiddle ++ "{CONTENT}"
    ++ templateTail.
Proof. vm_compute. reflexivity. Qed.

Lemma template_first_placeholder :
  splitFirst "{WORLD_CONTEXT}" CONSISTENCY_PROMPT
  = Some (templateHead, templateMiddle ++ "{CONTENT}" ++ templateTail).
Proof. vm_compute. reflexivity. Qed.

Lemma template_second_placeholder :
  splitFirst "{CONTENT}" (templateMiddle ++ "{CONTENT}" ++ templateTail)
  = Some (templateMiddle, templateTail).
Proof. vm_compute. reflexivity. Qed.

Lemma template_head_has_no_brace : includes "{" templateHead = false.
Proof. vm_compute. reflexivity. Qed.

(** X30: The system prompt of the consistency call is the template with the
    world context and the first 1000 characters of the content written in
    place of the two placeholders, provided the world context contains no
    dollar sign and no opening brace and the content no dollar sign.  The
    proviso is needed: the placeholders are filled by [String.replace],
    which expands dollar patterns of the inserted text, so that a content
    of "$&" leaves the placeholder in the prompt. *)
Theorem consistency_prompt_is_filled_literally :
  forall (bp : option Blueprint.t) (contentStr : string),
    includes "$" (if nonEmpty (worldContext bp) then worldContext bp
                  else "No specific world rules.") = false ->
    includes "{" (if nonEmpty (worldContext bp) then worldContext bp
                  else "No specific world rules.") = false ->
    includes "$" (take 1000 contentStr) = false ->
    consistencySystemPrompt bp contentStr
    = templateHead
      ++ (if nonEmpty (worldContext bp) then worldContext bp
          else "No specific world rules.")
      ++ templateMiddle ++ take 1000 contentStr ++ templateTail
    /\ CONSISTENCY_PROMPT
       = templateHead ++ "{WORLD_CONTEXT}" ++ templateMiddle ++ "{CONTENT}"
         ++ templateTail
    /\ consistencySystemPrompt None "$&"
       = templateHead ++ "No specific world rules." ++ templateMiddle
         ++ "{CONTENT}" ++ templateTail.
Proof.
  intros bp contentStr Hdollar Hbrace Hcontent.
  split; [|split; [exact template_pieces | vm_compute; reflexivity]].
  unfold consistencySystemPrompt.
  set (world := if nonEmpty (worldContext bp) then worldContext bp
                else "No specific world rules.") in *.
  unfold replaceFirst at 2. rewrite template_first_placeholder.
  rewrite (getSubstitution_plain _ _ _ _ Hdollar).
  unfold replaceFirst.
  rewrite (splitFirst_through "{" "CONTENT}" templateHead _
             template_head_has_no_brace).
  rewrite (splitFirst_through "{" "CONTENT}" world _ Hbrace).
  rewrite template_second_placeholder.
  rewrite (getSubstitution_plain _ _ _ _ Hcontent).
  now rewrite !append_assoc.
Qed.

End TemplateFacts.

(** The consistency prompt for a project without blueprint and a plain
    sentence. *)
Lemma consistency_prompt_is_filled_literally_witness :
  consistencySystemPrompt None "The sea was calm."
  = (templateHead ++ "No specific world rules." ++ templateMiddle
     ++ "The sea was calm." ++ templateTail)%string.
Proof.
  exact (proj1 (consistency_prompt_is_filled_literally None
                  "The sea was calm."%string eq_refl eq_refl eq_refl)).
Defined.
